(** * Vertical autoscaling adapter: validator.py, heat_client.py, adapter.py

    A shallow embedding of the decision-and-execution pipeline of the
    metrics adapter: alert validation, the scaling decision, the flavor
    progression table, the cooldown gate, the resize executor with its
    simulated and live paths, and the bounded action journal.

    Conventions of the embedding.
    - Python [int] is [Z]; Python [float] is an IEEE binary64 value of the
      standard library's [spec_float], with subtraction correctly rounded
      ([SFsub 53 1024]).  Comparisons, including the mixed int/float ones,
      compare the exact values, as Python does.
    - Python [str] is [string], holding the UTF-8 bytes of the text.
    - A JSON object or a [dict] keyed by strings is a [gmap string _].
    - An f-string is kept as the list of its pieces (literal text and
      formatted values), so no number is ever rendered to digits.
    - Calls to [logger] have no effect on the program state and are left out.
*)

From Stdlib Require Import ZArith QArith Qcanon Lia Bool.
From Stdlib Require Import Floats.SpecFloat.
From stdpp Require Import base option numbers strings list gmap.

Local Open Scope Z_scope.
Set Warnings "-register-all".

(* ================================================================== *)
(** * Python values                                                     *)
(* ================================================================== *)

Module Py.

(** ** Numbers *)

Abbreviation float := spec_float.

Definition prec : Z := 53.
Definition emax : Z := 1024.

(** A Python number: an [int] or a [float] ([bool] is read as an [int],
    see [as_num] below). *)
Inductive num :=
  | PInt (z : Z)
  | PFloat (f : float).

(** The exact value a number denotes. *)
Inductive xval :=
  | XNan
  | XNegInf
  | XFin (q : Qc)
  | XPosInf.

Definition pow2 (e : Z) : Qc :=
  if 0 <=? e then Qc_of_Z (2 ^ e) else (/ Qc_of_Z (2 ^ (- e)))%Qc.

Definition float_val (f : float) : xval :=
  match f with
  | S754_zero _ => XFin (Qc_of_Z 0)
  | S754_infinity s => if s then XNegInf else XPosInf
  | S754_nan => XNan
  | S754_finite s m e => XFin (Qc_of_Z (cond_Zopp s (Zpos m)) * pow2 e)%Qc
  end.

Definition num_val (n : num) : xval :=
  match n with
  | PInt z => XFin (Qc_of_Z z)
  | PFloat f => float_val f
  end.


(** [a < b] and [a <= b] on exact values; every comparison with a NaN is
    false. *)
Definition xlt (a b : xval) : bool :=
  match a, b with
  | XNan, _ | _, XNan => false
  | _, XNegInf => false
  | XNegInf, _ => true
  | XPosInf, _ => false
  | XFin _, XPosInf => true
  | XFin p, XFin q => bool_decide (p < q)%Qc
  end.

Definition xle (a b : xval) : bool :=
  match a, b with
  | XNan, _ | _, XNan => false
  | XNegInf, _ => true
  | _, XNegInf => false
  | _, XPosInf => true
  | XPosInf, _ => false
  | XFin p, XFin q => bool_decide (p <= q)%Qc
  end.

(** Python's [a < b], [a <= b], [a > b], [a >= b] on numbers. *)
Definition lt (a b : num) : bool := xlt (num_val a) (num_val b).
Definition le (a b : num) : bool := xle (num_val a) (num_val b).
Definition gt (a b : num) : bool := lt b a.

(** [float(z)]: the nearest binary64, ties to even. *)
Definition float_of_Z (z : Z) : float := binary_normalize prec emax z 0 false.

(** A float that is neither an infinity nor a NaN, and a number that
    [float] turns into one. *)
Definition finite (f : float) : bool :=
  match f with
  | S754_zero _ | S754_finite _ _ _ => true
  | _ => false
  end.

Definition finite_num (n : num) : bool :=
  match n with
  | PInt z => finite (float_of_Z z)
  | PFloat f => finite f
  end.

(** ** Values, exceptions and formatted text *)

(** A value as [json.loads] builds it. *)
Inductive val :=
  | VNone
  | VBool (b : bool)
  | VInt (z : Z)
  | VFloat (f : float)
  | VStr (s : string)
  | VList (l : list val)
  | VDict (d : gmap string val).

(** An exception: its class and its text. *)
Inductive exn := Exn (cls msg : string).

Definition TypeError : exn := Exn "TypeError" "unsupported operand type(s)".
Definition OverflowError : exn :=
  Exn "OverflowError" "int too large to convert to float".
Definition KeyError (k : string) : exn := Exn "KeyError" k.
Definition AttributeError : exn :=
  Exn "AttributeError" "object has no attribute 'get'".

(** The result of an expression that may raise. *)
Definition res (A : Type) : Type := A + exn.

Definition raise {A} (e : exn) : res A := inr e.

#[global] Instance res_ret : MRet res := fun A x => inl x.
#[global] Instance res_bind : MBind res := fun A B f m =>
  match m with inl x => f x | inr e => inr e end.

(** A piece of an f-string: literal text, a value with its format
    specification, or the text of an exception. *)
Inductive piece :=
  | Lit (s : string)
  | Fmt (v : val) (spec : string)
  | FmtExn (e : exn).

Definition text := list piece.

(** [isinstance(v, (int, float))], with the number read; [bool] is a
    subclass of [int]. *)
Definition as_num (v : val) : option num :=
  match v with
  | VBool b => Some (PInt (if b then 1 else 0))
  | VInt z => Some (PInt z)
  | VFloat f => Some (PFloat f)
  | _ => None
  end.

(** [t - v] for a float [t]: an [int] operand is converted first, which
    raises when it is too large; anything but a number is a [TypeError]. *)
Definition float_sub_num (t : float) (n : num) : res float :=
  match n with
  | PFloat f => mret (SFsub prec emax t f)
  | PInt z =>
      match float_of_Z z with
      | S754_infinity _ => raise OverflowError
      | f => mret (SFsub prec emax t f)
      end
  end.

Definition float_sub (t : float) (v : val) : res float :=
  match as_num v with
  | Some n => float_sub_num t n
  | None => raise TypeError
  end.

(** [n - f] for a float [f]: an [int] operand is converted first, which
    raises when it is too large. *)
Definition num_sub_float (n : num) (f : float) : res float :=
  match n with
  | PFloat g => mret (SFsub prec emax g f)
  | PInt z =>
      match float_of_Z z with
      | S754_infinity _ => raise OverflowError
      | g => mret (SFsub prec emax g f)
      end
  end.
#[global] Arguments num_sub_float : simpl never.

(** [d[k]] *)
Definition getitem {A} (d : gmap string A) (k : string) : res A :=
  match d !! k with
  | Some v => mret v
  | None => raise (KeyError k)
  end.

(** [k in d] *)
Definition contains {A} (d : gmap string A) (k : string) : bool :=
  match d !! k with Some _ => true | None => false end.

(** ** Whitespace, as [str.strip] and [str.isspace] see it

    The code points U+0009..U+000D, U+001C..U+0020, U+0085, U+00A0, U+1680,
    U+2000..U+200A, U+2028, U+2029, U+202F, U+205F and U+3000, read here in
    their UTF-8 encoding.  [blank s] holds when [s] has nothing but
    whitespace, which is when [len(s.strip()) == 0]. *)
Definition ascii_space (n : N) : bool :=
  ((9 <=? n) && (n <=? 13) || (28 <=? n) && (n <=? 32))%N.

Fixpoint blank_bytes (l : list N) : bool :=
  match l with
  | [] => true
  | a :: l1 =>
      if ascii_space a then blank_bytes l1 else
      match l1 with
      | b :: l2 =>
          if ((a =? 194) && ((b =? 133) || (b =? 160)))%N then blank_bytes l2
          else
          match l2 with
          | c :: l3 =>
              if ((a =? 225) && (b =? 154) && (c =? 128)
                  || (a =? 226) && (b =? 128)
                       && ((128 <=? c) && (c <=? 138) || (c =? 168)
                           || (c =? 169) || (c =? 175))
                  || (a =? 226) && (b =? 129) && (c =? 159)
                  || (a =? 227) && (b =? 128) && (c =? 128))%N
              then blank_bytes l3 else false
          | [] => false
          end
      | [] => false
      end
  end.

Definition blank (s : string) : bool :=
  blank_bytes (map Ascii.N_of_ascii (String.list_ascii_of_string s)).

End Py.

(* ================================================================== *)
(** * validator.py                                                      *)
(* ================================================================== *)

Module validator.
Import Py.

(** [RULES] *)
Definition cpu_min : num := PInt 0.
Definition cpu_max : num := PInt 100.
Definition ram_min : num := PInt 0.
Definition ram_max : num := PInt 100.
Definition max_age_seconds : num := PInt 60.
Definition required_fields : list string :=
  ["source"; "token"; "cpu"; "ram"; "timestamp"].

(** [v != s] for a string [s]: a value of another type differs from it. *)
Definition differs (v : val) (s : string) : bool :=
  match v with
  | VStr t => negb (String.eqb t s)
  | _ => true
  end.

(** [not isinstance(v, str) or len(v.strip()) == 0] *)
Definition unidentified (v : val) : bool :=
  match v with
  | VStr s => blank s
  | _ => true
  end.

(** The rejection reasons. *)
Definition r_vide : text := [Lit "Données vides"].
Definition r_manquant (champ : string) : text :=
  [Lit "Champ obligatoire manquant : "; Fmt (VStr champ) ""].
Definition r_token : text := [Lit "Token d'authentification invalide"].
Definition r_cpu_type : text := [Lit "La valeur CPU doit être un nombre"].
Definition r_cpu_range (cpu : val) : text :=
  [Lit "CPU hors limites : "; Fmt cpu ""; Lit "% (attendu entre 0 et 100)"].
Definition r_ram_type : text := [Lit "La valeur RAM doit être un nombre"].
Definition r_ram_range (ram : val) : text :=
  [Lit "RAM hors limites : "; Fmt ram ""; Lit "% (attendu entre 0 et 100)"].
Definition r_ancienne (age : float) : text :=
  [Lit "Alerte trop ancienne : "; Fmt (VFloat age) ".0f"; Lit " secondes"].
Definition r_futur : text := [Lit "Timestamp invalide : date dans le futur"].
Definition r_source : text := [Lit "Source non identifiée"].
Definition r_ok : text := [Lit "OK"].

(** [valider_alerte(data)].  [SECRET_TOKEN] is the value read from the
    environment when the module is loaded, [now] is what [time.time()]
    returns at step 6.  The result is the pair the function returns, or
    the exception that leaves it. *)
Definition valider_alerte (SECRET_TOKEN : string) (now : float)
    (data : gmap string val) : res (bool * text) :=
  (* step 1: [if not data] *)
  if bool_decide (size data = 0%nat) then mret (false, r_vide) else
  (* step 2: the first required field that is missing *)
  match List.find (fun champ => negb (contains data champ)) required_fields with
  | Some champ => mret (false, r_manquant champ)
  | None =>
  (* step 3 *)
  token ← getitem data "token";
  if differs token SECRET_TOKEN then mret (false, r_token) else
  (* step 4 *)
  cpu ← getitem data "cpu";
  match as_num cpu with
  | None => mret (false, r_cpu_type)
  | Some c =>
  if negb (le cpu_min c && le c cpu_max) then mret (false, r_cpu_range cpu) else
  (* step 5 *)
  ram ← getitem data "ram";
  match as_num ram with
  | None => mret (false, r_ram_type)
  | Some r =>
  if negb (le ram_min r && le r ram_max) then mret (false, r_ram_range ram) else
  (* step 6 *)
  timestamp ← getitem data "timestamp";
  age ← float_sub now timestamp;
  if gt (PFloat age) max_age_seconds then mret (false, r_ancienne age) else
  if lt (PFloat age) (PInt 0) then mret (false, r_futur) else
  (* step 7 *)
  source ← getitem data "source";
  if unidentified source then mret (false, r_source) else
  mret (true, r_ok)
  end end end.

(** [determiner_action(cpu, policies)] *)
Definition determiner_action (cpu : num) (policies : gmap string num) : string :=
  let scale_up_threshold := default (PInt 80) (policies !! "scale_up_threshold") in
  let scale_down_threshold := default (PInt 20) (policies !! "scale_down_threshold") in
  if gt cpu scale_up_threshold then "scale_up"
  else if lt cpu scale_down_threshold then "scale_down"
  else "none".

(** The progression table of [determiner_nouveau_flavor]. *)
Definition progression : gmap string (gmap string string) :=
  {[ "scale_up" :=
       {[ "m1.small" := "m1.medium";
          "m1.medium" := "m1.large";
          "m1.large" := "m1.large" ]};
     "scale_down" :=
       {[ "m1.large" := "m1.medium";
          "m1.medium" := "m1.small";
          "m1.small" := "m1.small" ]} ]}.

(** [determiner_nouveau_flavor(action, flavor_actuel)] *)
Definition determiner_nouveau_flavor (action flavor_actuel : string) : string :=
  match progression !! action with
  | None => flavor_actuel
  | Some table => default flavor_actuel (table !! flavor_actuel)
  end.

End validator.

(* ================================================================== *)
(** * The world around the program                                      *)
(* ================================================================== *)

Module Runtime.
Import Py.

(** The calls the program makes on the Nova client. *)
Inductive nova_call :=
  | ServersList (name : string)         (* servers.list(search_opts={"name": name}) *)
  | FlavorsList                         (* flavors.list() *)
  | ServersGet (id : string)            (* servers.get(id) *)
  | ServerResize (id flavor : string)   (* serveur.resize(flavor_obj) *)
  | ServerRefresh (id : string)         (* serveur.get(); serveur.status *)
  | ServerConfirmResize (id : string).  (* serveur.confirm_resize() *)

(** What the program does to the outside, newest first in a history. *)
Inductive event :=
  | EvTime                              (* time.time() *)
  | EvStrftime (fmt : string)           (* time.strftime(fmt) *)
  | EvSleep (seconds : Z)               (* time.sleep(seconds) *)
  | EvNova (c : nova_call)
  | EvEmit (name : string).             (* socketio.emit(name, ...) *)

Definition history := list event.

#[global] Instance nova_call_eq_dec : EqDecision nova_call.
Proof. solve_decision. Defined.
#[global] Instance event_eq_dec : EqDecision event.
Proof. solve_decision. Defined.

(** A Nova client: what each call answers after a given history.  A server
    and a flavor object are known by their identifier and their name. *)
Record nova := mk_nova {
  servers_list : history -> string -> res (list string);
  flavors_list : history -> res (list string);
  servers_get : history -> string -> res string;
  server_resize : history -> string -> string -> res unit;
  server_refresh : history -> string -> res string;
  server_confirm_resize : history -> string -> res unit }.

(** The clock of the machine. *)
Record clock := mk_clock {
  time_at : history -> float;
  strftime_at : history -> string -> string }.

(** How a call ends: with a value, with an exception, or not within the
    number of loop iterations granted to it. *)
Inductive outcome (A : Type) :=
  | Val (a : A)
  | Raised (e : exn)
  | Unfinished.
Arguments Val {A} a.
Arguments Raised {A} e.
Arguments Unfinished {A}.

(** A computation over a state [S]: the state is handed on whatever the
    outcome, since an exception does not undo what was written. *)
Definition M (S A : Type) : Type := S -> S * outcome A.

#[global] Instance M_ret {S} : MRet (M S) := fun A a s => (s, Val a).
#[global] Instance M_bind {S} : MBind (M S) := fun A B f m s =>
  match m s with
  | (s', Val a) => f a s'
  | (s', Raised e) => (s', Raised e)
  | (s', Unfinished) => (s', Unfinished)
  end.

Definition throw {S A} (e : exn) : M S A := fun s => (s, Raised e).
Definition unfinished {S A} : M S A := fun s => (s, Unfinished).
Definition get {S} : M S S := fun s => (s, Val s).
Definition modify {S} (f : S -> S) : M S unit := fun s => (f s, Val tt).

(** An expression that may raise, inside a computation. *)
Definition of_res {S A} (r : res A) : M S A :=
  match r with inl a => mret a | inr e => throw e end.

(** [try: body except Exception as e: handler(e)] *)
Definition try_except {S A} (body : M S A) (handler : exn -> M S A) : M S A :=
  fun s =>
    match body s with
    | (s', Raised e) => handler e s'
    | r => r
    end.

End Runtime.

(* ================================================================== *)
(** * heat_client.py                                                    *)
(* ================================================================== *)

Module heat_client.
Import Py Runtime.

(** [_state] *)
Record state := mk_state {
  last_scaling_time : num;
  current_flavor : string;
  vm_id : option string;
  stack_name : string;
  connected : bool }.

(** The globals of the module and the history of its calls to the outside. *)
Record world := mk_world {
  _state : state;
  _nova_client : option nova;
  trace : history }.

Definition set_state (f : state -> state) : M world unit :=
  modify (fun w => mk_world (f (_state w)) (_nova_client w) (trace w)).
Definition set_vm_id (v : option string) : M world unit :=
  set_state (fun s => mk_state (last_scaling_time s) (current_flavor s) v
                               (stack_name s) (connected s)).
Definition set_current_flavor (f : string) : M world unit :=
  set_state (fun s => mk_state (last_scaling_time s) f (vm_id s)
                               (stack_name s) (connected s)).
Definition set_last_scaling_time (t : num) : M world unit :=
  set_state (fun s => mk_state t (current_flavor s) (vm_id s)
                               (stack_name s) (connected s)).

Definition record (e : event) (w : world) : world :=
  mk_world (_state w) (_nova_client w) (e :: trace w).

(** The dict [effectuer_resize] returns. *)
Record resultat := mk_resultat {
  success : bool;
  message : text;
  ancien_flavor : string;
  nouveau_flavor : string;
  action : string }.

Section Program.

(** [COOLDOWN_SECONDS], read from the environment when the module loads. *)
Variable COOLDOWN_SECONDS : Z.
Variable clk : clock.

(** [time.time()] *)
Definition time_time : M world float :=
  fun w => (record EvTime w, Val (time_at clk (trace w))).

(** [time.sleep(seconds)] *)
Definition time_sleep (seconds : Z) : M world unit :=
  fun w => (record (EvSleep seconds) w, Val tt).

(** A call on [_nova_client]; on [None] the attribute access raises. *)
Definition call {A} (c : nova_call) (answer : nova -> history -> res A)
    : M world A :=
  fun w =>
    match _nova_client w with
    | None => (w, Raised (Exn "AttributeError" "'NoneType' object has no attribute"))
    | Some n => of_res (answer n (trace w)) (record (EvNova c) w)
    end.

(** [not _state["connected"] or _nova_client is None] *)
Definition hors_ligne (w : world) : bool :=
  negb (connected (_state w)) || negb (bool_decide (is_Some (_nova_client w))).

(** [recuperer_vm_id(vm_name)] *)
Definition recuperer_vm_id (vm_name : string) : M world (option string) :=
  w ← get;
  if hors_ligne w then mret (Some "mock-vm-id-12345") else
  try_except
    (serveurs ← call (ServersList vm_name) (fun n h => servers_list n h vm_name);
     match serveurs with
     | vm_id :: _ => set_vm_id (Some vm_id);; mret (Some vm_id)
     | [] => mret None
     end)
    (fun e => mret None).

(** [cooldown_respecte()]; [attente] is computed for the logger. *)
Definition cooldown_respecte : M world bool :=
  t ← time_time;
  w ← get;
  temps_ecoule ← of_res (float_sub_num t (last_scaling_time (_state w)));
  if lt (PFloat temps_ecoule) (PInt COOLDOWN_SECONDS) then
    attente ← of_res (num_sub_float (PInt COOLDOWN_SECONDS) temps_ecoule);
    mret false
  else mret true.

(** [_attendre_statut(serveur, statut_cible, timeout)]: the [while] loop,
    run for at most [fuel] iterations. *)
Fixpoint attendre_boucle (fuel : nat) (serveur statut_cible : string)
    (timeout : Z) (debut : float) : M world bool :=
  match fuel with
  | O => unfinished
  | S fuel' =>
      t ← time_time;
      if lt (PFloat (SFsub prec emax t debut)) (PInt timeout) then
        statut ← call (ServerRefresh serveur) (fun n h => server_refresh n h serveur);
        if String.eqb statut statut_cible then mret true
        else if String.eqb statut "ERROR" then mret false
        else time_sleep 5;; attendre_boucle fuel' serveur statut_cible timeout debut
      else mret false
  end.

Definition _attendre_statut (fuel : nat) (serveur statut_cible : string)
    (timeout : Z) : M world bool :=
  debut ← time_time;
  attendre_boucle fuel serveur statut_cible timeout debut.

(** [_simuler_resize(vm_name, ancien_flavor, nouveau_flavor)] *)
Definition _simuler_resize (vm_name ancien nouveau : string) : M world resultat :=
  time_sleep 1;;
  set_current_flavor nouveau;;
  t ← time_time;
  set_last_scaling_time (PFloat t);;
  mret (mk_resultat true
          [Lit "[SIMULATION] Resize réussi : "; Fmt (VStr vm_name) ""; Lit " ";
           Fmt (VStr ancien) ""; Lit " → "; Fmt (VStr nouveau) ""]
          ancien nouveau "simulated").

(** [_resize_openstack(vm_name, ancien_flavor, nouveau_flavor)] *)
Definition _resize_openstack (fuel : nat) (vm_name ancien nouveau : string)
    : M world resultat :=
  try_except
    (w ← get;
     (if bool_decide (vm_id (_state w) = None)
      then v ← recuperer_vm_id vm_name; set_vm_id v
      else mret tt);;
     w ← get;
     match vm_id (_state w) with
     | None =>
         mret (mk_resultat false
                 [Lit "VM introuvable : "; Fmt (VStr vm_name) ""]
                 ancien nouveau "error")
     | Some id =>
         flavors ← call FlavorsList flavors_list;
         match List.find (fun f => String.eqb f nouveau) flavors with
         | None =>
             mret (mk_resultat false
                     [Lit "Flavor introuvable : "; Fmt (VStr nouveau) ""]
                     ancien nouveau "error")
         | Some flavor_obj =>
             serveur ← call (ServersGet id) (fun n h => servers_get n h id);
             call (ServerResize serveur flavor_obj)
                  (fun n h => server_resize n h serveur flavor_obj);;
             _attendre_statut fuel serveur "VERIFY_RESIZE" 120;;
             call (ServerConfirmResize serveur)
                  (fun n h => server_confirm_resize n h serveur);;
             set_current_flavor nouveau;;
             t ← time_time;
             set_last_scaling_time (PFloat t);;
             mret (mk_resultat true
                     [Lit "Resize réussi : "; Fmt (VStr vm_name) ""; Lit " ";
                      Fmt (VStr ancien) ""; Lit " → "; Fmt (VStr nouveau) ""]
                     ancien nouveau "resized")
         end
     end)
    (fun e =>
       mret (mk_resultat false [Lit "Erreur lors du resize : "; FmtExn e]
               ancien nouveau "error")).

(** [effectuer_resize(vm_name, nouveau_flavor)] *)
Definition effectuer_resize (fuel : nat) (vm_name nouveau : string)
    : M world resultat :=
  w ← get;
  let ancien := current_flavor (_state w) in
  if String.eqb nouveau ancien then
    mret (mk_resultat true
            [Lit "Déjà sur le flavor "; Fmt (VStr ancien) "";
             Lit " — aucun resize nécessaire"]
            ancien nouveau "none")
  else
  ok ← cooldown_respecte;
  if negb ok then
    mret (mk_resultat false
            [Lit "Cooldown actif — resize reporté ("; Fmt (VStr ancien) "";
             Lit " → "; Fmt (VStr nouveau) ""; Lit ")"]
            ancien nouveau "cooldown")
  else
  w ← get;
  if hors_ligne w then _simuler_resize vm_name ancien nouveau
  else _resize_openstack fuel vm_name ancien nouveau.

End Program.

End heat_client.

(* ================================================================== *)
(** * adapter.py                                                        *)
(* ================================================================== *)

Module adapter.
Import Py Runtime.

(** [state["vm"]] *)
Record vm := mk_vm {
  name : string;
  status : string;
  private_ip : string;
  public_ip : string;
  current_flavor : string;
  cpu : val;
  ram : val;
  last_update : option string }.

(** [state["stats"]] *)
Record stats := mk_stats {
  alertes_recues : Z;
  alertes_valides : Z;
  alertes_rejetees : Z;
  scalings_up : Z;
  scalings_down : Z }.

(** An entry of [state["logs"]] *)
Record log := mk_log {
  time : string;
  type : string;
  message : text }.

(** [state]; the tables of flavors and templates, which the functions
    below never read, are left out. *)
Record state := mk_state {
  state_vm : vm;
  policies : gmap string num;
  logs : list log;
  state_stats : stats }.

(** The globals of [adapter] and of [heat_client], which it imports. *)
Record app := mk_app {
  heat : heat_client.world;
  st : state }.

Definition set_vm (f : vm -> vm) : M app unit :=
  modify (fun a => mk_app (heat a)
    (mk_state (f (state_vm (st a))) (policies (st a)) (logs (st a))
              (state_stats (st a)))).
Definition set_logs (f : list log -> list log) : M app unit :=
  modify (fun a => mk_app (heat a)
    (mk_state (state_vm (st a)) (policies (st a)) (f (logs (st a)))
              (state_stats (st a)))).
Definition set_stats (f : stats -> stats) : M app unit :=
  modify (fun a => mk_app (heat a)
    (mk_state (state_vm (st a)) (policies (st a)) (logs (st a))
              (f (state_stats (st a))))).

(** A computation of [heat_client], run on its part of the globals. *)
Definition lift {A} (m : M heat_client.world A) : M app A :=
  fun a => let (h, o) := m (heat a) in (mk_app h (st a), o).

(** What [recevoir_alerte] answers: the body of the JSON reply, with
    status 400 for a rejection and 200 otherwise. *)
Inductive reponse :=
  | Rejet (reason : text)
  | Accepte (action flavor : string).

Section Program.

Variable SECRET_TOKEN : string.
Variable COOLDOWN_SECONDS : Z.
Variable VM_NAME : string.
Variable clk : clock.

(** [time.strftime(fmt)] *)
Definition time_strftime (fmt : string) : M app string :=
  fun a =>
    let h := heat a in
    (mk_app (heat_client.record (EvStrftime fmt) h) (st a),
     Val (strftime_at clk (heat_client.trace h) fmt)).

(** [ajouter_log(message, type_log)]; [with state_lock] has no effect on
    a single thread of control. *)
Definition ajouter_log (message : text) (type_log : string) : M app unit :=
  t ← time_strftime "%H:%M";
  set_logs (fun l => mk_log t type_log message :: l);;
  a ← get;
  if bool_decide (50 < length (logs (st a)))%nat
  then set_logs (take 50)
  else mret tt.

(** [emettre_metriques()]: [round(state["vm"]["cpu"], 1)] and the same
    for the RAM need numbers. *)
Definition emettre_metriques : M app unit :=
  a ← get;
  match as_num (cpu (state_vm (st a))), as_num (ram (state_vm (st a))) with
  | Some _, Some _ =>
      lift (fun h => (heat_client.record (EvEmit "metrics_update") h, Val tt))
  | _, _ => throw TypeError
  end.

(** ["Up" if action == "scale_up" else "Down"] and the like *)
Definition si_up {A} (action : string) (x y : A) : A :=
  if String.eqb action "scale_up" then x else y.

(** [valider_alerte(data)] as the program runs it: the same statements as
    [validator.valider_alerte], with [time.time()] called where step 6
    calls it, once the first five checks have passed. *)
Definition valider_alerte (data : gmap string val) : M app (bool * text) :=
  (* step 1 *)
  if bool_decide (size data = 0%nat) then mret (false, validator.r_vide) else
  (* step 2 *)
  match List.find (fun champ => negb (contains data champ))
                  validator.required_fields with
  | Some champ => mret (false, validator.r_manquant champ)
  | None =>
  (* step 3 *)
  token ← of_res (getitem data "token");
  if validator.differs token SECRET_TOKEN then mret (false, validator.r_token) else
  (* step 4 *)
  cpu ← of_res (getitem data "cpu");
  match as_num cpu with
  | None => mret (false, validator.r_cpu_type)
  | Some c =>
  if negb (le validator.cpu_min c && le c validator.cpu_max)
  then mret (false, validator.r_cpu_range cpu) else
  (* step 5 *)
  ram ← of_res (getitem data "ram");
  match as_num ram with
  | None => mret (false, validator.r_ram_type)
  | Some r =>
  if negb (le validator.ram_min r && le r validator.ram_max)
  then mret (false, validator.r_ram_range ram) else
  (* step 6 *)
  timestamp ← of_res (getitem data "timestamp");
  now ← lift (heat_client.time_time clk);
  age ← of_res (float_sub now timestamp);
  if gt (PFloat age) validator.max_age_seconds
  then mret (false, validator.r_ancienne age) else
  if lt (PFloat age) (PInt 0) then mret (false, validator.r_futur) else
  (* step 7 *)
  source ← of_res (getitem data "source");
  if validator.unidentified source then mret (false, validator.r_source) else
  mret (true, validator.r_ok)
  end end end.

(** [recevoir_alerte()], on the JSON value [data] of the request.  With
    the reply comes the local [resultat], [None] when step 4 did not run. *)
Definition recevoir_alerte (fuel : nat) (data : val)
    : M app (reponse * option heat_client.resultat) :=
  set_stats (fun s => mk_stats (alertes_recues s + 1) (alertes_valides s)
                        (alertes_rejetees s) (scalings_up s) (scalings_down s));;
  (* [data.get('source', 'inconnu')] *)
  match data with
  | VDict d =>
  (* step 1 *)
  v ← valider_alerte d;
  let '(valide, raison) := v in
  if negb valide then
    set_stats (fun s => mk_stats (alertes_recues s) (alertes_valides s)
                          (alertes_rejetees s + 1) (scalings_up s) (scalings_down s));;
    ajouter_log (Lit "Alerte rejetée : " :: raison) "warning";;
    mret (Rejet raison, None)
  else
  set_stats (fun s => mk_stats (alertes_recues s) (alertes_valides s + 1)
                        (alertes_rejetees s) (scalings_up s) (scalings_down s));;
  (* step 2 *)
  data_cpu ← of_res (getitem d "cpu");
  data_ram ← of_res (getitem d "ram");
  t ← time_strftime "%H:%M:%S";
  set_vm (fun v => mk_vm (name v) (status v) (private_ip v) (public_ip v)
                     (current_flavor v) data_cpu data_ram (Some t));;
  (* step 3 *)
  c ← of_res (match as_num data_cpu with Some c => mret c | None => raise TypeError end);
  a ← get;
  let action := validator.determiner_action c (policies (st a)) in
  resultat ←
    (if negb (String.eqb action "none") then
       let flavor_actuel := current_flavor (state_vm (st a)) in
       let nouveau_flavor := validator.determiner_nouveau_flavor action flavor_actuel in
       (* step 4 *)
       resultat ← lift (heat_client.effectuer_resize COOLDOWN_SECONDS clk fuel
                          VM_NAME nouveau_flavor);
       (if heat_client.success resultat
           && negb (bool_decide (heat_client.action resultat ∈ ["none"; "cooldown"]))
        then
          set_vm (fun v => mk_vm (name v) (status v) (private_ip v) (public_ip v)
                             nouveau_flavor (cpu v) (ram v) (last_update v));;
          set_stats (fun s =>
            si_up action
              (mk_stats (alertes_recues s) (alertes_valides s) (alertes_rejetees s)
                        (scalings_up s + 1) (scalings_down s))
              (mk_stats (alertes_recues s) (alertes_valides s) (alertes_rejetees s)
                        (scalings_up s) (scalings_down s + 1)));;
          ajouter_log
            [Lit "Scale "; Lit (si_up action "Up" "Down"); Lit " : ";
             Fmt (VStr flavor_actuel) ""; Lit " → "; Fmt (VStr nouveau_flavor) "";
             Lit " (CPU: "; Fmt data_cpu ".0f"; Lit "%)"]
            (si_up action "success" "warning")
        else if String.eqb (heat_client.action resultat) "cooldown" then
          ajouter_log [Lit "Cooldown actif — scaling reporté"] "info"
        else
          ajouter_log (Lit "Erreur scaling : " :: heat_client.message resultat) "error");;
       mret (Some resultat)
     else
       ajouter_log
         [Lit "Métriques reçues — CPU: "; Fmt data_cpu ".0f"; Lit "% | RAM: ";
          Fmt data_ram ".0f"; Lit "% | Aucune action"]
         "info";;
       mret None);
  (* step 5 *)
  emettre_metriques;;
  a ← get;
  mret (Accepte action (current_flavor (state_vm (st a))), resultat)
  | _ => throw AttributeError
  end.

End Program.

End adapter.

(* ================================================================== *)
(** * The specification's vocabulary                                    *)
(* ================================================================== *)

Module Spec.
Import Py validator.

(** The thresholds [determiner_action] reads from a policy. *)
Definition scale_up_threshold (policies : gmap string num) : num :=
  default (PInt 80) (policies !! "scale_up_threshold").
Definition scale_down_threshold (policies : gmap string num) : num :=
  default (PInt 20) (policies !! "scale_down_threshold").

(** The invariant of a policy: [0 < scale_down < scale_up < 100], the
    condition under which the dashboard accepts new thresholds. *)
Definition policy_invariant (policies : gmap string num) : Prop :=
  lt (PInt 0) (scale_down_threshold policies) = true
  ∧ lt (scale_down_threshold policies) (scale_up_threshold policies) = true
  ∧ lt (scale_up_threshold policies) (PInt 100) = true.

(** The ordered catalog of tiers. *)
Definition catalog : list string := ["m1.small"; "m1.medium"; "m1.large"].

(** What one validation check says of an alert. *)
Inductive verdict :=
  | Pass
  | Reject (reason : text)
  | Crash (e : exn).

Definition field (data : gmap string val) (k : string) (f : val -> verdict)
    : verdict :=
  match data !! k with
  | Some v => f v
  | None => Crash (KeyError k)
  end.

Section Checks.

Variable SECRET_TOKEN : string.
Variable now : float.
Variable data : gmap string val.

(** 1. the payload is present and non-empty *)
Definition check_payload : verdict :=
  if bool_decide (size data = 0%nat) then Reject r_vide else Pass.

(** 2. every required field is present *)
Definition check_fields : verdict :=
  match List.find (fun champ => negb (contains data champ)) required_fields with
  | Some champ => Reject (r_manquant champ)
  | None => Pass
  end.

(** 3. the token is the shared secret *)
Definition check_token : verdict :=
  field data "token" (fun token =>
    if differs token SECRET_TOKEN then Reject r_token else Pass).

(** 4. the CPU load is a number of [0, 100] *)
Definition check_cpu : verdict :=
  field data "cpu" (fun cpu =>
    match as_num cpu with
    | None => Reject r_cpu_type
    | Some c => if le cpu_min c && le c cpu_max then Pass
                else Reject (r_cpu_range cpu)
    end).

(** 5. the RAM load is a number of [0, 100] *)
Definition check_ram : verdict :=
  field data "ram" (fun ram =>
    match as_num ram with
    | None => Reject r_ram_type
    | Some r => if le ram_min r && le r ram_max then Pass
                else Reject (r_ram_range ram)
    end).

(** 6. the alert is neither too old nor from the future *)
Definition check_freshness : verdict :=
  field data "timestamp" (fun timestamp =>
    match float_sub now timestamp with
    | inr e => Crash e
    | inl age =>
        if gt (PFloat age) max_age_seconds then Reject (r_ancienne age)
        else if lt (PFloat age) (PInt 0) then Reject r_futur
        else Pass
    end).

(** 7. the source is a non-blank string *)
Definition check_source : verdict :=
  field data "source" (fun source =>
    if unidentified source then Reject r_source else Pass).

(** The checks in the order of the specification. *)
Definition checks : list verdict :=
  [check_payload; check_fields; check_token; check_cpu; check_ram;
   check_freshness; check_source].

End Checks.

(** The first check that does not pass decides; when all pass the alert
    is accepted. *)
Fixpoint first_failure (vs : list verdict) : res (bool * text) :=
  match vs with
  | [] => mret (true, r_ok)
  | Pass :: vs' => first_failure vs'
  | Reject reason :: _ => mret (false, reason)
  | Crash e :: _ => raise e
  end.

(** ** Resize outcomes *)

(** The five ways a resize ends. *)
Definition issue (r : heat_client.resultat) : Prop :=
  (heat_client.action r = "none" ∧ heat_client.success r = true)
  ∨ (heat_client.action r = "cooldown" ∧ heat_client.success r = false)
  ∨ (heat_client.action r = "simulated" ∧ heat_client.success r = true)
  ∨ (heat_client.action r = "resized" ∧ heat_client.success r = true)
  ∨ (heat_client.action r = "error" ∧ heat_client.success r = false).

(** A resize that took place. *)
Definition committed (r : heat_client.resultat) : Prop :=
  heat_client.action r = "resized" ∨ heat_client.action r = "simulated".

(** The tier and the cooldown timestamp kept by [heat_client]. *)
Definition tier (w : heat_client.world) : string * num :=
  (heat_client.current_flavor (heat_client._state w),
   heat_client.last_scaling_time (heat_client._state w)).

(** After a call of [effectuer_resize] from a tier [x]: the tier is still
    [x], unless the call returned a committed resize. *)
Definition only_committed (x : string * num) (w' : heat_client.world)
    (o : Runtime.outcome heat_client.resultat) : Prop :=
  tier w' = x ∨ ∃ r, o = Runtime.Val r ∧ committed r.

(** The part of the globals the invariant of the tier speaks of:
    [state["vm"]], and the tier and cooldown timestamp of [heat_client]. *)
Definition vue (a : adapter.app) : adapter.vm * (string * num) :=
  (adapter.state_vm (adapter.st a), tier (adapter.heat a)).

(** [state["vm"]] holds numbers for the loads. *)
Definition numeric (v : adapter.vm) : Prop :=
  is_Some (as_num (adapter.cpu v)) ∧ is_Some (as_num (adapter.ram v)).

Definition untouched (x : string) (y : string * num) (a : adapter.app) : Prop :=
  adapter.current_flavor (adapter.state_vm (adapter.st a)) = x
  ∧ tier (adapter.heat a) = y.

(** After a call of [recevoir_alerte]: the flavor is still [x] and the
    tier of [heat_client] still [y], unless the alert was accepted, a
    scaling was decided and the resize committed. *)
Definition only_by_resize (x : string) (y : string * num) (a' : adapter.app)
    (o : Runtime.outcome (adapter.reponse * option heat_client.resultat))
    : Prop :=
  untouched x y a'
  ∨ ∃ action flavor r,
      o = Runtime.Val (adapter.Accepte action flavor, Some r)
      ∧ action ≠ "none" ∧ committed r.

End Spec.

(* ================================================================== *)
(** * Assertions on computations                                        *)
(* ================================================================== *)

Module Logic.
Import Runtime.

(** [hoare P m Q]: from a state of [P], [m] ends in a state and with an
    outcome related by [Q], whatever the outcome is. *)
Definition hoare {S A} (P : S → Prop) (m : M S A) (Q : S → outcome A → Prop)
    : Prop :=
  ∀ s, P s → Q (m s).1 (m s).2.

(** What [Q] asks of the first half of a sequence: a value goes on to
    the second half, anything else ends the sequence. *)
Definition passes {S A B} (R : A → S → Prop) (Q : S → outcome B → Prop)
    : S → outcome A → Prop :=
  fun s o =>
    match o with
    | Val a => R a s
    | Raised e => Q s (Raised e)
    | Unfinished => Q s Unfinished
    end.

(** A computation that leaves a view [π] of the state as it is. *)
Definition keeps {S A X} (π : S → X) (m : M S A) : Prop :=
  ∀ s, π (m s).1 = π s.

(** A computation that always returns and leaves the view [π] as it is. *)
Definition steady {S A X} (π : S → X) (m : M S A) : Prop :=
  ∀ s, ∃ s' a, m s = (s', Val a) ∧ π s' = π s.

(** A computation whose values all satisfy [V]. *)
Definition returns {S A} (m : M S A) (V : A → Prop) : Prop :=
  ∀ s s' a, m s = (s', Val a) → V a.

(** [m'] does what [m] does, whenever [m] comes to an end. *)
Definition extends {S A} (m m' : M S A) : Prop :=
  ∀ s, (m s).2 ≠ Unfinished → m' s = m s.

End Logic.

(* ================================================================== *)
(** * Concrete situations                                               *)
(* ================================================================== *)

Module Scenario.
Import Py Runtime.

(** The default shared secret. *)
Definition SECRET_TOKEN : string := "heat-secret-token".

(** A well-formed alert, but for its timestamp, which is a string. *)
Definition alerte_timestamp_texte : gmap string val :=
  {[ "source" := VStr "heat-vm-01";
     "token" := VStr SECRET_TOKEN;
     "cpu" := VInt 50;
     "ram" := VInt 50;
     "timestamp" := VStr "1700000000" ]}.

(** An alert with a wrong token and a CPU load out of range. *)
Definition alerte_mauvais_token : gmap string val :=
  {[ "source" := VStr "heat-vm-01";
     "token" := VStr "guess";
     "cpu" := VInt 250;
     "ram" := VInt 50;
     "timestamp" := VInt 1700000000 ]}.

(** An alert with a CPU load of [cpu], observed at [1700000000]. *)
Definition alerte (cpu : Z) : val :=
  VDict {[ "source" := VStr "heat-vm-01";
           "token" := VStr SECRET_TOKEN;
           "cpu" := VInt cpu;
           "ram" := VInt 40;
           "timestamp" := VInt 1700000000 ]}.

(** The default policy. *)
Definition policies : gmap string num :=
  {[ "scale_up_threshold" := PInt 80; "scale_down_threshold" := PInt 20 ]}.

(** A policy whose thresholds are out of order, as the environment can
    set them. *)
Definition policies_inversees : gmap string num :=
  {[ "scale_up_threshold" := PInt 20; "scale_down_threshold" := PInt 80 ]}.


(** A clock that starts at [1700000000] and moves only while the program
    sleeps. *)
Fixpoint slept (h : history) : Z :=
  match h with
  | [] => 0
  | EvSleep seconds :: h' => seconds + slept h'
  | _ :: h' => slept h'
  end.

Definition horloge : clock :=
  mk_clock (fun h => float_of_Z (1700000000 + slept h)) (fun _ _ => "12:00").

(** A Nova service with one server, whose status reads [statut] at every
    poll, and which accepts every request. *)
Definition nova_fige (statut : string) : nova :=
  mk_nova (fun _ _ => inl ["vm-1"])
          (fun _ => inl ["m1.small"; "m1.medium"; "m1.large"])
          (fun _ id => inl id)
          (fun _ _ _ => inl tt)
          (fun _ _ => inl statut)
          (fun _ _ => inl tt).

(** [heat_client] connected to that service, on [m1.small], never scaled. *)
Definition monde (statut : string) : heat_client.world :=
  heat_client.mk_world
    (heat_client.mk_state (PInt 0) "m1.small" None "heat-main-stack" true)
    (Some (nova_fige statut)) [].

(** [heat_client] in simulation, on [m1.small], scaled [depuis] seconds
    before the clock starts. *)
Definition monde_simule (depuis : Z) : heat_client.world :=
  heat_client.mk_world
    (heat_client.mk_state (PFloat (float_of_Z (1700000000 - depuis)))
                          "m1.small" None "heat-main-stack" false)
    None [].

(** The adapter as it starts, over a given [heat_client]. *)
Definition application (h : heat_client.world) : adapter.app :=
  adapter.mk_app h
    (adapter.mk_state
       (adapter.mk_vm "heat-vm-01" "ACTIVE" "192.168.1.10" "10.0.0.100"
                      "m1.small" (VFloat (S754_zero false))
                      (VFloat (S754_zero false)) None)
       policies [] (adapter.mk_stats 0 0 0 0 0)).

(** The adapter over a [heat_client] in simulation, last scaled an hour
    before. *)
Definition depart : adapter.app := application (monde_simule 3600).

(** The time at which the clock starts. *)
Definition debut : float := float_of_Z 1700000000.

(** What the live path does when the status never becomes
    [VERIFY_RESIZE] and Nova accepts the confirmation nonetheless. *)
Definition resized_despite (statut : string) : Prop :=
  let run := heat_client.effectuer_resize 120 horloge 30 "heat-vm-01"
               "m1.medium" (monde statut) in
  run.2 = Val (heat_client.mk_resultat true
                 [Lit "Resize réussi : "; Fmt (VStr "heat-vm-01") ""; Lit " ";
                  Fmt (VStr "m1.small") ""; Lit " → "; Fmt (VStr "m1.medium") ""]
                 "m1.small" "m1.medium" "resized")
  ∧ heat_client.current_flavor (heat_client._state run.1) = "m1.medium"
  ∧ heat_client.last_scaling_time (heat_client._state run.1) ≠ PInt 0
  ∧ EvNova (ServerRefresh "vm-1") ∈ heat_client.trace run.1
  ∧ EvNova (ServerConfirmResize "vm-1") ∈ heat_client.trace run.1.

End Scenario.

(* ================================================================== *)
(** * heat_client.py: connection and information                        *)
(* ================================================================== *)

Module heat_client_info.
Import Py Runtime heat_client.

(** A Heat client: what [stacks.get(name)] answers after a given history,
    the name and the status of the stack. *)
Record heat := mk_heat {
  stacks_get : history -> string -> res (string * string) }.

(** How an attempt to reach OpenStack goes, statement after statement of
    the [try] block of [connecter]: the imports fail; an exception is
    raised before the Heat client is built, or once it is built and before
    the Nova client is; or both clients are built. *)
Inductive tentative :=
  | ImportError
  | ExceptionAvantHeat (e : exn)
  | ExceptionApresHeat (h : heat) (e : exn)
  | Clients (h : heat) (n : nova).

Definition set_connected (b : bool) (w : world) : world :=
  mk_world (mk_state (last_scaling_time (_state w)) (current_flavor (_state w))
                     (vm_id (_state w)) (stack_name (_state w)) b)
           (_nova_client w) (trace w).

(** [connecter()], on the globals [_state], [_nova_client] and
    [_heat_client]; the answer is the boolean it returns.  The assignments
    made before an exception stay. *)
Definition connecter (t : tentative) (w : world) (_heat_client : option heat)
    : world * option heat * bool :=
  match t with
  | Clients h n =>
      (set_connected true (mk_world (_state w) (Some n) (trace w)), Some h, true)
  | ImportError => (set_connected false w, _heat_client, false)
  | ExceptionAvantHeat e => (set_connected false w, _heat_client, false)
  | ExceptionApresHeat h e => (set_connected false w, Some h, false)
  end.

(** The dict [get_statut_stack] returns; [message] is absent from a
    successful answer. *)
Record statut := mk_statut {
  name : string;
  status : string;
  flavor : string;
  message : option text }.

(** [get_statut_stack()].  It writes nothing; its call to Heat is not
    entered in the history. *)
Definition get_statut_stack (w : world) (_heat_client : option heat) : statut :=
  match negb (connected (_state w)), _heat_client with
  | false, Some h =>
      match stacks_get h (trace w) (stack_name (_state w)) with
      | inl (stack_name, stack_status) =>
          mk_statut stack_name stack_status (current_flavor (_state w)) None
      | inr e =>
          mk_statut (stack_name (_state w)) "ERROR" (current_flavor (_state w))
                    (Some [FmtExn e])
      end
  | _, _ =>
      mk_statut (stack_name (_state w)) "SIMULATED" (current_flavor (_state w))
                (Some [Lit "OpenStack non disponible - mode simulation"])
  end.

(** [get_flavor_actuel()] *)
Definition get_flavor_actuel (w : world) : string := current_flavor (_state w).

(** [get_etat_connexion()] *)
Definition get_etat_connexion (w : world) : bool := connected (_state w).

End heat_client_info.

(* ================================================================== *)
(** * More vocabulary, for the properties beyond the claims             *)
(* ================================================================== *)

Module Notions.
Import Py Runtime.

(** ** Alerts *)

(** A number [float] can take: a float, or an int that is not too large. *)
Definition convertible (n : num) : bool :=
  match n with
  | PFloat _ => true
  | PInt z => match float_of_Z z with S754_infinity _ => false | _ => true end
  end.

(** The alert passes the first three checks of [valider_alerte]: every
    required field is there and the token is the secret. *)
Definition authentic (tok : string) (data : gmap string val) : Prop :=
  (∀ champ, champ ∈ validator.required_fields → contains data champ = true)
  ∧ data !! "token" = Some (VStr tok).

(** A load a check accepts: a number of [0, 100]. *)
Definition in_range (v : val) : bool :=
  match as_num v with
  | Some n => le (PInt 0) n && le n (PInt 100)
  | None => false
  end.

(** The alert passes the first five checks of [valider_alerte]: every
    required field is there, the token is the secret, and both loads are
    numbers of [0, 100]. *)
Definition metrics_ok (tok : string) (data : gmap string val) : Prop :=
  (∀ champ, champ ∈ validator.required_fields → contains data champ = true)
  ∧ data !! "token" = Some (VStr tok)
  ∧ (∃ cpu c, data !! "cpu" = Some cpu ∧ as_num cpu = Some c
              ∧ le (PInt 0) c = true ∧ le c (PInt 100) = true)
  ∧ (∃ ram r, data !! "ram" = Some ram ∧ as_num ram = Some r
              ∧ le (PInt 0) r = true ∧ le r (PInt 100) = true).

(** The alert is fresh at [now]: its age is neither above 60 seconds nor
    below zero. *)
Definition fresh (now : float) (data : gmap string val) : Prop :=
  ∃ timestamp age,
    data !! "timestamp" = Some timestamp
    ∧ float_sub now timestamp = inl age
    ∧ gt (PFloat age) (PInt 60) = false
    ∧ lt (PFloat age) (PInt 0) = false.

(** The alert names its source. *)
Definition identified (data : gmap string val) : Prop :=
  ∃ source, data !! "source" = Some (VStr source) ∧ blank source = false.

(** ** Histories *)

(** The number of times the program slept. *)
Fixpoint sleeps (h : history) : nat :=
  match h with
  | [] => 0
  | EvSleep _ :: h' => S (sleeps h')
  | _ :: h' => sleeps h'
  end.

(** The clock is past the deadline of a wait started at [debut], from the
    [n]-th sleep after the history [h0] on. *)
Definition deadline_after (clk : clock) (debut : float) (timeout : Z)
    (h0 : history) (n : nat) : Prop :=
  ∀ h, (sleeps h0 + n ≤ sleeps h)%nat →
       lt (PFloat (SFsub prec emax (time_at clk h) debut)) (PInt timeout) = false.

(** ** Resizes *)

(** A computation that lets no exception out. *)
Definition quiet {S A} (m : M S A) : Prop := ∀ s e, (m s).2 ≠ Raised e.

(** What a committed resize towards [nouveau] has written. *)
Definition written (clk : clock) (nouveau : string) (s : heat_client.world)
    (o : outcome heat_client.resultat) : Prop :=
  ∀ r, o = Val r → Spec.committed r →
    heat_client.current_flavor (heat_client._state s) = nouveau
    ∧ ∃ h, heat_client.last_scaling_time (heat_client._state s)
           = PFloat (time_at clk h).

(** A resize towards [nouveau] is due: the flavor differs from the
    current one and the cooldown is over at the next reading of the
    clock. *)
Definition due (cd : Z) (clk : clock) (nouveau : string)
    (w : heat_client.world) : Prop :=
  nouveau ≠ heat_client.current_flavor (heat_client._state w)
  ∧ ∃ temps_ecoule,
      float_sub_num (time_at clk (heat_client.trace w))
        (heat_client.last_scaling_time (heat_client._state w))
        = inl temps_ecoule
      ∧ lt (PFloat temps_ecoule) (PInt cd) = false.

(** The globals of [heat_client] after a simulated resize towards
    [nouveau]. *)
Definition apres_simulation (clk : clock) (nouveau : string)
    (w : heat_client.world) : heat_client.world :=
  heat_client.mk_world
    (heat_client.mk_state
       (PFloat (time_at clk (EvSleep 1 :: EvTime :: heat_client.trace w)))
       nouveau
       (heat_client.vm_id (heat_client._state w))
       (heat_client.stack_name (heat_client._state w))
       (heat_client.connected (heat_client._state w)))
    (heat_client._nova_client w)
    (EvTime :: EvSleep 1 :: EvTime :: heat_client.trace w).

(** The outcomes of the paths that do not reach Nova's resize. *)
Definition r_simule (vm_name ancien nouveau : string) : heat_client.resultat :=
  heat_client.mk_resultat true
    [Lit "[SIMULATION] Resize réussi : "; Fmt (VStr vm_name) ""; Lit " ";
     Fmt (VStr ancien) ""; Lit " → "; Fmt (VStr nouveau) ""]
    ancien nouveau "simulated".

Definition r_cooldown (ancien nouveau : string) : heat_client.resultat :=
  heat_client.mk_resultat false
    [Lit "Cooldown actif — resize reporté ("; Fmt (VStr ancien) "";
     Lit " → "; Fmt (VStr nouveau) ""; Lit ")"]
    ancien nouveau "cooldown".

Definition r_vm_introuvable (vm_name ancien nouveau : string)
    : heat_client.resultat :=
  heat_client.mk_resultat false
    [Lit "VM introuvable : "; Fmt (VStr vm_name) ""] ancien nouveau "error".

Definition r_flavor_introuvable (ancien nouveau : string)
    : heat_client.resultat :=
  heat_client.mk_resultat false
    [Lit "Flavor introuvable : "; Fmt (VStr nouveau) ""] ancien nouveau "error".

Definition r_none (ancien : string) : heat_client.resultat :=
  heat_client.mk_resultat true
    [Lit "Déjà sur le flavor "; Fmt (VStr ancien) "";
     Lit " — aucun resize nécessaire"]
    ancien ancien "none".

End Notions.

(* ================================================================== *)
(** * adapter.py: the session and the routes of the dashboard           *)
(* ================================================================== *)

Module adapter_api.
Import Py Runtime adapter.

(** Flask's [session], of which the program uses the key ["user"]. *)
Abbreviation session := (gmap string string).

(** What a page route answers. *)
Inductive page :=
  | RedirectDashboard                   (* redirect(url_for("dashboard")) *)
  | RedirectIndex                       (* redirect(url_for("index")) *)
  | RenderIndex (error : string).       (* render_template("index.html", error=...) *)

(** What a route of the API answers. *)
Inductive reply :=
  | NonAutorise                         (* {"error": "Non autorisé"}, 401 *)
  | Erreur (error : string)             (* {"error": ...}, 400 *)
  | Politiques (policies : gmap string num)
      (* {"success": True, "message": ..., "policies": state["policies"]} *)
  | Deploye (message : text).           (* {"success": True, "message": ...} *)

(** [bool(v)] *)
Definition truthy (v : val) : bool :=
  match v with
  | VNone => false
  | VBool b => b
  | VInt z => negb (z =? 0)
  | VFloat f => match f with S754_zero _ => false | _ => true end
  | VStr s => negb (String.eqb s "")
  | VList l => match l with [] => false | _ => true end
  | VDict d => negb (bool_decide (size d = 0%nat))
  end.

(** [v is None] *)
Definition is_none (v : val) : bool :=
  match v with VNone => true | _ => false end.

(** [d.get(k)] *)
Definition dict_get (d : gmap string val) (k : string) : val :=
  default VNone (d !! k).

(** [0 < scale_down < scale_up < 100]: the comparisons are made from left
    to right and stop at the first that is false; one between a number
    and a value that is not a number raises. *)
Definition seuils_valides (scale_down scale_up : val) : res bool :=
  match as_num scale_down with
  | None => raise TypeError
  | Some sd =>
      if negb (lt (PInt 0) sd) then mret false else
      match as_num scale_up with
      | None => raise TypeError
      | Some su =>
          if negb (lt sd su) then mret false else mret (lt su (PInt 100))
      end
  end.

Definition set_policies (f : gmap string num -> gmap string num) : M app unit :=
  modify (fun a => mk_app (heat a)
    (mk_state (state_vm (st a)) (f (policies (st a))) (logs (st a))
              (state_stats (st a)))).

(** [verifier_session()]: the error to answer, if any. *)
Definition verifier_session (sess : session) : option reply :=
  if contains sess "user" then None else Some NonAutorise.

Section Program.

Variable DASHBOARD_USER : string.
Variable DASHBOARD_PASSWORD : string.
Variable clk : clock.

(** [login()], on the fields of the form; the session is handed back
    with the page. *)
Definition login (form : gmap string string) (sess : session)
    : M app (session * page) :=
  match form !! "username", form !! "password" with
  | Some username, Some password =>
      if String.eqb username DASHBOARD_USER
         && String.eqb password DASHBOARD_PASSWORD
      then
        ajouter_log clk
          [Lit "Connexion de l'utilisateur : "; Fmt (VStr username) ""] "info";;
        mret (<["user" := username]> sess, RedirectDashboard)
      else mret (sess, RenderIndex "Identifiants incorrects")
  | _, _ => mret (sess, RenderIndex "Identifiants incorrects")
  end.

(** [logout()]; an empty user name counts as none for the journal. *)
Definition logout (sess : session) : M app (session * page) :=
  match sess !! "user" with
  | Some user =>
      (if negb (String.eqb user "")
       then ajouter_log clk [Lit "Déconnexion de : "; Fmt (VStr user) ""] "info"
       else mret tt);;
      mret (delete "user" sess, RedirectIndex)
  | None => mret (delete "user" sess, RedirectIndex)
  end.

(** [api_update_policies()], on the JSON value [data] of the request.  A
    threshold is stored as the number it is; one that went through the
    comparisons is a number. *)
Definition api_update_policies (sess : session) (data : val) : M app reply :=
  match verifier_session sess with
  | Some erreur => mret erreur
  | None =>
  match data with
  | VDict d =>
      let scale_up := dict_get d "scale_up_threshold" in
      let scale_down := dict_get d "scale_down_threshold" in
      if is_none scale_up || is_none scale_down
      then mret (Erreur "Paramètres manquants") else
      ok ← of_res (seuils_valides scale_down scale_up);
      if negb ok
      then mret (Erreur "Seuils invalides : 0 < scale_down < scale_up < 100") else
      match as_num scale_up, as_num scale_down with
      | Some su, Some sd =>
          set_policies (fun p => <["scale_down_threshold" := sd]>
                                   (<["scale_up_threshold" := su]> p));;
          user ← of_res (getitem sess "user");
          ajouter_log clk
            [Lit "Politiques mises à jour par "; Fmt (VStr user) "";
             Lit " : Scale Up="; Fmt scale_up ""; Lit "% | Scale Down=";
             Fmt scale_down ""; Lit "%"]
            "info";;
          a ← get;
          mret (Politiques (policies (st a)))
      | _, _ => throw TypeError
      end
  | _ => throw AttributeError
  end
  end.

(** [api_deploy()] *)
Definition api_deploy (sess : session) (data : val) : M app reply :=
  match verifier_session sess with
  | Some erreur => mret erreur
  | None =>
  match data with
  | VDict d =>
      let template_name := dict_get d "template" in
      if negb (truthy template_name)
      then mret (Erreur "Nom du template manquant") else
      user ← of_res (getitem sess "user");
      ajouter_log clk
        [Lit "Déploiement du template '"; Fmt template_name "";
         Lit "' par "; Fmt (VStr user) ""]
        "success";;
      mret (Deploye [Lit "Template "; Fmt template_name "";
                     Lit " déployé avec succès"])
  | _ => throw AttributeError
  end
  end.

End Program.

End adapter_api.

(* ================================================================== *)
(** * The steps of an alert                                             *)
(* ================================================================== *)

Module Etapes.
Import Py Runtime adapter.

(** The globals with one part replaced. *)
Definition sur_heat (f : heat_client.world -> heat_client.world) (a : app) : app :=
  mk_app (f (heat a)) (st a).
Definition sur_vm (f : vm -> vm) (a : app) : app :=
  mk_app (heat a)
    (mk_state (f (state_vm (st a))) (policies (st a)) (logs (st a))
              (state_stats (st a))).
Definition sur_stats (f : stats -> stats) (a : app) : app :=
  mk_app (heat a)
    (mk_state (state_vm (st a)) (policies (st a)) (logs (st a))
              (f (state_stats (st a)))).

(** The globals once [ajouter_log] has entered a message. *)
Definition journalise (clk : clock) (message : text) (type_log : string)
    (a : app) : app :=
  mk_app (heat_client.record (EvStrftime "%H:%M") (heat a))
    (mk_state (state_vm (st a)) (policies (st a))
       (take 50 (mk_log (strftime_at clk (heat_client.trace (heat a)) "%H:%M")
                        type_log message :: logs (st a)))
       (state_stats (st a))).

Definition recue (s : stats) : stats :=
  mk_stats (alertes_recues s + 1) (alertes_valides s) (alertes_rejetees s)
           (scalings_up s) (scalings_down s).
Definition rejetee (s : stats) : stats :=
  mk_stats (alertes_recues s) (alertes_valides s) (alertes_rejetees s + 1)
           (scalings_up s) (scalings_down s).
Definition valide (s : stats) : stats :=
  mk_stats (alertes_recues s) (alertes_valides s + 1) (alertes_rejetees s)
           (scalings_up s) (scalings_down s).
Definition scaling (action : string) (s : stats) : stats :=
  si_up action
    (mk_stats (alertes_recues s) (alertes_valides s) (alertes_rejetees s)
              (scalings_up s + 1) (scalings_down s))
    (mk_stats (alertes_recues s) (alertes_valides s) (alertes_rejetees s)
              (scalings_up s) (scalings_down s + 1)).

Definition mesure (data_cpu data_ram : val) (t : string) (v : vm) : vm :=
  mk_vm (name v) (status v) (private_ip v) (public_ip v) (current_flavor v)
        data_cpu data_ram (Some t).
Definition passe_a (nouveau_flavor : string) (v : vm) : vm :=
  mk_vm (name v) (status v) (private_ip v) (public_ip v) nouveau_flavor
        (cpu v) (ram v) (last_update v).

(** The journal messages of [recevoir_alerte]. *)
Definition m_rejet (raison : text) : text := Lit "Alerte rejetée : " :: raison.
Definition m_aucune (data_cpu data_ram : val) : text :=
  [Lit "Métriques reçues — CPU: "; Fmt data_cpu ".0f"; Lit "% | RAM: ";
   Fmt data_ram ".0f"; Lit "% | Aucune action"].
Definition m_scale (action flavor_actuel nouveau_flavor : string)
    (data_cpu : val) : text :=
  [Lit "Scale "; Lit (si_up action "Up" "Down"); Lit " : ";
   Fmt (VStr flavor_actuel) ""; Lit " → "; Fmt (VStr nouveau_flavor) "";
   Lit " (CPU: "; Fmt data_cpu ".0f"; Lit "%)"].
Definition m_cooldown : text := [Lit "Cooldown actif — scaling reporté"].
Definition m_erreur (r : heat_client.resultat) : text :=
  Lit "Erreur scaling : " :: heat_client.message r.

(** The globals once [valider_alerte] has run: it has read the clock,
    or not. *)
Definition horloge_lue (lu : bool) (a : app) : app :=
  if lu then sur_heat (heat_client.record EvTime) a else a.

(** The globals when a rejected alert has been answered, the validation
    having read the clock or not. *)
Definition apres_rejet (clk : clock) (lu : bool) (raison : text) (a : app)
    : app :=
  journalise clk (m_rejet raison) "warning"
    (sur_stats rejetee (horloge_lue lu (sur_stats recue a))).

(** The globals when the metrics of an accepted alert have been stored. *)
Definition apres_mesure (clk : clock) (data_cpu data_ram : val) (a : app) : app :=
  sur_vm (mesure data_cpu data_ram
            (strftime_at clk (EvTime :: heat_client.trace (heat a)) "%H:%M:%S"))
    (sur_heat (heat_client.record (EvStrftime "%H:%M:%S"))
       (sur_stats valide
          (sur_heat (heat_client.record EvTime) (sur_stats recue a)))).

(** The globals when an accepted alert that asks for no scaling has been
    answered. *)
Definition apres_aucune (clk : clock) (data_cpu data_ram : val) (a : app) : app :=
  sur_heat (heat_client.record (EvEmit "metrics_update"))
    (journalise clk (m_aucune data_cpu data_ram) "info"
       (apres_mesure clk data_cpu data_ram a)).

(** The globals when an accepted alert that asked for [action] has been
    answered, [effectuer_resize] having left [heat_client] as [h] with
    the outcome [r]. *)
Definition apres_resize (clk : clock) (data_cpu data_ram : val)
    (action : string) (h : heat_client.world) (r : heat_client.resultat)
    (a : app) : app :=
  let a1 := apres_mesure clk data_cpu data_ram a in
  let flavor_actuel := current_flavor (state_vm (st a1)) in
  let nouveau_flavor := validator.determiner_nouveau_flavor action flavor_actuel in
  let a2 := mk_app h (st a1) in
  sur_heat (heat_client.record (EvEmit "metrics_update"))
    (if heat_client.success r
        && negb (bool_decide (heat_client.action r ∈ ["none"; "cooldown"]))
     then journalise clk (m_scale action flavor_actuel nouveau_flavor data_cpu)
            (si_up action "success" "warning")
            (sur_stats (scaling action) (sur_vm (passe_a nouveau_flavor) a2))
     else if String.eqb (heat_client.action r) "cooldown"
     then journalise clk m_cooldown "info" a2
     else journalise clk (m_erreur r) "error" a2).

(** How [recevoir_alerte] ends on an accepted alert that asked for
    [action], [effectuer_resize] having left [heat_client] as [h] with
    the outcome [o]. *)
Definition fin_resize (clk : clock) (data_cpu data_ram : val)
    (action : string) (h : heat_client.world)
    (o : outcome heat_client.resultat) (a : app)
    : app * outcome (reponse * option heat_client.resultat) :=
  match o with
  | Val r =>
      let a' := apres_resize clk data_cpu data_ram action h r a in
      (a', Val (Accepte action (current_flavor (state_vm (st a'))), Some r))
  | Raised e => (mk_app h (st (apres_mesure clk data_cpu data_ram a)), Raised e)
  | Unfinished => (mk_app h (st (apres_mesure clk data_cpu data_ram a)), Unfinished)
  end.

(** The test [recevoir_alerte] makes of the outcome of a resize. *)
Definition effectif (r : heat_client.resultat) : bool :=
  heat_client.success r
  && negb (bool_decide (heat_client.action r ∈ ["none"; "cooldown"])).

(** The loads [state["vm"]] shows are numbers of [0, 100]. *)
Definition charges_valides (a : app) : Prop :=
  Notions.in_range (cpu (state_vm (st a))) = true
  ∧ Notions.in_range (ram (state_vm (st a))) = true.

(** The flavor [state["vm"]] shows is the one [heat_client] keeps. *)
Definition accorde (a : app) : Prop :=
  current_flavor (state_vm (st a))
  = heat_client.current_flavor (heat_client._state (heat a)).

End Etapes.

(* ================================================================== *)
(** * More concrete situations                                          *)
(* ================================================================== *)

Module Situations.
Import Py Runtime Scenario.

(** The fields of an alert of [heat-vm-01] with the right token. *)
Definition champs (cpu ram timestamp : val) : gmap string val :=
  {[ "source" := VStr "heat-vm-01";
     "token" := VStr SECRET_TOKEN;
     "cpu" := cpu;
     "ram" := ram;
     "timestamp" := timestamp ]}.

(** An alert without its CPU load. *)
Definition champs_sans_cpu : gmap string val :=
  {[ "source" := VStr "heat-vm-01";
     "token" := VStr SECRET_TOKEN;
     "timestamp" := VInt 1700000000 ]}.

(** A clock that shows [0] until the program has slept [n] times, and
    [1000] from then on. *)
Definition horloge_seuil (n : nat) : clock :=
  mk_clock (fun h => if (n <=? Notions.sleeps h)%nat
                     then float_of_Z 1000 else float_of_Z 0)
           (fun _ _ => "12:00").

(** A Nova service that knows no server. *)
Definition nova_vide : nova :=
  mk_nova (fun _ _ => inl [])
          (fun _ => inl ["m1.small"; "m1.medium"; "m1.large"])
          (fun _ id => inl id)
          (fun _ _ _ => inl tt)
          (fun _ _ => inl "ACTIVE")
          (fun _ _ => inl tt).

(** [heat_client] connected to it, on [m1.small], never scaled. *)
Definition monde_vide : heat_client.world :=
  heat_client.mk_world
    (heat_client.mk_state (PInt 0) "m1.small" None "heat-main-stack" true)
    (Some nova_vide) [].

(** The adapter and [heat_client] in simulation on the last flavor. *)
Definition sature : adapter.app :=
  adapter.mk_app
    (heat_client.mk_world
       (heat_client.mk_state (PInt 0) "m1.large" None "heat-main-stack" false)
       None [])
    (adapter.mk_state
       (adapter.mk_vm "heat-vm-01" "ACTIVE" "192.168.1.10" "10.0.0.100"
                      "m1.large" (VFloat (S754_zero false))
                      (VFloat (S754_zero false)) None)
       policies [] (adapter.mk_stats 0 0 0 0 0)).

(** The session of the user [admin], and a request for the thresholds
    [scale_up] and [scale_down]. *)
Definition session_admin : gmap string string := {[ "user" := "admin" ]}.

Definition seuils (scale_up scale_down : Z) : gmap string val :=
  {[ "scale_up_threshold" := VInt scale_up;
     "scale_down_threshold" := VInt scale_down ]}.

(** The form of a login. *)
Definition formulaire (username password : string) : gmap string string :=
  {[ "username" := username; "password" := password ]}.

End Situations.

(* ================================================================== *)
(** * Comparisons of numbers                                            *)
(* ================================================================== *)

Module PyFacts.
Import Py.

Lemma Qclt_irrefl (q : Qc) : ¬ (q < q)%Qc.
Proof. intros H. by apply (Qclt_not_eq q q). Qed.

Lemma xlt_irrefl a : xlt a a = false.
Proof.
  destruct a; simpl; try done.
  apply bool_decide_eq_false, Qclt_irrefl.
Qed.

Lemma xlt_xle a b : xlt a b = true → xle a b = true.
Proof.
  destruct a, b; simpl; try done.
  rewrite !bool_decide_eq_true. apply Qclt_le_weak.
Qed.

Lemma xlt_xle_contra a b c :
  xlt a b = true → xle b c = true → xlt c a = false.
Proof.
  destruct a, b, c; simpl; try done.
  rewrite !bool_decide_eq_true, bool_decide_eq_false.
  intros Hab Hbc Hca.
  apply (Qclt_irrefl q). eapply Qclt_trans; [eapply Qclt_le_trans|]; eauto.
Qed.

Lemma xle_xlt_false a b : xle a b = true → xlt b a = false.
Proof.
  destruct a, b; simpl; try done.
  rewrite bool_decide_eq_true, bool_decide_eq_false.
  intros Hle Hlt. by apply Qclt_not_le in Hlt.
Qed.


Lemma xlt_not_nan a b : xlt a b = true → a ≠ XNan ∧ b ≠ XNan.
Proof. by destruct a, b. Qed.

Lemma xle_refl a : a ≠ XNan → xle a a = true.
Proof.
  destruct a; simpl; try done. intros _.
  apply bool_decide_eq_true, Qcle_refl.
Qed.

Lemma int_not_nan z : num_val (PInt z) ≠ XNan.
Proof. done. Qed.


(** ** Subtraction of finite floats

    The difference of two finite floats may overflow to an infinity, but
    it is a number. *)

Lemma shr_1_nonneg mrs : 0 ≤ shr_m mrs → 0 ≤ shr_m (shr_1 mrs).
Proof.
  destruct mrs as [m r s]. destruct m as [|p|p]; simpl; try lia;
    destruct p; simpl; lia.
Qed.

Lemma iter_shr_1_nonneg p mrs :
  0 ≤ shr_m mrs → 0 ≤ shr_m (SpecFloat.iter_pos shr_1 p mrs).
Proof.
  revert mrs. induction p as [p IH|p IH|]; intros mrs H; simpl;
    auto using shr_1_nonneg.
Qed.

Lemma shr_fexp_nonneg m e l :
  0 ≤ m → 0 ≤ shr_m (shr_fexp prec emax m e l).1.
Proof.
  intros H. unfold shr_fexp, shr.
  assert (0 ≤ shr_m (shr_record_of_loc m l)) by (by destruct l as [|[]]).
  destruct (_ - e); simpl; auto using iter_shr_1_nonneg.
Qed.

Lemma round_nearest_even_nonneg m l : 0 ≤ m → 0 ≤ round_nearest_even m l.
Proof.
  intros H. destruct l as [|[]]; simpl; try lia. destruct (Z.even m); lia.
Qed.

Lemma binary_round_aux_not_nan sx mx ex lx :
  0 ≤ mx → binary_round_aux prec emax sx mx ex lx ≠ S754_nan.
Proof.
  intros H. unfold binary_round_aux.
  pose proof (shr_fexp_nonneg mx ex lx H) as H1.
  destruct (shr_fexp prec emax mx ex lx) as [mrs' e']. simpl in H1.
  pose proof (shr_fexp_nonneg _ e' loc_Exact
                (round_nearest_even_nonneg _ (loc_of_shr_record mrs') H1)) as H2.
  destruct (shr_fexp prec emax _ e' loc_Exact) as [mrs'' e'']. simpl in H2.
  destruct (shr_m mrs''); [done| |lia].
  by destruct (_ <=? _).
Qed.

Lemma binary_normalize_not_nan m e szero :
  binary_normalize prec emax m e szero ≠ S754_nan.
Proof.
  destruct m as [|p|p]; simpl; [done| |];
    unfold binary_round; destruct (shl_align _ _ _);
    by apply binary_round_aux_not_nan.
Qed.

Lemma float_of_Z_not_nan z : float_of_Z z ≠ S754_nan.
Proof. apply binary_normalize_not_nan. Qed.



End PyFacts.

(* ================================================================== *)
(** * Rules for the assertions on computations                          *)
(* ================================================================== *)

Module LogicFacts.
Import Py Runtime Logic.

Section Rules.
Context {S : Type}.
Implicit Types P : S → Prop.

Lemma bind_run {A B} (m : M S A) (f : A → M S B) s :
  (m ≫= f) s =
    match m s with
    | (s', Val a) => f a s'
    | (s', Raised e) => (s', Raised e)
    | (s', Unfinished) => (s', Unfinished)
    end.
Proof. reflexivity. Qed.

Lemma hoare_conseq {A} P P' (m : M S A) (Q Q' : S → outcome A → Prop) :
  hoare P' m Q' → (∀ s, P s → P' s) → (∀ s o, Q' s o → Q s o) → hoare P m Q.
Proof. unfold hoare. auto. Qed.

Lemma hoare_ret {A} P (a : A) (Q : S → outcome A → Prop) :
  (∀ s, P s → Q s (Val a)) → hoare P (mret a) Q.
Proof. unfold hoare. auto. Qed.

Lemma hoare_throw {A} P e (Q : S → outcome A → Prop) :
  (∀ s, P s → Q s (Raised e)) → hoare P (throw e) Q.
Proof. unfold hoare. auto. Qed.

Lemma hoare_unfinished {A} P (Q : S → outcome A → Prop) :
  (∀ s, P s → Q s Unfinished) → hoare P unfinished Q.
Proof. unfold hoare. auto. Qed.

Lemma hoare_of_res {A} P (r : res A) (Q : S → outcome A → Prop) :
  (∀ s, P s → match r with inl a => Q s (Val a) | inr e => Q s (Raised e) end) →
  hoare P (of_res r) Q.
Proof. unfold hoare. intros H s Hs. specialize (H s Hs). by destruct r. Qed.

Lemma hoare_get P (Q : S → outcome S → Prop) :
  (∀ s, P s → Q s (Val s)) → hoare P get Q.
Proof. unfold hoare. auto. Qed.

Lemma hoare_modify P (f : S → S) (Q : S → outcome unit → Prop) :
  (∀ s, P s → Q (f s) (Val tt)) → hoare P (modify f) Q.
Proof. unfold hoare. auto. Qed.

Lemma hoare_bind {A B} P (R : A → S → Prop) (m : M S A) (f : A → M S B)
    (Q : S → outcome B → Prop) :
  hoare P m (passes R Q) → (∀ a, hoare (R a) (f a) Q) → hoare P (m ≫= f) Q.
Proof.
  unfold hoare, passes. intros Hm Hf s Hs. rewrite bind_run.
  specialize (Hm s Hs).
  destruct (m s) as [s' [a|e|]]; simpl in *; [by apply Hf|done|done].
Qed.

Lemma hoare_try_except {A} P (R : exn → S → Prop) (body : M S A) handler
    (Q : S → outcome A → Prop) :
  hoare P body (fun s o => match o with Raised e => R e s | _ => Q s o end) →
  (∀ e, hoare (R e) (handler e) Q) →
  hoare P (try_except body handler) Q.
Proof.
  unfold hoare, try_except. intros Hb Hh s Hs.
  specialize (Hb s Hs).
  destruct (body s) as [s' [a|e|]]; simpl in *; [done|by apply Hh|done].
Qed.

Lemma keeps_ret {A X} (π : S → X) (a : A) : keeps π (mret a : M S A).
Proof. done. Qed.

Lemma keeps_throw {A X} (π : S → X) e : keeps π (throw e : M S A).
Proof. done. Qed.

Lemma keeps_unfinished {A X} (π : S → X) : keeps π (unfinished : M S A).
Proof. done. Qed.

Lemma keeps_of_res {A X} (π : S → X) (r : res A) :
  keeps π (of_res r : M S A).
Proof. by destruct r. Qed.

Lemma keeps_get {X} (π : S → X) : keeps π get.
Proof. done. Qed.

Lemma keeps_modify {X} (π : S → X) f :
  (∀ s, π (f s) = π s) → keeps π (modify f).
Proof. unfold keeps. auto. Qed.

Lemma keeps_bind {A B X} (π : S → X) (m : M S A) (f : A → M S B) :
  keeps π m → (∀ a, keeps π (f a)) → keeps π (m ≫= f).
Proof.
  unfold keeps. intros Hm Hf s. rewrite bind_run. specialize (Hm s).
  destruct (m s) as [s' [a|e|]]; simpl in *; [by rewrite Hf|done|done].
Qed.

Lemma keeps_try_except {A X} (π : S → X) (body : M S A) handler :
  keeps π body → (∀ e, keeps π (handler e)) → keeps π (try_except body handler).
Proof.
  unfold keeps, try_except. intros Hb Hh s. specialize (Hb s).
  destruct (body s) as [s' [a|e|]]; simpl in *; [done|by rewrite Hh|done].
Qed.

Lemma keeps_hoare {A X} (π : S → X) (m : M S A) x :
  keeps π m → hoare (fun s => π s = x) m (fun s _ => π s = x).
Proof. unfold keeps, hoare. intros H s <-. apply H. Qed.

Lemma returns_ret {A} (a : A) (V : A → Prop) :
  V a → returns (mret a : M S A) V.
Proof. intros H s s' a' [= _ <-]. done. Qed.

Lemma returns_throw {A} e (V : A → Prop) : returns (throw e : M S A) V.
Proof. intros s s' a' [=]. Qed.

Lemma returns_unfinished {A} (V : A → Prop) :
  returns (unfinished : M S A) V.
Proof. intros s s' a' [=]. Qed.

Lemma returns_bind {A B} (m : M S A) (f : A → M S B) (V : B → Prop) :
  (∀ a, returns (f a) V) → returns (m ≫= f) V.
Proof.
  intros Hf s s' b. rewrite bind_run.
  destruct (m s) as [s1 [a|e|]]; [apply Hf|done|done].
Qed.

Lemma returns_try_except {A} (body : M S A) handler (V : A → Prop) :
  returns body V → (∀ e, returns (handler e) V) →
  returns (try_except body handler) V.
Proof.
  unfold try_except. intros Hb Hh s s' a.
  destruct (body s) as [s1 [a1|e|]] eqn:E; [|apply Hh|done].
  intros [= <- <-]. by eapply Hb.
Qed.

(** The two together, as the first half of a sequence. *)
Lemma hoare_keeps_returns {A B X} (π : S → X) (m : M S A) x (V : A → Prop)
    (Q : S → outcome B → Prop) :
  keeps π m → returns m V →
  (∀ s e, π s = x → Q s (Raised e)) →
  (∀ s, π s = x → Q s Unfinished) →
  hoare (fun s => π s = x) m (passes (fun a s => π s = x ∧ V a) Q).
Proof.
  unfold keeps, returns, hoare, passes. intros Hk Hr He Hu s Hs.
  specialize (Hk s). specialize (Hr s).
  destruct (m s) as [s' [a|e|]]; simpl in *.
  - split; [congruence|]. by eapply Hr.
  - apply He. congruence.
  - apply Hu. congruence.
Qed.

Lemma steady_ret {A X} (π : S → X) (a : A) : steady π (mret a : M S A).
Proof. intros s. by exists s, a. Qed.

Lemma steady_get {X} (π : S → X) : steady π get.
Proof. intros s. by exists s, s. Qed.

Lemma steady_modify {X} (π : S → X) f :
  (∀ s, π (f s) = π s) → steady π (modify f).
Proof. intros H s. exists (f s), tt. by split. Qed.

Lemma steady_bind {A B X} (π : S → X) (m : M S A) (f : A → M S B) :
  steady π m → (∀ a, steady π (f a)) → steady π (m ≫= f).
Proof.
  intros Hm Hf s. rewrite bind_run.
  destruct (Hm s) as (s1 & a & -> & H1).
  destruct (Hf a s1) as (s2 & b & -> & H2).
  exists s2, b. split; [done|congruence].
Qed.

Lemma steady_keeps {A X} (π : S → X) (m : M S A) : steady π m → keeps π m.
Proof. intros H s. by destruct (H s) as (s' & a & -> & ?). Qed.

Lemma hoare_steady_to {A B X} (π : S → X) P (m : M S A) (R : A → S → Prop)
    (Q : S → outcome B → Prop) :
  steady π m →
  (∀ s s' a, P s → π s' = π s → R a s') →
  hoare P m (passes R Q).
Proof.
  intros H HR s Hs. destruct (H s) as (s' & a & -> & Hπ). simpl. eauto.
Qed.

Lemma hoare_keeps_to {A B X} (π : S → X) P (m : M S A) (R : A → S → Prop)
    (Q : S → outcome B → Prop) :
  keeps π m →
  (∀ s s' a, P s → π s' = π s → R a s') →
  (∀ s s' e, P s → π s' = π s → Q s' (Raised e)) →
  (∀ s s', P s → π s' = π s → Q s' Unfinished) →
  hoare P m (passes R Q).
Proof.
  unfold keeps, hoare, passes. intros Hk HR He Hu s Hs. specialize (Hk s).
  destruct (m s) as [s' [a|e|]]; simpl in *; eauto.
Qed.

Lemma hoare_keeps_returns_to {A B X} (π : S → X) P (m : M S A) (V : A → Prop)
    (R : A → S → Prop) (Q : S → outcome B → Prop) :
  keeps π m → returns m V →
  (∀ s s' a, P s → π s' = π s → V a → R a s') →
  (∀ s s' e, P s → π s' = π s → Q s' (Raised e)) →
  (∀ s s', P s → π s' = π s → Q s' Unfinished) →
  hoare P m (passes R Q).
Proof.
  unfold keeps, returns, hoare, passes. intros Hk Hr HR He Hu s Hs.
  specialize (Hk s). specialize (Hr s).
  destruct (m s) as [s' [a|e|]]; simpl in *; eauto.
Qed.

Lemma hoare_steady {A B X} (π : S → X) (m : M S A) (I : X → Prop)
    (Q : S → outcome B → Prop) :
  steady π m →
  hoare (fun s => I (π s)) m (passes (fun _ s => I (π s)) Q).
Proof.
  intros H s Hs. destruct (H s) as (s' & a & -> & Hπ). simpl. by rewrite Hπ.
Qed.

Lemma hoare_keeps {A B X} (π : S → X) (m : M S A) (I : X → Prop)
    (Q : S → outcome B → Prop) :
  keeps π m →
  (∀ s e, I (π s) → Q s (Raised e)) →
  (∀ s, I (π s) → Q s Unfinished) →
  hoare (fun s => I (π s)) m (passes (fun _ s => I (π s)) Q).
Proof.
  unfold keeps, hoare, passes. intros Hk He Hu s Hs. specialize (Hk s).
  destruct (m s) as [s' [a|e|]]; simpl in *; rewrite <-Hk in Hs; auto.
Qed.

Lemma extends_refl {A} (m : M S A) : extends m m.
Proof. by intros s _. Qed.

Lemma extends_unfinished {A} (m : M S A) : extends unfinished m.
Proof. by intros s H. Qed.

Lemma extends_bind {A B} (m m' : M S A) (f f' : A → M S B) :
  extends m m' → (∀ a, extends (f a) (f' a)) → extends (m ≫= f) (m' ≫= f').
Proof.
  intros Hm Hf s. rewrite !bind_run. specialize (Hm s).
  destruct (m s) as [s1 [a|e|]]; simpl in *.
  - rewrite Hm by done. apply Hf.
  - by rewrite Hm.
  - done.
Qed.

Lemma extends_try_except {A} (body body' : M S A) handler :
  extends body body' →
  extends (try_except body handler) (try_except body' handler).
Proof.
  unfold try_except. intros Hb s. specialize (Hb s).
  destruct (body s) as [s1 [a|e|]]; simpl in *.
  - by rewrite Hb.
  - by rewrite Hb.
  - done.
Qed.

End Rules.

End LogicFacts.

(** Runs the head of a sequence. *)
Ltac run := repeat (rewrite LogicFacts.bind_run; simpl).

(* ================================================================== *)
(** * validator.py: properties                                          *)
(* ================================================================== *)

Module validator_facts.
Import Py validator Spec PyFacts.

(** ** The scaling decision *)

Lemma determiner_action_unfold cpu policies :
  determiner_action cpu policies =
    if gt cpu (scale_up_threshold policies) then "scale_up"
    else if lt cpu (scale_down_threshold policies) then "scale_down"
    else "none".
Proof. reflexivity. Qed.

Lemma determiner_action_scale_up cpu policies :
  determiner_action cpu policies = "scale_up"
  ↔ gt cpu (scale_up_threshold policies) = true.
Proof.
  rewrite determiner_action_unfold.
  destruct (gt cpu _); [done|].
  destruct (lt cpu _); split; discriminate.
Qed.

Lemma determiner_action_scale_down cpu policies :
  determiner_action cpu policies = "scale_down"
  ↔ gt cpu (scale_up_threshold policies) = false
    ∧ lt cpu (scale_down_threshold policies) = true.
Proof.
  rewrite determiner_action_unfold.
  destruct (gt cpu _); [split; [discriminate|intros [? _]; discriminate]|].
  destruct (lt cpu _); split; try done. intros [_ ?]; discriminate.
Qed.

Lemma determiner_action_none cpu policies :
  determiner_action cpu policies = "none"
  ↔ gt cpu (scale_up_threshold policies) = false
    ∧ lt cpu (scale_down_threshold policies) = false.
Proof.
  rewrite determiner_action_unfold.
  destruct (gt cpu _); [split; [discriminate|intros [? _]; discriminate]|].
  destruct (lt cpu _); split; try done. intros [_ ?]; discriminate.
Qed.

(** Below the lower threshold is not above the upper one, as soon as the
    thresholds are in order. *)
Lemma below_not_above cpu policies :
  le (scale_down_threshold policies) (scale_up_threshold policies) = true →
  lt cpu (scale_down_threshold policies) = true →
  gt cpu (scale_up_threshold policies) = false.
Proof. unfold gt, lt, le. intros Hle Hlt. by eapply xlt_xle_contra. Qed.

(** C6 as it is written fails on thresholds out of order: the test for
    scale_up comes first and wins, so a CPU load below the scale-down
    threshold does not give scale_down. *)
Lemma determiner_action_inverted :
  lt (PInt 50) (scale_down_threshold Scenario.policies_inversees) = true
  ∧ determiner_action (PInt 50) Scenario.policies_inversees = "scale_up"
  ∧ ¬ (determiner_action (PInt 50) Scenario.policies_inversees = "scale_down"
       ↔ lt (PInt 50) (scale_down_threshold Scenario.policies_inversees) = true).
Proof.
  split; [vm_compute; reflexivity|]. split; [vm_compute; reflexivity|].
  intros [_ H]. assert (Hd : determiner_action (PInt 50) Scenario.policies_inversees
                             = "scale_down")
    by (apply H; vm_compute; reflexivity).
  vm_compute in Hd. discriminate.
Qed.

(** C6, amended: for every CPU value and every policy whose scale-down
    threshold is not above its scale-up threshold, [determiner_action]
    answers ["scale_up"] iff the CPU is strictly above the scale-up
    threshold, ["scale_down"] iff it is strictly below the scale-down
    threshold, and ["none"] otherwise; a CPU equal to either threshold
    gives ["none"]. *)
Theorem determiner_action_thresholds cpu policies :
  le (scale_down_threshold policies) (scale_up_threshold policies) = true →
  (determiner_action cpu policies = "scale_up"
     ↔ gt cpu (scale_up_threshold policies) = true)
  ∧ (determiner_action cpu policies = "scale_down"
     ↔ lt cpu (scale_down_threshold policies) = true)
  ∧ (determiner_action cpu policies = "none"
     ↔ gt cpu (scale_up_threshold policies) = false
       ∧ lt cpu (scale_down_threshold policies) = false)
  ∧ (num_val cpu = num_val (scale_up_threshold policies)
     ∨ num_val cpu = num_val (scale_down_threshold policies)
     → determiner_action cpu policies = "none").
Proof.
  intros Hle.
  split; [apply determiner_action_scale_up|].
  split.
  { rewrite determiner_action_scale_down. split; [tauto|].
    intros Hlt. split; [|done]. by apply below_not_above. }
  split; [apply determiner_action_none|].
  intros Heq. apply determiner_action_none. unfold gt, lt, le in *.
  assert (Hup : xlt (num_val (scale_up_threshold policies))
                    (num_val (scale_down_threshold policies)) = false)
    by (by apply xle_xlt_false).
  destruct Heq as [-> | ->]; auto using xlt_irrefl.
Qed.

(** ** The progression of flavors *)

Lemma progression_lookup action :
  progression !! action =
    if decide (action = "scale_up") then
      Some ({[ "m1.small" := "m1.medium"; "m1.medium" := "m1.large";
               "m1.large" := "m1.large" ]} : gmap string string)
    else if decide (action = "scale_down") then
      Some ({[ "m1.large" := "m1.medium"; "m1.medium" := "m1.small";
               "m1.small" := "m1.small" ]} : gmap string string)
    else None.
Proof.
  unfold progression. rewrite lookup_insert, lookup_singleton.
  repeat case_decide; congruence.
Qed.

Lemma determiner_nouveau_flavor_unknown action f :
  f ∉ catalog → determiner_nouveau_flavor action f = f.
Proof.
  intros Hf. unfold catalog in Hf.
  assert (f ≠ "m1.small" ∧ f ≠ "m1.medium" ∧ f ≠ "m1.large") as (H1 & H2 & H3).
  { repeat split; intros ->; apply Hf; set_solver. }
  unfold determiner_nouveau_flavor. rewrite progression_lookup.
  repeat case_decide; try done;
    by rewrite !lookup_insert_ne, lookup_singleton_ne by done.
Qed.

(** C7: [determiner_nouveau_flavor] saturates at the ends of the catalog
    (scale_up from the last tier and scale_down from the first return the
    tier itself), moves exactly one position in the catalog otherwise, and
    returns a current tier that is not in the catalog unchanged, whatever
    the action. *)
Theorem determiner_nouveau_flavor_catalog :
  (∀ f, last catalog = Some f → determiner_nouveau_flavor "scale_up" f = f)
  ∧ (∀ f, head catalog = Some f → determiner_nouveau_flavor "scale_down" f = f)
  ∧ (∀ i f, catalog !! i = Some f → (S i < length catalog)%nat →
       catalog !! S i = Some (determiner_nouveau_flavor "scale_up" f))
  ∧ (∀ i f, catalog !! S i = Some f →
       catalog !! i = Some (determiner_nouveau_flavor "scale_down" f))
  ∧ (∀ action f, f ∉ catalog → determiner_nouveau_flavor action f = f).
Proof.
  split; [intros f [= <-]; reflexivity|].
  split; [intros f [= <-]; reflexivity|].
  split.
  { intros [|[|[|i]]] f Hf Hi; simpl in *; try lia;
      injection Hf as <-; reflexivity. }
  split.
  { intros [|[|i]] f Hf; simpl in *; try done;
      injection Hf as <-; reflexivity. }
  apply determiner_nouveau_flavor_unknown.
Qed.

(** ** The order of the checks *)

Lemma contains_lookup {A} (d : gmap string A) k :
  contains d k = true ↔ is_Some (d !! k).
Proof.
  unfold contains. destruct (d !! k); split; done.
Qed.

Lemma required_fields_present (data : gmap string val) :
  List.find (fun champ => negb (contains data champ)) required_fields = None
  ↔ ∀ champ, champ ∈ required_fields → contains data champ = true.
Proof.
  split.
  - intros H champ Hin. apply list_elem_of_In in Hin.
    apply (List.find_none _ _ H) in Hin. by apply negb_false_iff.
  - intros H. unfold required_fields in *. simpl.
    rewrite !H by set_solver. done.
Qed.

Lemma present_non_empty (data : gmap string val) k :
  contains data k = true → bool_decide (size data = 0%nat) = false.
Proof.
  rewrite contains_lookup. intros [v Hv].
  apply bool_decide_eq_false. intros Hs.
  apply map_size_empty_iff in Hs. subst. by rewrite lookup_empty in Hv.
Qed.

Lemma required_fields_lookup (data : gmap string val) :
  List.find (fun champ => negb (contains data champ)) required_fields = None →
  ∃ source token cpu ram timestamp,
    data !! "source" = Some source ∧ data !! "token" = Some token
    ∧ data !! "cpu" = Some cpu ∧ data !! "ram" = Some ram
    ∧ data !! "timestamp" = Some timestamp.
Proof.
  unfold required_fields, contains. simpl.
  destruct (data !! "source") as [source|]; [|done].
  destruct (data !! "token") as [token|]; [|done].
  destruct (data !! "cpu") as [cpu|]; [|done].
  destruct (data !! "ram") as [ram|]; [|done].
  destruct (data !! "timestamp") as [timestamp|]; [|done].
  intros _. by exists source, token, cpu, ram, timestamp.
Qed.

Lemma valider_alerte_first_failure tok now data :
  valider_alerte tok now data = first_failure (checks tok now data).
Proof.
  unfold valider_alerte, checks, check_payload, check_fields.
  destruct (bool_decide (size data = 0%nat)); [done|].
  destruct (List.find _ required_fields) as [champ|] eqn:Hfind; [done|].
  destruct (required_fields_lookup data Hfind)
    as (source & token & cpu & ram & timestamp
        & Hsource & Htoken & Hcpu & Hram & Hts).
  unfold check_token, check_cpu, check_ram, check_freshness, check_source,
    field, getitem.
  rewrite Htoken, Hcpu, Hram, Hts, Hsource. simpl.
  destruct (differs token tok); [done|].
  destruct (as_num cpu) as [c|]; [|done].
  destruct (le cpu_min c && le c cpu_max); [|done]. simpl.
  destruct (as_num ram) as [r|]; [|done].
  destruct (le ram_min r && le r ram_max); [|done]. simpl.
  destruct (float_sub now timestamp) as [age|e]; [|done]. simpl.
  destruct (gt (PFloat age) max_age_seconds); [done|].
  destruct (lt (PFloat age) (PInt 0)); [done|].
  by destruct (unidentified source).
Qed.

Lemma valider_alerte_wrong_token tok now data token :
  (∀ champ, champ ∈ required_fields → contains data champ = true) →
  data !! "token" = Some token →
  differs token tok = true →
  valider_alerte tok now data = mret (false, r_token).
Proof.
  intros Hall Htoken Hdiff. unfold valider_alerte.
  rewrite (present_non_empty data "token") by (apply Hall; set_solver).
  rewrite (proj2 (required_fields_present data) Hall).
  unfold getitem. rewrite Htoken. simpl. by rewrite Hdiff.
Qed.

(** C9: [valider_alerte] answers what the first failing check answers, in
    the order payload, required fields, token, CPU, RAM, freshness, source;
    so an alert that has every required field and a wrong token is rejected
    with the authentication reason, whatever its other fields and whatever
    the time of the validation. *)
Theorem valider_alerte_order tok now data :
  valider_alerte tok now data = first_failure (checks tok now data)
  ∧ (∀ token,
       (∀ champ, champ ∈ required_fields → contains data champ = true) →
       data !! "token" = Some token →
       differs token tok = true →
       ∀ now', valider_alerte tok now' data = mret (false, r_token)).
Proof.
  split; [apply valider_alerte_first_failure|].
  intros token Hall Htoken Hdiff now'. by eapply valider_alerte_wrong_token.
Qed.

(** ** Exceptions *)

(** An exception leaves [valider_alerte] only from the subtraction of
    step 6. *)
Lemma valider_alerte_raises tok now data e :
  valider_alerte tok now data = inr e →
  ∃ timestamp, data !! "timestamp" = Some timestamp
               ∧ float_sub now timestamp = inr e.
Proof.
  rewrite valider_alerte_first_failure.
  unfold checks, check_payload, check_fields, check_token, check_cpu,
    check_ram, check_freshness, check_source.
  destruct (bool_decide (size data = 0%nat)); [done|].
  destruct (List.find _ required_fields) as [champ|] eqn:Hfind; [done|].
  destruct (required_fields_lookup data Hfind)
    as (source & token & cpu & ram & timestamp
        & Hsource & Htoken & Hcpu & Hram & Hts).
  unfold field. rewrite Htoken, Hcpu, Hram, Hts, Hsource. simpl.
  destruct (differs token tok); [done|].
  destruct (as_num cpu) as [c|]; [|done].
  destruct (le cpu_min c && le c cpu_max); [|done].
  destruct (as_num ram) as [r|]; [|done].
  destruct (le ram_min r && le r ram_max); [|done].
  destruct (float_sub now timestamp) as [age|e'] eqn:Hsub.
  - destruct (gt (PFloat age) max_age_seconds); [done|].
    destruct (lt (PFloat age) (PInt 0)); [done|].
    by destruct (unidentified source).
  - intros [= ->]. eauto.
Qed.

(** What an accepted alert carries. *)
Lemma valider_alerte_accepte tok now data reason :
  valider_alerte tok now data = inl (true, reason) →
  ∃ cpu ram c r,
    data !! "cpu" = Some cpu ∧ as_num cpu = Some c
    ∧ le cpu_min c = true ∧ le c cpu_max = true
    ∧ data !! "ram" = Some ram ∧ as_num ram = Some r
    ∧ le ram_min r = true ∧ le r ram_max = true
    ∧ data !! "token" = Some (VStr tok).
Proof.
  rewrite valider_alerte_first_failure.
  unfold checks, check_payload, check_fields, check_token, check_cpu,
    check_ram, check_freshness, check_source.
  destruct (bool_decide (size data = 0%nat)); [done|].
  destruct (List.find _ required_fields) as [champ|] eqn:Hfind; [done|].
  destruct (required_fields_lookup data Hfind)
    as (source & token & cpu & ram & timestamp
        & Hsource & Htoken & Hcpu & Hram & Hts).
  unfold field. rewrite Htoken, Hcpu, Hram, Hts, Hsource. simpl.
  destruct (differs token tok) eqn:Hd; [done|].
  destruct (as_num cpu) as [c|] eqn:Hac; [|done].
  destruct (le cpu_min c && le c cpu_max) eqn:Hc; [|done].
  destruct (as_num ram) as [r|] eqn:Har; [|done].
  destruct (le ram_min r && le r ram_max) eqn:Hr; [|done].
  intros _. apply andb_true_iff in Hc as [? ?]. apply andb_true_iff in Hr as [? ?].
  exists cpu, ram, c, r. split_and!; try done.
  f_equal. destruct token; simpl in Hd; try done.
  apply negb_false_iff, String.eqb_eq in Hd. by subst.
Qed.

(** C2: the alert [alerte_timestamp_texte], whose fields are all present
    and valid but for a timestamp that is a string, makes
    [valider_alerte] raise [TypeError] at the subtraction of step 6,
    whatever the time: no [(False, reason)] pair is returned. *)
Theorem valider_alerte_raises_on_text_timestamp now :
  valider_alerte Scenario.SECRET_TOKEN now Scenario.alerte_timestamp_texte
  = raise TypeError.
Proof. vm_compute. reflexivity. Qed.

End validator_facts.

(* ================================================================== *)
(** * heat_client.py: properties                                        *)
(* ================================================================== *)

Module heat_client_facts.
Import Py Runtime heat_client Spec PyFacts Logic LogicFacts.

(** ** The cooldown gate *)

Lemma cooldown_respecte_run cd clk w :
  cooldown_respecte cd clk w =
    match float_sub_num (time_at clk (trace w)) (last_scaling_time (_state w)) with
    | inl temps_ecoule =>
        if lt (PFloat temps_ecoule) (PInt cd) then
          match num_sub_float (PInt cd) temps_ecoule with
          | inl attente => (record EvTime w, Val false)
          | inr e => (record EvTime w, Raised e)
          end
        else (record EvTime w, Val true)
    | inr e => (record EvTime w, Raised e)
    end.
Proof.
  unfold cooldown_respecte. run.
  destruct (float_sub_num _ _) as [te|e]; simpl; [|done].
  destruct (lt (PFloat te) (PInt cd)); [|done].
  rewrite bind_run. by destruct (num_sub_float _ _).
Qed.

(** The waiting time is computed when [COOLDOWN_SECONDS] is an int a
    float can hold. *)
Lemma num_sub_float_finite n f :
  finite_num n = true → ∃ attente, num_sub_float n f = inl attente.
Proof.
  unfold num_sub_float. destruct n as [z|g]; simpl; [|by eexists].
  destruct (float_of_Z z); try done; by eexists.
Qed.

(** When it is too large the subtraction raises. *)
Lemma num_sub_float_raises z f :
  finite_num (PInt z) = false → num_sub_float (PInt z) f = inr OverflowError.
Proof.
  unfold num_sub_float. simpl. pose proof (float_of_Z_not_nan z) as Hnan.
  destruct (float_of_Z z); try done.
Qed.

Lemma cooldown_respecte_refuse cd clk w temps_ecoule :
  finite_num (PInt cd) = true →
  float_sub_num (time_at clk (trace w)) (last_scaling_time (_state w))
    = inl temps_ecoule →
  lt (PFloat temps_ecoule) (PInt cd) = true →
  cooldown_respecte cd clk w = (record EvTime w, Val false).
Proof.
  intros Hcd Hsub Hlt. rewrite cooldown_respecte_run, Hsub, Hlt.
  by destruct (num_sub_float_finite (PInt cd) temps_ecoule Hcd) as [a ->].
Qed.

Lemma cooldown_respecte_permet cd clk w temps_ecoule :
  float_sub_num (time_at clk (trace w)) (last_scaling_time (_state w))
    = inl temps_ecoule →
  lt (PFloat temps_ecoule) (PInt cd) = false →
  cooldown_respecte cd clk w = (record EvTime w, Val true).
Proof. intros Hsub Hlt. by rewrite cooldown_respecte_run, Hsub, Hlt. Qed.



(** ** The resize *)

(** C4: for every name and every state, [effectuer_resize] towards the
    current flavor returns action ["none"] with [success = True] and leaves
    the whole world as it was: no call to the provider, no reading of the
    clock (the cooldown check is not reached), no write to the state. *)
Theorem effectuer_resize_same_flavor cd clk fuel vm_name w :
  effectuer_resize cd clk fuel vm_name (current_flavor (_state w)) w
  = (w, Val (mk_resultat true
               [Lit "Déjà sur le flavor "; Fmt (VStr (current_flavor (_state w))) "";
                Lit " — aucun resize nécessaire"]
               (current_flavor (_state w)) (current_flavor (_state w)) "none")).
Proof.
  unfold effectuer_resize. run.
  by rewrite String.eqb_refl.
Qed.


Lemma effectuer_resize_issue cd clk fuel vm_name nouveau :
  returns (effectuer_resize cd clk fuel vm_name nouveau) issue.
Proof.
  unfold effectuer_resize, issue.
  apply returns_bind; intros w.
  destruct (String.eqb _ _); [apply returns_ret; simpl; tauto|].
  apply returns_bind; intros ok.
  destruct (negb ok); [apply returns_ret; simpl; tauto|].
  apply returns_bind; intros w'.
  destruct (hors_ligne w').
  - unfold _simuler_resize. repeat (apply returns_bind; intros ?).
    apply returns_ret; simpl; tauto.
  - unfold _resize_openstack. apply returns_try_except.
    + apply returns_bind; intros ?. apply returns_bind; intros ?.
      apply returns_bind; intros w2.
      destruct (vm_id (_state w2)); [|apply returns_ret; simpl; tauto].
      apply returns_bind; intros flavors.
      destruct (List.find _ flavors); [|apply returns_ret; simpl; tauto].
      repeat (apply returns_bind; intros ?).
      apply returns_ret; simpl; tauto.
    + intros e. apply returns_ret; simpl; tauto.
Qed.

Section Keeps.

Variables (cd : Z) (clk : clock).

Lemma steady_time_time : steady tier (time_time clk).
Proof. intros w. by eexists _, _. Qed.

Lemma steady_time_sleep seconds : steady tier (time_sleep seconds).
Proof. intros w. by eexists _, _. Qed.

Lemma steady_set_vm_id v : steady tier (set_vm_id v).
Proof. by apply steady_modify. Qed.

Lemma keeps_call {A} c (answer : nova → history → res A) :
  keeps tier (call c answer).
Proof.
  intros w. unfold call. destruct (_nova_client w) as [n|]; [|done].
  by destruct (answer n (trace w)).
Qed.

Lemma keeps_recuperer_vm_id vm_name : keeps tier (recuperer_vm_id vm_name).
Proof.
  unfold recuperer_vm_id. apply keeps_bind; [apply keeps_get|]. intros w.
  destruct (hors_ligne w); [apply keeps_ret|].
  apply keeps_try_except; [|intros; apply keeps_ret].
  apply keeps_bind; [apply keeps_call|]. intros [|vm_id serveurs].
  - apply keeps_ret.
  - apply keeps_bind; [apply steady_keeps, steady_set_vm_id|].
    intros; apply keeps_ret.
Qed.

Lemma keeps_cooldown_respecte : keeps tier (cooldown_respecte cd clk).
Proof.
  intros w. rewrite cooldown_respecte_run.
  destruct (float_sub_num _ _) as [te|e]; [|done].
  destruct (lt _ _); [|done]. by destruct (num_sub_float _ _).
Qed.

Lemma keeps_attendre_boucle fuel serveur statut_cible timeout debut :
  keeps tier (attendre_boucle clk fuel serveur statut_cible timeout debut).
Proof.
  induction fuel as [|fuel IH]; simpl; [apply keeps_unfinished|].
  apply keeps_bind; [apply steady_keeps, steady_time_time|]. intros t.
  destruct (lt _ _); [|apply keeps_ret].
  apply keeps_bind; [apply keeps_call|]. intros statut.
  destruct (String.eqb statut statut_cible); [apply keeps_ret|].
  destruct (String.eqb statut "ERROR"); [apply keeps_ret|].
  apply keeps_bind; [apply steady_keeps, steady_time_sleep|]. by intros.
Qed.

Lemma keeps_attendre_statut fuel serveur statut_cible timeout :
  keeps tier (_attendre_statut clk fuel serveur statut_cible timeout).
Proof.
  apply keeps_bind; [apply steady_keeps, steady_time_time|].
  intros. apply keeps_attendre_boucle.
Qed.

Lemma effectuer_resize_tier fuel vm_name nouveau x :
  hoare (fun w => tier w = x)
        (effectuer_resize cd clk fuel vm_name nouveau)
        (only_committed x).
Proof.
  set (I0 := fun w : world => tier w = x).
  assert (Htriv : ∀ s s' o, I0 s → tier s' = tier s → only_committed x s' o).
  { intros s s' o Hs Hv. left. unfold I0 in Hs. congruence. }
  assert (Hkeep : ∀ s s' : world, I0 s → tier s' = tier s → I0 s').
  { unfold I0. intros; congruence. }
  assert (Hend : ∀ r, committed r →
            hoare (fun _ => True)
              (t ← time_time clk; set_last_scaling_time (PFloat t);; mret r)
              (only_committed x)).
  { intros r Hr s _. right. exists r. by split. }
  unfold effectuer_resize.
  apply hoare_bind with (R := fun _ => I0).
  { apply hoare_get. done. }
  intros w. destruct (String.eqb _ _).
  { apply hoare_ret. intros s Hs. by apply (Htriv s). }
  apply hoare_bind with (R := fun _ => I0).
  { apply (hoare_keeps_to tier); eauto using keeps_cooldown_respecte. }
  intros ok. destruct (negb ok).
  { apply hoare_ret. intros s Hs. by apply (Htriv s). }
  apply hoare_bind with (R := fun _ => I0).
  { apply hoare_get. done. }
  intros w'. destruct (hors_ligne w').
  - (* the simulated path *)
    unfold _simuler_resize.
    apply hoare_bind with (R := fun _ => I0).
    { apply (hoare_steady_to tier); eauto using steady_time_sleep. }
    intros _. apply hoare_bind with (R := fun _ _ => True).
    { apply hoare_modify. done. }
    intros _. apply Hend. by right.
  - (* the live path *)
    unfold _resize_openstack.
    apply hoare_try_except with (R := fun _ => I0).
    2: { intros e. apply hoare_ret. intros s Hs. by apply (Htriv s). }
    set (Q := fun (s : world) (o : outcome resultat) =>
                match o with Raised _ => I0 s | _ => only_committed x s o end).
    assert (HQ : ∀ s s' o, I0 s → tier s' = tier s → Q s' o).
    { intros s s' [r|e|] Hs Hv; simpl; eauto. }
    apply hoare_bind with (R := fun _ => I0).
    { apply hoare_get. done. }
    intros w1. apply hoare_bind with (R := fun _ => I0).
    { case_bool_decide.
      - apply hoare_bind with (R := fun _ => I0).
        + apply (hoare_keeps_to tier);
            [apply keeps_recuperer_vm_id|eauto|..]; intros; simpl; eauto.
        + intros v. apply (hoare_steady_to tier); eauto using steady_set_vm_id.
      - apply hoare_ret. done. }
    intros _. apply hoare_bind with (R := fun _ => I0).
    { apply hoare_get. done. }
    intros w2. destruct (vm_id (_state w2)) as [id|].
    2: { apply hoare_ret. intros s Hs. by apply (HQ s). }
    apply hoare_bind with (R := fun _ => I0).
    { apply (hoare_keeps_to tier); eauto using keeps_call. }
    intros flavors. destruct (List.find _ flavors) as [flavor_obj|].
    2: { apply hoare_ret. intros s Hs. by apply (HQ s). }
    apply hoare_bind with (R := fun _ => I0).
    { apply (hoare_keeps_to tier); eauto using keeps_call. }
    intros serveur. apply hoare_bind with (R := fun _ => I0).
    { apply (hoare_keeps_to tier); eauto using keeps_call. }
    intros _. apply hoare_bind with (R := fun _ => I0).
    { apply (hoare_keeps_to tier); eauto using keeps_attendre_statut. }
    intros _. apply hoare_bind with (R := fun _ => I0).
    { apply (hoare_keeps_to tier); eauto using keeps_call. }
    intros _. apply hoare_bind with (R := fun _ _ => True).
    { apply hoare_modify. done. }
    intros _. intros s _. simpl. right. eexists. split; [done|by left].
Qed.

(** With what the result itself tells. *)
Lemma effectuer_resize_spec fuel vm_name nouveau x :
  hoare (fun w => tier w = x)
        (effectuer_resize cd clk fuel vm_name nouveau)
        (fun w' o => only_committed x w' o ∧ ∀ r, o = Val r → issue r).
Proof.
  intros w Hw. split; [by apply effectuer_resize_tier|].
  intros r Hr. eapply effectuer_resize_issue.
  by rewrite (surjective_pairing (effectuer_resize _ _ _ _ _ w)), Hr.
Qed.

End Keeps.

(** ** The number of iterations granted to the polling loop

    More iterations change nothing for a call that came to an end. *)

Section Fuel.

Variables (cd : Z) (clk : clock).

Lemma attendre_boucle_extends fuel fuel' serveur statut_cible timeout debut :
  (fuel ≤ fuel')%nat →
  extends (attendre_boucle clk fuel serveur statut_cible timeout debut)
          (attendre_boucle clk fuel' serveur statut_cible timeout debut).
Proof.
  revert fuel'. induction fuel as [|fuel IH]; intros fuel' Hle; simpl.
  { apply extends_unfinished. }
  destruct fuel' as [|fuel']; [lia|]. simpl.
  apply extends_bind; [apply extends_refl|]. intros t.
  destruct (lt _ _); [|apply extends_refl].
  apply extends_bind; [apply extends_refl|]. intros statut.
  destruct (String.eqb statut statut_cible); [apply extends_refl|].
  destruct (String.eqb statut "ERROR"); [apply extends_refl|].
  apply extends_bind; [apply extends_refl|]. intros _. apply IH. lia.
Qed.

Lemma effectuer_resize_extends fuel fuel' vm_name nouveau :
  (fuel ≤ fuel')%nat →
  extends (effectuer_resize cd clk fuel vm_name nouveau)
          (effectuer_resize cd clk fuel' vm_name nouveau).
Proof.
  intros Hle. unfold effectuer_resize.
  apply extends_bind; [apply extends_refl|]. intros w.
  destruct (String.eqb _ _); [apply extends_refl|].
  apply extends_bind; [apply extends_refl|]. intros ok.
  destruct (negb ok); [apply extends_refl|].
  apply extends_bind; [apply extends_refl|]. intros w'.
  destruct (hors_ligne w'); [apply extends_refl|].
  unfold _resize_openstack. apply extends_try_except.
  apply extends_bind; [apply extends_refl|]. intros w1.
  apply extends_bind; [apply extends_refl|]. intros _.
  apply extends_bind; [apply extends_refl|]. intros w2.
  destruct (vm_id (_state w2)); [|apply extends_refl].
  apply extends_bind; [apply extends_refl|]. intros flavors.
  destruct (List.find _ flavors); [|apply extends_refl].
  apply extends_bind; [apply extends_refl|]. intros serveur.
  apply extends_bind; [apply extends_refl|]. intros _.
  apply extends_bind; [|intros; apply extends_refl].
  unfold _attendre_statut.
  apply extends_bind; [apply extends_refl|]. intros debut.
  by apply attendre_boucle_extends.
Qed.

End Fuel.

(** ** The wait whose answer is not read *)

(** C1: on the live path, with a server whose status stays [ERROR], or
    stays [RESIZE] until the 120 seconds are over, and a Nova service that
    accepts the confirmation, [effectuer_resize] polls, calls
    [confirm_resize] all the same, returns the outcome [resized] with
    [success = True], and writes the new flavor and a new cooldown
    timestamp: the answer of [_attendre_statut] is never looked at. *)
Theorem resize_confirmed_after_failed_wait :
  Scenario.resized_despite "ERROR" ∧ Scenario.resized_despite "RESIZE".
Proof.
  split; unfold Scenario.resized_despite; cbv zeta; split_and!.
  all: try (vm_compute; reflexivity).
  all: try (vm_compute; discriminate).
  all: apply (bool_decide_unpack _); vm_compute; exact I.
Qed.

End heat_client_facts.

(* ================================================================== *)
(** * adapter.py: properties                                            *)
(* ================================================================== *)

Module adapter_facts.
Import Py Runtime adapter Spec Logic LogicFacts.

Section Facts.

Variables (tok : string) (cd : Z) (vm_nom : string) (clk : clock).

(** ** The journal *)

Lemma ajouter_log_run message type_log a :
  ajouter_log clk message type_log a =
    (mk_app (heat_client.record (EvStrftime "%H:%M") (heat a))
       (mk_state (state_vm (st a)) (policies (st a))
          (take 50 (mk_log (strftime_at clk (heat_client.trace (heat a)) "%H:%M")
                           type_log message :: logs (st a)))
          (state_stats (st a))),
     Val tt).
Proof.
  unfold ajouter_log. run. case_bool_decide as Hlen; simpl.
  - reflexivity.
  - rewrite take_ge; [done|]. simpl in *. lia.
Qed.

(** C10: after [ajouter_log] the journal holds at most 50 entries and the
    new entry is at its head: the journal is the first 50 entries of the
    new entry followed by the old journal. *)
Theorem ajouter_log_bounded message type_log a :
  let entry := mk_log (strftime_at clk (heat_client.trace (heat a)) "%H:%M")
                      type_log message in
  let a' := (ajouter_log clk message type_log a).1 in
  (length (logs (st a')) ≤ 50)%nat
  ∧ head (logs (st a')) = Some entry
  ∧ logs (st a') = take 50 (entry :: logs (st a)).
Proof.
  intros entry a'. subst a'. rewrite ajouter_log_run. simpl.
  split; [|done]. rewrite length_take.
  pose proof (Nat.le_min_l 49 (length (logs (st a)))). lia.
Qed.

(** ** The current flavor *)

Lemma vue_eq a a' :
  vue a' = vue a →
  state_vm (st a') = state_vm (st a)
  ∧ tier (heat a') = tier (heat a).
Proof.
  intros Hv. split; [exact (f_equal fst Hv)|exact (f_equal snd Hv)].
Qed.

Lemma steady_set_stats f : steady vue (set_stats f).
Proof. by apply steady_modify. Qed.

Lemma steady_ajouter_log message type_log :
  steady vue (ajouter_log clk message type_log).
Proof. intros a. rewrite ajouter_log_run. by eexists _, _. Qed.

Lemma steady_time_strftime fmt : steady vue (time_strftime clk fmt).
Proof. intros a. by eexists _, _. Qed.

Lemma steady_lift_time_time : steady vue (lift (heat_client.time_time clk)).
Proof. intros a. by eexists _, _. Qed.

Lemma emettre_metriques_run a :
  numeric (state_vm (st a)) →
  emettre_metriques a =
    (mk_app (heat_client.record (EvEmit "metrics_update") (heat a)) (st a), Val tt).
Proof.
  intros [[c Hc] [r Hr]]. unfold emettre_metriques. run.
  by rewrite Hc, Hr.
Qed.

Lemma success_committed r :
  issue r →
  heat_client.success r
    && negb (bool_decide (heat_client.action r ∈ ["none"; "cooldown"])) = true →
  committed r.
Proof.
  unfold issue, committed.
  intros H Hc. apply andb_true_iff in Hc as [Hs Hn].
  apply negb_true_iff, bool_decide_eq_false in Hn.
  destruct H as [[Ha _]|[[Ha _]|[[Ha _]|[[Ha _]|[_ Hf]]]]]; auto.
  - exfalso. apply Hn. rewrite Ha. set_solver.
  - exfalso. apply Hn. rewrite Ha. set_solver.
  - congruence.
Qed.

(** A call into [heat_client] leaves [state] alone. *)
Lemma hoare_lift {A B} (m : M heat_client.world A) Ph Qh
    (P : app → Prop) (R : A → app → Prop) (Q : app → outcome B → Prop) :
  hoare Ph m Qh →
  (∀ s, P s → Ph (heat s)) →
  (∀ s h' a, P s → Qh h' (Val a) → R a (mk_app h' (st s))) →
  (∀ s h' e, P s → Qh h' (Raised e) → Q (mk_app h' (st s)) (Raised e)) →
  (∀ s h', P s → Qh h' Unfinished → Q (mk_app h' (st s)) Unfinished) →
  hoare P (lift m) (passes R Q).
Proof.
  unfold hoare, passes, lift. intros Hm HP HR He Hu s Hs.
  specialize (Hm (heat s) (HP s Hs)).
  destruct (m (heat s)) as [h' [a|e|]]; simpl in *; eauto.
Qed.

(** [valider_alerte] as the program runs it ends as the function of
    [validator] does with the reading of the clock; the clock has been
    read or nothing has happened. *)
Lemma valider_alerte_run d a :
  ∃ a',
    valider_alerte tok clk d a
    = of_res (validator.valider_alerte tok
                (time_at clk (heat_client.trace (heat a))) d) a'
    ∧ (a' = a ∨ a' = mk_app (heat_client.record EvTime (heat a)) (st a)).
Proof.
  unfold valider_alerte, validator.valider_alerte.
  destruct (bool_decide (size d = 0%nat)); [by exists a; split; [|left]|].
  destruct (List.find _ _); [by exists a; split; [|left]|].
  unfold getitem.
  destruct (d !! "token") as [token|]; [|by exists a; split; [|left]].
  rewrite bind_run. simpl.
  destruct (validator.differs token tok); [by exists a; split; [|left]|].
  destruct (d !! "cpu") as [cpu|]; [|by exists a; split; [|left]].
  rewrite bind_run. simpl.
  destruct (as_num cpu) as [c|]; [|by exists a; split; [|left]].
  destruct (negb _); [by exists a; split; [|left]|].
  destruct (d !! "ram") as [ram|]; [|by exists a; split; [|left]].
  rewrite bind_run. simpl.
  destruct (as_num ram) as [r|]; [|by exists a; split; [|left]].
  destruct (negb _); [by exists a; split; [|left]|].
  destruct (d !! "timestamp") as [timestamp|]; [|by exists a; split; [|left]].
  rewrite bind_run. simpl. rewrite bind_run. simpl.
  exists (mk_app (heat_client.record EvTime (heat a)) (st a)).
  split; [|by right].
  destruct (float_sub _ timestamp) as [age|e]; [|done].
  rewrite bind_run. simpl.
  destruct (gt _ _); [done|]. destruct (lt _ _); [done|].
  destruct (d !! "source") as [source|]; [|done].
  rewrite bind_run. simpl.
  by destruct (validator.unidentified source).
Qed.

Lemma recevoir_alerte_hoare fuel data x y :
  hoare (untouched x y)
        (recevoir_alerte tok cd vm_nom clk fuel data)
        (only_by_resize x y).
Proof.
  set (I0 := untouched x y).
  assert (Hkeep : ∀ s s', I0 s → vue s' = vue s → I0 s').
  { unfold I0, untouched. intros s s' [? ?] [Hv1 Hv2]%vue_eq. by rewrite Hv1, Hv2. }
  assert (Htriv : ∀ s s' o, I0 s → vue s' = vue s → only_by_resize x y s' o).
  { intros s s' o Hs Hv. left. by apply (Hkeep s). }
  unfold recevoir_alerte.
  apply hoare_bind with (R := fun _ => I0).
  { apply (hoare_steady_to vue); eauto using steady_set_stats. }
  intros _.
  destruct data as [|b|z|f|str|l|d];
    try (apply hoare_throw; intros s Hs; by apply (Htriv s)).
  apply hoare_bind
    with (R := fun v a => I0 a ∧ ∃ now, validator.valider_alerte tok now d = inl v).
  { intros s Hs. destruct (valider_alerte_run d s) as (s' & Hrun & Hs').
    rewrite Hrun.
    assert (Hv : vue s' = vue s) by (by destruct Hs' as [->| ->]).
    destruct (validator.valider_alerte tok _ d) as [v|e] eqn:Hval; simpl.
    - split; [by apply (Hkeep s)|by eexists].
    - by apply (Htriv s). }
  intros [valide raison]. destruct valide; simpl.
  2: { (* a rejected alert *)
    apply hoare_bind with (R := fun _ => I0).
    { apply (hoare_steady_to vue); [apply steady_set_stats|].
      intros ??? [? _]; eauto. }
    intros _. apply hoare_bind with (R := fun _ => I0).
    { apply (hoare_steady_to vue); eauto using steady_ajouter_log. }
    intros _. apply hoare_ret. intros s Hs. by apply (Htriv s). }
  (* an accepted alert *)
  apply hoare_bind
    with (R := fun _ a => I0 a
                          ∧ ∃ now, validator.valider_alerte tok now d
                                   = inl (true, raison)).
  { apply (hoare_steady_to vue); [apply steady_set_stats|].
    intros ??? [? ?] ?. split; eauto. }
  intros _.
  apply hoare_bind
    with (R := fun data_cpu a => I0 a ∧ is_Some (as_num data_cpu)
                                 ∧ ∃ now, validator.valider_alerte tok now d
                                          = inl (true, raison)).
  { apply hoare_of_res. intros s [Hs [now Hv]].
    destruct (validator_facts.valider_alerte_accepte _ _ _ _ Hv)
      as (cpu & ram & c & r & Hcpu & Hc & _ & _ & _).
    unfold getitem. rewrite Hcpu. simpl. split_and!; [done| |by exists now].
    rewrite Hc. by eexists. }
  intros data_cpu.
  apply hoare_bind
    with (R := fun data_ram a => I0 a ∧ is_Some (as_num data_cpu)
                                 ∧ is_Some (as_num data_ram)).
  { apply hoare_of_res. intros s (Hs & Hcpu & now & Hv).
    destruct (validator_facts.valider_alerte_accepte _ _ _ _ Hv)
      as (cpu & ram & c & r & _ & _ & _ & _ & Hram & Hr & _).
    unfold getitem. rewrite Hram. simpl. split_and!; [done|done|].
    rewrite Hr. by eexists. }
  intros data_ram.
  apply hoare_bind
    with (R := fun _ a => I0 a ∧ is_Some (as_num data_cpu)
                          ∧ is_Some (as_num data_ram)).
  { apply (hoare_steady_to vue); [apply steady_time_strftime|].
    intros ??? (? & ? & ?) ?. split; eauto. }
  intros t.
  set (I1 := fun a : app => I0 a ∧ numeric (state_vm (st a))).
  assert (Hkeep1 : ∀ s s', I1 s → vue s' = vue s → I1 s').
  { unfold I1. intros s s' [? ?] Hv. split; [by apply (Hkeep s)|].
    apply vue_eq in Hv as [-> _]. done. }
  apply hoare_bind with (R := fun _ => I1).
  { apply hoare_modify. intros s ([Hs1 Hs2] & Hcpu & Hram). by repeat split. }
  intros _.
  apply hoare_bind with (R := fun _ => I1).
  { apply hoare_of_res. intros s Hs.
    destruct (as_num data_cpu); simpl; [done|].
    destruct Hs as [Hs _]. by apply (Htriv s). }
  intros c.
  apply hoare_bind with (R := fun _ => I1).
  { apply hoare_get. done. }
  intros a.
  set (action := validator.determiner_action c (policies (st a))).
  set (I2 := fun (resultat : option heat_client.resultat) (s : app) =>
               numeric (state_vm (st s))
               ∧ (I0 s ∨ ∃ r, resultat = Some r ∧ action ≠ "none"
                              ∧ committed r)).
  apply hoare_bind with (R := I2).
  2: { (* the emission and the reply *)
    intros resultat.
    apply hoare_bind with (R := fun _ => I2 resultat).
    { intros s Hs. rewrite emettre_metriques_run by apply Hs. simpl. apply Hs. }
    intros _. apply hoare_bind with (R := fun _ => I2 resultat).
    { apply hoare_get. done. }
    intros a'. apply hoare_ret. intros s [_ [Hs|(r & -> & Hact & Hr)]].
    - by left.
    - right. by eexists _, _, _. }
  destruct (negb (String.eqb action "none")) eqn:Hact.
  2: { (* no scaling *)
    apply hoare_bind with (R := fun _ => I1).
    { apply (hoare_steady_to vue); eauto using steady_ajouter_log. }
    intros _. apply hoare_ret. intros s [Hs Hn]. split; [done|by left]. }
  apply negb_true_iff, String.eqb_neq in Hact.
  (* the resize *)
  set (I3 := fun (r : heat_client.resultat) (s : app) =>
               numeric (state_vm (st s)) ∧ issue r
               ∧ current_flavor (state_vm (st s)) = x
               ∧ (tier (heat s) = y
                  ∨ committed r)).
  assert (Hkeep3 : ∀ r s s', I3 r s → vue s' = vue s → I3 r s').
  { unfold I3. intros r s s' H [Hv1 Hv2]%vue_eq. by rewrite Hv1, Hv2. }
  apply hoare_bind with (R := I3).
  { eapply hoare_lift.
    - apply (heat_client_facts.effectuer_resize_spec cd clk fuel vm_nom _ y).
    - intros s [[_ Hs] _]. exact Hs.
    - intros s h' r [[Hs _] Hn] [Ht Hi]. unfold I3. simpl.
      split_and!; [done|by apply Hi|done|].
      destruct Ht as [Ht|(r' & [= <-] & Hr)]; [by left|by right].
    - intros s h' e [[Hs _] _] [[Ht|(r' & [=] & _)] _]. by left.
    - intros s h' [[Hs _] _] [[Ht|(r' & [=] & _)] _]. by left. }
  intros r.
  assert (Hfin : ∀ s, I3 r s → I2 (Some r) s).
  { intros s (Hn & Hi & Hx & [Hy|Hr]); (split; [done|]).
    - by left.
    - right. by exists r. }
  apply hoare_bind with (R := fun _ => I2 (Some r)).
  2: { intros _. apply hoare_ret. intros s Hs. done. }
  destruct (heat_client.success r && _) eqn:Hc.
  - (* the resize is committed *)
    set (I4 := fun s : app =>
                 numeric (state_vm (st s)) ∧ committed r).
    assert (Hkeep4 : ∀ s s', I4 s → vue s' = vue s → I4 s').
    { unfold I4. intros s s' H [Hv1 Hv2]%vue_eq. by rewrite Hv1. }
    apply hoare_bind with (R := fun _ => I4).
    { apply hoare_modify. intros s (Hn & Hi & _). split; [apply Hn|].
      by apply success_committed. }
    intros _.
    apply hoare_bind with (R := fun _ => I4).
    { apply (hoare_steady_to vue); eauto using steady_set_stats. }
    intros _.
    apply (hoare_steady_to vue); [apply steady_ajouter_log|].
    intros s s' _ Hs Hv. apply (Hkeep4 _ _ Hs) in Hv as [? ?].
    split; [done|]. right. by exists r.
  - destruct (String.eqb _ "cooldown");
      (apply (hoare_steady_to vue); [apply steady_ajouter_log|]);
      intros s s' _ Hs Hv; apply Hfin; by apply (Hkeep3 r s).
Qed.

(** C3: a call of [recevoir_alerte] changes [state["vm"]["current_flavor"]]
    (or the flavor kept by [heat_client]) only when the alert was accepted,
    the decision was not ["none"], and [effectuer_resize] returned an
    outcome whose action is ["resized"] or ["simulated"]; a rejected alert,
    a decision alone, and the outcomes ["none"], ["cooldown"] and ["error"]
    leave it as it was. *)
Theorem current_flavor_changes_only_by_resize fuel data a :
  current_flavor (state_vm (st (recevoir_alerte tok cd vm_nom clk fuel data a).1))
    ≠ current_flavor (state_vm (st a))
  ∨ heat_client.current_flavor
      (heat_client._state (heat (recevoir_alerte tok cd vm_nom clk fuel data a).1))
    ≠ heat_client.current_flavor (heat_client._state (heat a)) →
  ∃ action flavor r,
    (recevoir_alerte tok cd vm_nom clk fuel data a).2
      = Val (Accepte action flavor, Some r)
    ∧ action ≠ "none"
    ∧ (heat_client.action r = "resized" ∨ heat_client.action r = "simulated").
Proof.
  intros Hne.
  destruct (recevoir_alerte_hoare fuel data
              (current_flavor (state_vm (st a)))
              (tier (heat a)) a) as [[Hx Hy]|H]; [done| |done].
  destruct Hne as [Hne|Hne]; [done|].
  unfold tier in Hy. congruence.
Qed.

Lemma extends_lift {A} (m m' : M heat_client.world A) :
  extends m m' → extends (lift m) (lift m').
Proof.
  intros H a. unfold lift. specialize (H (heat a)).
  destruct (m (heat a)) as [h o]; simpl in *. intros Ho. by rewrite H.
Qed.

Lemma recevoir_alerte_extends fuel fuel' data :
  (fuel ≤ fuel')%nat →
  extends (recevoir_alerte tok cd vm_nom clk fuel data)
          (recevoir_alerte tok cd vm_nom clk fuel' data).
Proof.
  intros Hle. unfold recevoir_alerte.
  apply extends_bind; [apply extends_refl|]. intros _.
  destruct data as [|b|z|f|str|l|d];
    [apply extends_refl|apply extends_refl|apply extends_refl
    |apply extends_refl|apply extends_refl|apply extends_refl|].
  apply extends_bind; [apply extends_refl|]. intros [valide raison].
  destruct (negb valide); [apply extends_refl|].
  do 7 (apply extends_bind; [apply extends_refl|]; intros ?).
  cbv zeta. apply extends_bind; [|intros; apply extends_refl].
  destruct (negb _); [|apply extends_refl].
  apply extends_bind; [|intros; apply extends_refl].
  by apply extends_lift, heat_client_facts.effectuer_resize_extends.
Qed.

End Facts.
End adapter_facts.

(* ================================================================== *)
(** * The statements at work on concrete situations                     *)
(* ================================================================== *)

Module Witnesses.
Import Py Runtime Spec Scenario.

(** The default policy, with a CPU load on the upper threshold. *)
Lemma determiner_action_thresholds_witness :
  le (scale_down_threshold policies) (scale_up_threshold policies) = true
  ∧ (validator.determiner_action (PInt 80) policies = "scale_up"
       ↔ gt (PInt 80) (scale_up_threshold policies) = true)
  ∧ (validator.determiner_action (PInt 80) policies = "scale_down"
       ↔ lt (PInt 80) (scale_down_threshold policies) = true)
  ∧ (validator.determiner_action (PInt 80) policies = "none"
       ↔ gt (PInt 80) (scale_up_threshold policies) = false
         ∧ lt (PInt 80) (scale_down_threshold policies) = false)
  ∧ (num_val (PInt 80) = num_val (scale_up_threshold policies)
       ∨ num_val (PInt 80) = num_val (scale_down_threshold policies)
       → validator.determiner_action (PInt 80) policies = "none").
Proof.
  split.
  - vm_compute. reflexivity.
  - apply (validator_facts.determiner_action_thresholds (PInt 80) policies).
    vm_compute. reflexivity.
Defined.

(** One step up from the first tier of the catalog. *)
Lemma determiner_nouveau_flavor_catalog_witness :
  catalog !! 0%nat = Some "m1.small"
  ∧ (1 < length catalog)%nat
  ∧ catalog !! 1%nat = Some (validator.determiner_nouveau_flavor "scale_up" "m1.small").
Proof.
  split; [reflexivity|]. split; [simpl; lia|].
  apply (proj1 (proj2 (proj2 validator_facts.determiner_nouveau_flavor_catalog))
           0%nat "m1.small"); [reflexivity|simpl; lia].
Defined.

(** A wrong token with a CPU load out of range. *)
Lemma valider_alerte_order_witness :
  (∀ champ, champ ∈ validator.required_fields →
     contains alerte_mauvais_token champ = true)
  ∧ alerte_mauvais_token !! "token" = Some (VStr "guess")
  ∧ validator.differs (VStr "guess") SECRET_TOKEN = true
  ∧ validator.valider_alerte SECRET_TOKEN debut alerte_mauvais_token
    = mret (false, validator.r_token).
Proof.
  assert (H : ∀ champ, champ ∈ validator.required_fields →
                contains alerte_mauvais_token champ = true).
  { apply validator_facts.required_fields_present. vm_compute. reflexivity. }
  split; [exact H|]. split; [vm_compute; reflexivity|].
  split; [vm_compute; reflexivity|].
  apply (proj2 (validator_facts.valider_alerte_order SECRET_TOKEN debut
                  alerte_mauvais_token) (VStr "guess") H);
    vm_compute; reflexivity.
Defined.





(** A CPU load of 85 on [m1.small], in simulation: the flavor changes. *)
Lemma current_flavor_changes_only_by_resize_witness :
  (adapter.current_flavor
     (adapter.state_vm
        (adapter.st (adapter.recevoir_alerte SECRET_TOKEN 120 "heat-vm-01" horloge
                       30 (alerte 85) depart).1))
   ≠ adapter.current_flavor (adapter.state_vm (adapter.st depart)))
  ∧ ∃ action flavor r,
      (adapter.recevoir_alerte SECRET_TOKEN 120 "heat-vm-01" horloge 30
         (alerte 85) depart).2
        = Val (adapter.Accepte action flavor, Some r)
      ∧ action ≠ "none"
      ∧ (heat_client.action r = "resized" ∨ heat_client.action r = "simulated").
Proof.
  split; [vm_compute; discriminate|].
  apply (adapter_facts.current_flavor_changes_only_by_resize SECRET_TOKEN 120
           "heat-vm-01" horloge 30 (alerte 85) depart).
  left. vm_compute. discriminate.
Defined.

End Witnesses.

(* ================================================================== *)
(** * validator.py: further properties                                  *)
(* ================================================================== *)

Module validator_more.
Import Py validator Spec Notions PyFacts validator_facts.

(** ** Acceptance *)

(** What [valider_alerte] does once the first five checks pass. *)
Lemma valider_alerte_after_metrics tok now data :
  metrics_ok tok data →
  valider_alerte tok now data =
    match data !! "timestamp" with
    | None => raise (KeyError "timestamp")
    | Some timestamp =>
        match float_sub now timestamp with
        | inr e => raise e
        | inl age =>
            if gt (PFloat age) max_age_seconds then mret (false, r_ancienne age)
            else if lt (PFloat age) (PInt 0) then mret (false, r_futur)
            else match data !! "source" with
                 | None => raise (KeyError "source")
                 | Some source =>
                     if unidentified source then mret (false, r_source)
                     else mret (true, r_ok)
                 end
        end
    end.
Proof.
  intros (Hall & Htoken & (cpu & c & Hcpu & Hc & Hc0 & Hc1)
          & (ram & r & Hram & Hr & Hr0 & Hr1)).
  unfold valider_alerte.
  rewrite (present_non_empty data "token") by (apply Hall; set_solver).
  rewrite (proj2 (required_fields_present data) Hall).
  unfold getitem. rewrite Htoken, Hcpu, Hram. simpl.
  rewrite String.eqb_refl. simpl. rewrite Hc. unfold cpu_min, cpu_max.
  rewrite Hc0, Hc1. simpl. rewrite Hr. unfold ram_min, ram_max.
  rewrite Hr0, Hr1. simpl.
  destruct (data !! "timestamp") as [timestamp|]; [|done]. simpl.
  destruct (float_sub now timestamp) as [age|e]; [|done]. simpl.
  destruct (gt _ _); [done|]. destruct (lt _ _); [done|].
  by destruct (data !! "source").
Qed.

(** An accepted alert passed the first five checks. *)
Lemma accepted_metrics_ok tok now data reason :
  valider_alerte tok now data = inl (true, reason) → metrics_ok tok data.
Proof.
  intros H. pose proof H as H'. unfold valider_alerte in H'.
  destruct (bool_decide (size data = 0%nat)); [done|].
  destruct (List.find _ required_fields) as [champ|] eqn:Hfind; [done|].
  clear H'. assert (Hall := proj1 (required_fields_present data) Hfind).
  destruct (valider_alerte_accepte _ _ _ _ H)
    as (cpu & ram & c & r & ? & ? & ? & ? & ? & ? & ? & ? & ?).
  split; [exact Hall|]. split; [done|]. split; [by exists cpu, c|by exists ram, r].
Qed.

(** An alert that passes every check is accepted. *)
Lemma valider_alerte_accepts tok now data :
  metrics_ok tok data → fresh now data → identified data →
  valider_alerte tok now data = inl (true, r_ok).
Proof.
  intros Hm (timestamp & age & Hts & Hage & Hold & Hfut) (source & Hsrc & Hb).
  rewrite (valider_alerte_after_metrics _ _ _ Hm), Hts, Hage.
  unfold max_age_seconds. rewrite Hold, Hfut, Hsrc. simpl. by rewrite Hb.
Qed.

(** X1: [valider_alerte] accepts an alert exactly when every required
    field is present, the token is the shared secret, CPU and RAM are
    numbers of [0, 100], the age [now - timestamp] is defined and neither
    above 60 seconds nor negative, and the source is a non-blank string;
    the reason that comes with an acceptance is always ["OK"]. *)
Theorem valider_alerte_accepts_iff tok now data :
  (∀ reason, valider_alerte tok now data = inl (true, reason) → reason = r_ok)
  ∧ (valider_alerte tok now data = inl (true, r_ok)
     ↔ metrics_ok tok data ∧ fresh now data ∧ identified data).
Proof.
  assert (Hfwd : ∀ reason, valider_alerte tok now data = inl (true, reason) →
            reason = r_ok ∧ metrics_ok tok data ∧ fresh now data ∧ identified data).
  { intros reason H. pose proof (accepted_metrics_ok _ _ _ _ H) as Hm.
    rewrite (valider_alerte_after_metrics _ _ _ Hm) in H.
    destruct (data !! "timestamp") as [timestamp|] eqn:Hts; [|done].
    destruct (float_sub now timestamp) as [age|e] eqn:Hage; [|done].
    destruct (gt _ _) eqn:Hold; [done|]. destruct (lt _ _) eqn:Hfut; [done|].
    destruct (data !! "source") as [source|] eqn:Hsrc; [|done].
    destruct (unidentified source) eqn:Hid; [done|].
    injection H as <-. split; [done|]. split; [done|]. split.
    - by exists timestamp, age.
    - destruct source; try done. by eexists. }
  split; [intros reason H; by apply Hfwd in H as [? _]|].
  split; [intros H; by apply Hfwd in H as [_ ?]|].
  intros (Hm & Hf & Hi). by apply valider_alerte_accepts.
Qed.

(** ** Rejections *)

(** What [valider_alerte] does once the first three checks pass. *)
Lemma valider_alerte_after_token tok now data cpu :
  authentic tok data → data !! "cpu" = Some cpu →
  valider_alerte tok now data =
    match as_num cpu with
    | None => mret (false, r_cpu_type)
    | Some c =>
        if negb (le cpu_min c && le c cpu_max) then mret (false, r_cpu_range cpu)
        else
          ram ← getitem data "ram";
          match as_num ram with
          | None => mret (false, r_ram_type)
          | Some r =>
              if negb (le ram_min r && le r ram_max)
              then mret (false, r_ram_range ram)
              else
                timestamp ← getitem data "timestamp";
                age ← float_sub now timestamp;
                if gt (PFloat age) max_age_seconds then mret (false, r_ancienne age)
                else if lt (PFloat age) (PInt 0) then mret (false, r_futur)
                else
                  source ← getitem data "source";
                  if unidentified source then mret (false, r_source)
                  else mret (true, r_ok)
          end
    end.
Proof.
  intros [Hall Htoken] Hcpu. unfold valider_alerte.
  rewrite (present_non_empty data "token") by (apply Hall; set_solver).
  rewrite (proj2 (required_fields_present data) Hall).
  unfold getitem. rewrite Htoken, Hcpu. simpl.
  by rewrite String.eqb_refl.
Qed.

(** X2: once all required fields are present and the token is right, a
    CPU value that is not a number is rejected as such, and a CPU number
    outside [0, 100] (a NaN included) is rejected with the range reason
    that quotes it; the same holds for the RAM when the CPU is accepted.
    Neither depends on the time or on the fields checked later. *)
Theorem valider_alerte_metric_rejections tok now data cpu ram :
  authentic tok data →
  data !! "cpu" = Some cpu → data !! "ram" = Some ram →
  (as_num cpu = None → valider_alerte tok now data = mret (false, r_cpu_type))
  ∧ (is_Some (as_num cpu) → in_range cpu = false →
       valider_alerte tok now data = mret (false, r_cpu_range cpu))
  ∧ (in_range cpu = true → as_num ram = None →
       valider_alerte tok now data = mret (false, r_ram_type))
  ∧ (in_range cpu = true → is_Some (as_num ram) → in_range ram = false →
       valider_alerte tok now data = mret (false, r_ram_range ram)).
Proof.
  intros Hauth Hcpu Hram.
  rewrite (valider_alerte_after_token _ _ _ _ Hauth Hcpu).
  unfold in_range, getitem, cpu_min, cpu_max, ram_min, ram_max.
  rewrite Hram. simpl.
  split; [by intros ->|]. split; [intros [c ->] ->; done|].
  destruct (as_num cpu) as [c|]; [|by split].
  split.
  - intros -> ->. done.
  - intros -> [r ->] ->. done.
Qed.

(** X3: an alert that passes the first five checks and whose age
    [now - timestamp] is above 60 seconds is rejected as too old, with the
    age in the reason; one whose age is negative is rejected as coming
    from the future.  The two reasons differ. *)
Theorem valider_alerte_freshness tok now data timestamp age :
  metrics_ok tok data →
  data !! "timestamp" = Some timestamp →
  float_sub now timestamp = inl age →
  (gt (PFloat age) (PInt 60) = true →
     valider_alerte tok now data = mret (false, r_ancienne age))
  ∧ (lt (PFloat age) (PInt 0) = true →
     valider_alerte tok now data = mret (false, r_futur))
  ∧ r_ancienne age ≠ r_futur.
Proof.
  intros Hm Hts Hage.
  rewrite (valider_alerte_after_metrics _ _ _ Hm), Hts, Hage.
  unfold max_age_seconds. split; [by intros ->|]. split; [|done].
  intros Hfut. rewrite Hfut.
  destruct (gt (PFloat age) (PInt 60)) eqn:Hold; [|done].
  (* above 60 and below 0 at once is impossible *)
  exfalso. unfold gt, lt in *.
  assert (xlt (num_val (PInt 0)) (num_val (PInt 60)) = true) as H060
    by (vm_compute; reflexivity).
  pose proof (xlt_xle_contra _ _ _ Hfut (xlt_xle _ _ H060)) as Hc.
  congruence.
Qed.

(** X4: the freshness check compares with [>] and [<], which a NaN
    never satisfies: an alert that passes the first five checks, names its
    source and carries a NaN timestamp is accepted, at any time. *)
Theorem valider_alerte_nan_timestamp tok now data :
  metrics_ok tok data →
  data !! "timestamp" = Some (VFloat S754_nan) →
  identified data →
  valider_alerte tok now data = mret (true, r_ok).
Proof.
  intros Hm Hts Hid. apply valider_alerte_accepts; [done| |done].
  exists (VFloat S754_nan), S754_nan. split; [done|].
  split; [by destruct now|]. by split.
Qed.

(** X5: an empty payload is rejected as empty; otherwise the fields are
    looked for in the order source, token, cpu, ram, timestamp, and the
    first one that is missing is the one the rejection names, whatever the
    fields after it. *)
Theorem valider_alerte_missing_field tok now data :
  (data = ∅ → valider_alerte tok now data = mret (false, r_vide))
  ∧ (∀ pre champ post,
       data ≠ ∅ →
       required_fields = pre ++ champ :: post →
       (∀ c, c ∈ pre → contains data c = true) →
       contains data champ = false →
       valider_alerte tok now data = mret (false, r_manquant champ)).
Proof.
  split.
  - intros ->. reflexivity.
  - intros pre champ post Hne Hfields Hpre Hchamp. unfold valider_alerte.
    rewrite bool_decide_eq_false_2
      by (intros Hs; by apply map_size_empty_iff in Hs).
    rewrite Hfields. clear Hfields.
    induction pre as [|c pre IH]; simpl.
    + by rewrite Hchamp.
    + rewrite Hpre by set_solver. simpl. apply IH.
      intros c' Hc'. apply Hpre. set_solver.
Qed.

(** ** Exceptions *)

(** When the subtraction of step 6 raises. *)
Lemma float_sub_raises now v e :
  float_sub now v = inr e
  ↔ (as_num v = None ∧ e = TypeError)
    ∨ (∃ n, as_num v = Some n ∧ convertible n = false ∧ e = OverflowError).
Proof.
  unfold float_sub. destruct (as_num v) as [[z|f]|]; simpl.
  - destruct (float_of_Z z) eqn:Hz; split; try done.
    + intros [[? _]|(n & [= <-] & Hn & _)]; [done|]. simpl in Hn. by rewrite Hz in Hn.
    + intros [= <-]. right. exists (PInt z). simpl. by rewrite Hz.
    + intros [[? _]|(n & [= <-] & Hn & ->)]; done.
    + intros [[? _]|(n & [= <-] & Hn & _)]; [done|]. simpl in Hn. by rewrite Hz in Hn.
    + intros [[? _]|(n & [= <-] & Hn & _)]; [done|]. simpl in Hn. by rewrite Hz in Hn.
  - split; [done|]. intros [[? _]|(n & [= <-] & Hn & _)]; done.
  - split.
    + intros [= <-]. by left.
    + intros [[_ ->]|(n & ? & _)]; done.
Qed.

(** An alert that is not rejected passed the first five checks. *)
Lemma not_rejected_metrics_ok tok now data :
  (∀ reason, valider_alerte tok now data ≠ inl (false, reason)) →
  metrics_ok tok data.
Proof.
  intros H. rewrite valider_alerte_first_failure in H.
  unfold checks, check_payload, check_fields, check_token, check_cpu,
    check_ram, check_freshness, check_source in H.
  destruct (bool_decide (size data = 0%nat)); [by destruct (H r_vide)|].
  destruct (List.find _ required_fields) as [champ|] eqn:Hfind;
    [by destruct (H (r_manquant champ))|].
  assert (Hall := proj1 (required_fields_present data) Hfind).
  destruct (required_fields_lookup data Hfind)
    as (source & token & cpu & ram & timestamp
        & Hsource & Htoken & Hcpu & Hram & Hts).
  unfold field in H. rewrite Htoken, Hcpu, Hram in H. simpl in H.
  destruct (differs token tok) eqn:Hd; [by destruct (H r_token)|].
  destruct (as_num cpu) as [c|] eqn:Hc; [|by destruct (H r_cpu_type)].
  destruct (le cpu_min c && le c cpu_max) eqn:Hcr;
    [|by destruct (H (r_cpu_range cpu))].
  destruct (as_num ram) as [r|] eqn:Hr; [|by destruct (H r_ram_type)].
  destruct (le ram_min r && le r ram_max) eqn:Hrr;
    [|by destruct (H (r_ram_range ram))].
  apply andb_true_iff in Hcr as [? ?]. apply andb_true_iff in Hrr as [? ?].
  split; [exact Hall|]. split.
  - rewrite Htoken. f_equal. destruct token; simpl in Hd; try done.
    apply negb_false_iff, String.eqb_eq in Hd. by subst.
  - split; [by exists cpu, c|by exists ram, r].
Qed.

(** X6: an exception leaves [valider_alerte] exactly when the first five
    checks pass and the subtraction [time.time() - timestamp] raises,
    which it does with a [TypeError] for a timestamp that is not a number
    and with an [OverflowError] for an int too large for a float.  In all
    other cases a [(bool, reason)] pair is returned. *)
Theorem valider_alerte_raises_iff tok now data e :
  valider_alerte tok now data = inr e
  ↔ metrics_ok tok data
    ∧ ∃ timestamp,
        data !! "timestamp" = Some timestamp
        ∧ ((as_num timestamp = None ∧ e = TypeError)
           ∨ (∃ n, as_num timestamp = Some n ∧ convertible n = false
                   ∧ e = OverflowError)).
Proof.
  split.
  - intros H. split.
    + apply (not_rejected_metrics_ok tok now). intros reason. by rewrite H.
    + destruct (valider_alerte_raises _ _ _ _ H) as (timestamp & Hts & Hsub).
      exists timestamp. split; [done|]. by apply (float_sub_raises now).
  - intros (Hm & timestamp & Hts & Hsub).
    apply (float_sub_raises now) in Hsub.
    by rewrite (valider_alerte_after_metrics _ _ _ Hm), Hts, Hsub.
Qed.

(** ** The decision follows the load *)

Lemma xlt_xle_trans a b c : xlt a b = true → xle b c = true → xlt a c = true.
Proof.
  destruct a, b, c; simpl; try done.
  rewrite !bool_decide_eq_true. apply Qclt_le_trans.
Qed.

Lemma xle_xlt_trans a b c : xle a b = true → xlt b c = true → xlt a c = true.
Proof.
  destruct a, b, c; simpl; try done.
  rewrite !bool_decide_eq_true. apply Qcle_lt_trans.
Qed.

(** X7: whatever the thresholds, the decision follows the load: if a CPU
    value leads to scale_up, so does every larger one, and if a CPU value
    leads to scale_down, so does every smaller one. *)
Theorem determiner_action_monotone c1 c2 policies :
  le c1 c2 = true →
  (determiner_action c1 policies = "scale_up" →
     determiner_action c2 policies = "scale_up")
  ∧ (determiner_action c2 policies = "scale_down" →
     determiner_action c1 policies = "scale_down").
Proof.
  intros Hle. rewrite !determiner_action_scale_up, !determiner_action_scale_down.
  unfold gt, lt, le in *. split.
  - intros Hup. by eapply xlt_xle_trans.
  - intros [Hnup Hdown]. split.
    + destruct (xlt _ (num_val c1)) eqn:Hup1; [|done].
      by rewrite (xlt_xle_trans _ _ _ Hup1 Hle) in Hnup.
    + by eapply xle_xlt_trans.
Qed.

(** ** The progression, there and back *)

(** X8: on the catalog the progression stays in the catalog, and a step
    up followed by a step down leads back to the tier one started from
    unless that tier was the last, as a step down followed by a step up
    does unless it was the first; at the ends the second step leaves the
    end. *)
Theorem determiner_nouveau_flavor_round_trip i f :
  catalog !! i = Some f →
  (∀ action, determiner_nouveau_flavor action f ∈ catalog)
  ∧ ((S i < length catalog)%nat →
       determiner_nouveau_flavor "scale_down"
         (determiner_nouveau_flavor "scale_up" f) = f)
  ∧ ((0 < i)%nat →
       determiner_nouveau_flavor "scale_up"
         (determiner_nouveau_flavor "scale_down" f) = f)
  ∧ (S i = length catalog →
       determiner_nouveau_flavor "scale_down"
         (determiner_nouveau_flavor "scale_up" f) ≠ f)
  ∧ (i = 0%nat →
       determiner_nouveau_flavor "scale_up"
         (determiner_nouveau_flavor "scale_down" f) ≠ f).
Proof.
  intros Hf.
  assert (Hcat : ∀ action g, g ∈ catalog → determiner_nouveau_flavor action g ∈ catalog).
  { intros action g Hg. unfold determiner_nouveau_flavor.
    rewrite progression_lookup. unfold catalog in *.
    repeat case_decide; [| |done];
      apply elem_of_cons in Hg as [->|Hg];
      try (apply elem_of_cons in Hg as [->|Hg]);
      try (apply elem_of_cons in Hg as [->|Hg]);
      try (by apply elem_of_nil in Hg); vm_compute; set_solver. }
  split; [intros action; apply Hcat; by eapply list_elem_of_lookup_2|].
  destruct i as [|[|[|i]]]; simpl in Hf; try done; injection Hf as <-;
    (split; [intros; try reflexivity; simpl in *; lia|]);
    (split; [intros; try reflexivity; simpl in *; lia|]);
    (split; [intros; try discriminate; vm_compute; discriminate|]);
    intros; try discriminate; vm_compute; discriminate.
Qed.

End validator_more.

(* ================================================================== *)
(** * heat_client.py: further properties                                *)
(* ================================================================== *)

Module heat_client_more.
Import Py Runtime heat_client heat_client_info Spec Notions.
Import PyFacts Logic LogicFacts heat_client_facts.

(** ** Exceptions *)

Lemma quiet_ret {S A} (a : A) : quiet (mret a : M S A).
Proof. by intros s e. Qed.

Lemma quiet_bind {S A B} (m : M S A) (f : A → M S B) :
  quiet m → (∀ a, quiet (f a)) → quiet (m ≫= f).
Proof.
  intros Hm Hf s e. rewrite bind_run. specialize (Hm s).
  destruct (m s) as [s' [a|e'|]]; simpl in *; [apply Hf|by destruct (Hm e')|done].
Qed.

Lemma quiet_try_except {S A} (body : M S A) handler :
  (∀ e, quiet (handler e)) → quiet (try_except body handler).
Proof.
  unfold try_except. intros Hh s e.
  destruct (body s) as [s' [a|e'|]]; simpl; [done|apply Hh|done].
Qed.

Lemma float_sub_num_convertible t n :
  convertible n = true → ∃ d, float_sub_num t n = inl d.
Proof.
  destruct n as [z|f]; simpl; [|by eexists].
  destruct (float_of_Z z); try done; by eexists.
Qed.

Lemma hoare_any_bind {S A B} (m : M S A) (f : A → M S B)
    (Q : S → outcome B → Prop) :
  (∀ s e, Q s (Raised e)) → (∀ s, Q s Unfinished) →
  (∀ a, hoare (fun _ => True) (f a) Q) →
  hoare (fun _ => True) (m ≫= f) Q.
Proof.
  intros He Hu Hf. apply hoare_bind with (R := fun _ _ => True); [|done].
  intros s _. unfold passes. destruct (m s) as [s' [a|e|]]; simpl; auto.
Qed.

Section Resize.

Variables (cd : Z) (clk : clock).

(** X9: [recuperer_vm_id] lets no exception out.  Off line it answers the
    mock identifier and touches nothing; on line it asks Nova once, and
    answers and caches the first server of a non-empty list, or answers
    [None] and leaves [_state] as it was when the list is empty or the
    call raises. *)
Theorem recuperer_vm_id_cases vm_name w :
  (hors_ligne w = true →
     recuperer_vm_id vm_name w = (w, Val (Some "mock-vm-id-12345")))
  ∧ (∀ nv, hors_ligne w = false → _nova_client w = Some nv →
       match servers_list nv (trace w) vm_name with
       | inl (id :: _) =>
           recuperer_vm_id vm_name w
           = (mk_world (mk_state (last_scaling_time (_state w))
                                 (current_flavor (_state w)) (Some id)
                                 (stack_name (_state w)) (connected (_state w)))
                       (_nova_client w)
                       (EvNova (ServersList vm_name) :: trace w),
              Val (Some id))
       | _ =>
           recuperer_vm_id vm_name w
           = (record (EvNova (ServersList vm_name)) w, Val None)
       end).
Proof.
  split.
  - intros Hoff. unfold recuperer_vm_id. run. by rewrite Hoff.
  - intros nv Hon Hnv. unfold recuperer_vm_id. run. rewrite Hon.
    unfold try_except, call. rewrite bind_run, Hnv.
    destruct (servers_list nv (trace w) vm_name) as [[|id l]|e]; simpl; try done.
    by rewrite Hnv.
Qed.

Lemma quiet_simuler_resize vm_name ancien nouveau :
  quiet (_simuler_resize clk vm_name ancien nouveau).
Proof. by intros s e. Qed.

Lemma num_sub_float_convertible n f :
  convertible n = true → ∃ attente, num_sub_float n f = inl attente.
Proof.
  unfold num_sub_float. destruct n as [z|g]; simpl; [|by eexists].
  destruct (float_of_Z z); try done; by eexists.
Qed.

(** X10: whatever Nova and the clock do, [effectuer_resize] lets no
    exception out, provided [COOLDOWN_SECONDS] is an int a float can hold
    and the cooldown timestamp is a float or such an int (it is [0] at
    start and a clock reading afterwards): every exception of the live
    path ends as an outcome. *)
Theorem effectuer_resize_never_raises fuel vm_name nouveau w :
  convertible (PInt cd) = true →
  convertible (last_scaling_time (_state w)) = true →
  ∀ e, (effectuer_resize cd clk fuel vm_name nouveau w).2 ≠ Raised e.
Proof.
  intros Hcd Hconv e. unfold effectuer_resize. run.
  destruct (String.eqb _ _); [done|].
  rewrite bind_run, cooldown_respecte_run.
  destruct (float_sub_num_convertible (time_at clk (trace w)) _ Hconv) as [d ->].
  destruct (lt _ _); simpl.
  { by destruct (num_sub_float_convertible (PInt cd) d Hcd) as [a ->]. }
  run. destruct (hors_ligne _); [apply quiet_simuler_resize|].
  apply quiet_try_except. intros e'. apply quiet_ret.
Qed.

(** X11: every outcome [effectuer_resize] returns names the flavor the
    VM had when the call began and the flavor that was asked for, and is
    one of: none, simulated or resized with [success = True]; cooldown or
    error with [success = False]. *)
Theorem effectuer_resize_outcome fuel vm_name nouveau w w' r :
  effectuer_resize cd clk fuel vm_name nouveau w = (w', Val r) →
  ancien_flavor r = current_flavor (_state w)
  ∧ nouveau_flavor r = nouveau
  ∧ issue r.
Proof.
  intros Hrun.
  assert (Hi : issue r) by (by eapply effectuer_resize_issue).
  revert Hrun. unfold effectuer_resize. rewrite bind_run. simpl.
  generalize (current_flavor (_state w)). intros ancien Hrun.
  match type of Hrun with
  | ?m _ = _ =>
      assert (Hret : returns m (fun r => ancien_flavor r = ancien
                                         ∧ nouveau_flavor r = nouveau))
  end.
  { destruct (String.eqb _ _); [by apply returns_ret|].
    apply returns_bind; intros ok.
    destruct (negb ok); [by apply returns_ret|].
    apply returns_bind; intros w1.
    destruct (hors_ligne w1).
    - unfold _simuler_resize. repeat (apply returns_bind; intros ?).
      by apply returns_ret.
    - unfold _resize_openstack. apply returns_try_except.
      + apply returns_bind; intros ?. apply returns_bind; intros ?.
        apply returns_bind; intros w2.
        destruct (vm_id (_state w2)); [|by apply returns_ret].
        apply returns_bind; intros flavors.
        destruct (List.find _ flavors); [|by apply returns_ret].
        repeat (apply returns_bind; intros ?).
        by apply returns_ret.
      + intros e. by apply returns_ret. }
  destruct (Hret _ _ _ Hrun). done.
Qed.

Lemma effectuer_resize_written fuel vm_name nouveau :
  hoare (fun _ => True) (effectuer_resize cd clk fuel vm_name nouveau)
        (written clk nouveau).
Proof.
  assert (He : ∀ s e, written clk nouveau s (Raised e)) by (by intros s e r).
  assert (Hu : ∀ s, written clk nouveau s Unfinished) by (by intros s r).
  assert (Hno : ∀ msg ancien action,
            action ≠ "resized" → action ≠ "simulated" →
            ∀ ok, hoare (fun _ : world => True)
              (mret (mk_resultat ok msg ancien nouveau action))
              (written clk nouveau)).
  { intros msg ancien action H1 H2 ok s _ r [= <-] [?|?]; done. }
  assert (Hend : ∀ r,
            hoare (fun _ : world => True)
              (set_current_flavor nouveau;; t ← time_time clk;
               set_last_scaling_time (PFloat t);; mret r)
              (written clk nouveau)).
  { intros r s _ r' _ _. simpl. split; [done|]. by eexists. }
  unfold effectuer_resize.
  apply hoare_any_bind; [done|done|]. intros w.
  destruct (String.eqb _ _); [by apply Hno|].
  apply hoare_any_bind; [done|done|]. intros ok.
  destruct (negb ok); [by apply Hno|].
  apply hoare_any_bind; [done|done|]. intros w1.
  destruct (hors_ligne w1).
  - unfold _simuler_resize. apply hoare_any_bind; [done|done|]. intros _.
    apply Hend.
  - unfold _resize_openstack.
    apply hoare_try_except with (R := fun _ _ => True); [|intros; by apply Hno].
    set (Q := fun (s : world) (o : outcome resultat) =>
                match o with Raised _ => True | _ => written clk nouveau s o end).
    assert (HQ : ∀ (m : M world resultat),
              hoare (fun _ => True) m (written clk nouveau) →
              hoare (fun _ => True) m Q).
    { intros m Hm s Hs. specialize (Hm s Hs). unfold Q.
      by destruct (m s).2. }
    do 3 (apply hoare_any_bind; [done|done|]; intros ?).
    destruct (vm_id _); [|by apply HQ, Hno].
    apply hoare_any_bind; [done|done|]. intros flavors.
    destruct (List.find _ flavors); [|by apply HQ, Hno].
    do 4 (apply hoare_any_bind; [done|done|]; intros ?).
    apply HQ, Hend.
Qed.


(** ** The simulated path, and the request that follows it *)

Lemma effectuer_resize_simulated fuel vm_name nouveau w :
  hors_ligne w = true → due cd clk nouveau w →
  effectuer_resize cd clk fuel vm_name nouveau w
  = (apres_simulation clk nouveau w,
     Val (r_simule vm_name (current_flavor (_state w)) nouveau)).
Proof.
  intros Hoff (Hne & d & Hd & Hlt). unfold effectuer_resize. run.
  apply String.eqb_neq in Hne. rewrite Hne.
  rewrite bind_run, (cooldown_respecte_permet cd clk w d Hd Hlt). simpl.
  rewrite bind_run. simpl.
  replace (hors_ligne (record EvTime w)) with true by done.
  reflexivity.
Qed.

Lemma effectuer_resize_refused fuel vm_name nouveau w d :
  finite_num (PInt cd) = true →
  nouveau ≠ current_flavor (_state w) →
  float_sub_num (time_at clk (trace w)) (last_scaling_time (_state w)) = inl d →
  lt (PFloat d) (PInt cd) = true →
  effectuer_resize cd clk fuel vm_name nouveau w
  = (record EvTime w, Val (r_cooldown (current_flavor (_state w)) nouveau)).
Proof.
  intros Hcd Hne Hd Hlt. unfold effectuer_resize. run.
  apply String.eqb_neq in Hne. rewrite Hne.
  by rewrite bind_run, (cooldown_respecte_refuse cd clk w d).
Qed.

(** X13: when [COOLDOWN_SECONDS] is an int a float can hold: off line, a
    due resize is simulated: one second of sleep, no call to Nova, the
    new flavor and a clock reading written, outcome simulated.  A request
    for yet another flavor that follows it while the clock shows less
    than [COOLDOWN_SECONDS] since that reading is refused with the
    outcome cooldown, and the flavor stays the one of the first
    request. *)
Theorem resize_then_cooldown fuel vm_name nouveau suivant w :
  finite_num (PInt cd) = true →
  hors_ligne w = true → due cd clk nouveau w →
  suivant ≠ nouveau →
  lt (PFloat (SFsub prec emax
                (time_at clk (trace (apres_simulation clk nouveau w)))
                (time_at clk (EvSleep 1 :: EvTime :: trace w))))
     (PInt cd) = true →
  effectuer_resize cd clk fuel vm_name nouveau w
  = (apres_simulation clk nouveau w,
     Val (r_simule vm_name (current_flavor (_state w)) nouveau))
  ∧ effectuer_resize cd clk fuel vm_name suivant (apres_simulation clk nouveau w)
    = (record EvTime (apres_simulation clk nouveau w),
       Val (r_cooldown nouveau suivant))
  ∧ get_flavor_actuel (record EvTime (apres_simulation clk nouveau w)) = nouveau.
Proof.
  intros Hcd Hoff Hdue Hne Hlt. split; [by apply effectuer_resize_simulated|].
  split; [|done].
  exact (effectuer_resize_refused fuel vm_name suivant
           (apres_simulation clk nouveau w) _ Hcd Hne eq_refl Hlt).
Qed.

(** ** The wait *)

Lemma attendre_boucle_S fuel serveur statut_cible timeout debut :
  attendre_boucle clk (S fuel) serveur statut_cible timeout debut
  = (t ← time_time clk;
     if lt (PFloat (SFsub prec emax t debut)) (PInt timeout) then
       statut ← call (ServerRefresh serveur)
                     (fun n h => server_refresh n h serveur);
       if String.eqb statut statut_cible then mret true
       else if String.eqb statut "ERROR" then mret false
       else time_sleep 5;;
            attendre_boucle clk fuel serveur statut_cible timeout debut
     else mret false).
Proof. reflexivity. Qed.

Lemma attendre_boucle_ends n serveur statut_cible timeout debut w :
  deadline_after clk debut timeout (trace w) n →
  (attendre_boucle clk (S n) serveur statut_cible timeout debut w).2
    ≠ Unfinished.
Proof.
  revert w. induction n as [|n IH]; intros w Hdl; rewrite attendre_boucle_S.
  - run. rewrite (Hdl (trace w)) by lia. done.
  - rewrite bind_run. simpl.
    destruct (lt _ _); [|done].
    rewrite bind_run. unfold call at 1. simpl.
    destruct (_nova_client w) as [nv|]; [|done]. simpl.
    destruct (server_refresh nv _ serveur) as [statut|e]; simpl; [|done].
    destruct (String.eqb statut statut_cible); [done|].
    destruct (String.eqb statut "ERROR"); [done|].
    rewrite bind_run. simpl. apply IH.
    intros h Hh. apply Hdl. simpl in Hh. lia.
Qed.

(** X14: the wait is bounded: if the clock is past the deadline of the
    wait from the [n]-th sleep on, [_attendre_statut] is over after at
    most [n + 1] turns of its loop, whatever Nova answers. *)
Theorem attendre_statut_bounded n fuel serveur statut_cible timeout w :
  deadline_after clk (time_at clk (trace w)) timeout (trace w) n →
  (n < fuel)%nat →
  (_attendre_statut clk fuel serveur statut_cible timeout w).2 ≠ Unfinished.
Proof.
  intros Hdl Hfuel.
  assert (Hn : (_attendre_statut clk (S n) serveur statut_cible timeout w).2
               ≠ Unfinished).
  { unfold _attendre_statut. rewrite bind_run. simpl.
    by apply attendre_boucle_ends. }
  assert (Hext : extends (_attendre_statut clk (S n) serveur statut_cible timeout)
                         (_attendre_statut clk fuel serveur statut_cible timeout)).
  { unfold _attendre_statut. apply extends_bind; [apply extends_refl|].
    intros debut. apply attendre_boucle_extends. lia. }
  by rewrite (Hext w Hn).
Qed.

Lemma attendre_boucle_answer fuel serveur statut_cible timeout debut :
  ∀ w w' b,
  attendre_boucle clk fuel serveur statut_cible timeout debut w = (w', Val b) →
  _nova_client w' = _nova_client w
  ∧ if b then
      ∃ nv h, _nova_client w = Some nv
        ∧ trace w' = EvNova (ServerRefresh serveur) :: h
        ∧ server_refresh nv h serveur = inl statut_cible
    else
      (∃ h, trace w' = EvTime :: h
         ∧ lt (PFloat (SFsub prec emax (time_at clk h) debut)) (PInt timeout)
           = false)
      ∨ (∃ nv h, _nova_client w = Some nv
           ∧ trace w' = EvNova (ServerRefresh serveur) :: h
           ∧ server_refresh nv h serveur = inl "ERROR"
           ∧ statut_cible ≠ "ERROR").
Proof.
  induction fuel as [|fuel IH]; intros w w' b Hrun; [done|].
  rewrite attendre_boucle_S, bind_run in Hrun. simpl in Hrun.
  destruct (lt _ _) eqn:Hlt.
  - rewrite bind_run in Hrun. unfold call at 1 in Hrun. simpl in Hrun.
    destruct (_nova_client w) as [nv|] eqn:Hnv; [|done]. simpl in Hrun.
    destruct (server_refresh nv _ serveur) as [statut|e] eqn:Hst;
      simpl in Hrun; [|done].
    destruct (String.eqb statut statut_cible) eqn:Hcible.
    { apply String.eqb_eq in Hcible. subst statut.
      injection Hrun as <- <-. simpl. split; [done|].
      by exists nv, (EvTime :: trace w). }
    destruct (String.eqb statut "ERROR") eqn:Herr.
    { apply String.eqb_eq in Herr. subst statut.
      injection Hrun as <- <-. simpl. split; [done|]. right.
      exists nv, (EvTime :: trace w). split_and!; try done.
      intros ->. by rewrite String.eqb_refl in Hcible. }
    rewrite bind_run in Hrun. simpl in Hrun.
    apply IH in Hrun as [Hcl Hb]. simpl in Hcl, Hb.
    rewrite <- Hnv. by split.
  - injection Hrun as <- <-. simpl. split; [done|]. left. by exists (trace w).
Qed.

(** X15: what the answer of the wait means.  [True] is returned only
    right after a refresh of the server that showed the awaited status.
    [False] is returned either right after a reading of the clock that
    was not less than [timeout] past the start of the wait, or right
    after a refresh that showed the status ERROR. *)
Theorem attendre_statut_answer fuel serveur statut_cible timeout w w' b :
  _attendre_statut clk fuel serveur statut_cible timeout w = (w', Val b) →
  if b then
    ∃ nv h, _nova_client w = Some nv
      ∧ trace w' = EvNova (ServerRefresh serveur) :: h
      ∧ server_refresh nv h serveur = inl statut_cible
  else
    (∃ h, trace w' = EvTime :: h
       ∧ lt (PFloat (SFsub prec emax (time_at clk h) (time_at clk (trace w))))
            (PInt timeout) = false)
    ∨ (∃ nv h, _nova_client w = Some nv
         ∧ trace w' = EvNova (ServerRefresh serveur) :: h
         ∧ server_refresh nv h serveur = inl "ERROR"
         ∧ statut_cible ≠ "ERROR").
Proof.
  unfold _attendre_statut. rewrite bind_run. simpl. intros Hrun.
  by apply attendre_boucle_answer in Hrun as [_ Hb].
Qed.

(** ** The errors of the live path *)

(** X16: on line, a due resize that does not find its server or its
    flavor ends with the outcome error and writes nothing: with no cached
    id, an empty or failed [servers.list] gives "VM introuvable" after
    that single call to Nova; with a cached id, a [flavors.list] without
    the requested name gives "Flavor introuvable" after that single
    call.  Neither path reaches [resize]. *)
Theorem resize_not_found fuel vm_name nouveau w nv :
  hors_ligne w = false → _nova_client w = Some nv → due cd clk nouveau w →
  (vm_id (_state w) = None →
   (servers_list nv (EvTime :: trace w) vm_name = inl []
    ∨ ∃ e, servers_list nv (EvTime :: trace w) vm_name = inr e) →
   effectuer_resize cd clk fuel vm_name nouveau w
   = (record (EvNova (ServersList vm_name)) (record EvTime w),
      Val (r_vm_introuvable vm_name (current_flavor (_state w)) nouveau)))
  ∧ (∀ id flavors,
     vm_id (_state w) = Some id →
     flavors_list nv (EvTime :: trace w) = inl flavors →
     nouveau ∉ flavors →
     effectuer_resize cd clk fuel vm_name nouveau w
     = (record (EvNova FlavorsList) (record EvTime w),
        Val (r_flavor_introuvable (current_flavor (_state w)) nouveau))).
Proof.
  intros Hon Hnv (Hne & d & Hd & Hlt).
  apply String.eqb_neq in Hne.
  assert (Hstart :
    effectuer_resize cd clk fuel vm_name nouveau w
    = _resize_openstack clk fuel vm_name (current_flavor (_state w)) nouveau
        (record EvTime w)).
  { unfold effectuer_resize. run. rewrite Hne.
    rewrite bind_run, cooldown_respecte_run, Hd, Hlt. simpl.
    rewrite bind_run. simpl.
    replace (hors_ligne (record EvTime w)) with false by done. done. }
  rewrite Hstart. clear Hstart.
  destruct w as [[lst cur vid sn co] cl tr]. simpl in *. subst cl.
  split.
  - intros -> Hlist. unfold _resize_openstack, try_except. run.
    unfold recuperer_vm_id. run.
    replace (hors_ligne _) with false by done.
    unfold try_except. rewrite bind_run. unfold call at 1. simpl.
    destruct Hlist as [Hlist|[e Hlist]]; rewrite Hlist; simpl; run; done.
  - intros id flavors -> Hlist Hnot. unfold _resize_openstack, try_except. run.
    unfold call at 1. simpl. rewrite Hlist. simpl.
    assert (Hfind : List.find (fun f => String.eqb f nouveau) flavors = None).
    { destruct (List.find _ flavors) as [f|] eqn:Hf; [|done].
      apply find_some in Hf as [Hin Heq]. apply String.eqb_eq in Heq.
      subst f. by apply list_elem_of_In in Hin. }
    by rewrite Hfind.
Qed.

(** ** Connecting *)

(** X17: after a connection attempt that fails, whatever it had got hold
    of and whatever client an earlier connection left behind,
    [connecter] answers [False], [get_etat_connexion] is [False],
    [get_statut_stack] answers SIMULATED with the current flavor, and a
    due resize is simulated without any call to Nova.  After an attempt
    that succeeds, [connecter] answers [True] and the module is on
    line. *)
Theorem connecter_then_resize t w h0 w1 h1 ok fuel vm_name nouveau :
  connecter t w h0 = (w1, h1, ok) →
  ok = get_etat_connexion w1
  ∧ ok = negb (hors_ligne w1)
  ∧ get_flavor_actuel w1 = get_flavor_actuel w
  ∧ (ok = false →
     status (get_statut_stack w1 h1) = "SIMULATED"
     ∧ flavor (get_statut_stack w1 h1) = get_flavor_actuel w
     ∧ (due cd clk nouveau w →
        effectuer_resize cd clk fuel vm_name nouveau w1
        = (apres_simulation clk nouveau w1,
           Val (r_simule vm_name (get_flavor_actuel w) nouveau)))).
Proof.
  destruct t as [|e|h e|h n]; simpl; intros [= <- <- <-]; split_and!; try done.
  all: intros _; split_and!; try done.
  all: intros Hdue; by apply effectuer_resize_simulated.
Qed.

End Resize.

End heat_client_more.

(* ================================================================== *)
(** * adapter.py: the paths of an alert                                 *)
(* ================================================================== *)

Module adapter_more.
Import Py Runtime adapter adapter_api Spec Notions Etapes.
Import Logic LogicFacts adapter_facts heat_client_more.

Section Alerts.

Variables (tok : string) (cd : Z) (vm_nom : string) (clk : clock).

Lemma run_non_dict fuel data a :
  (∀ d, data ≠ VDict d) →
  recevoir_alerte tok cd vm_nom clk fuel data a
  = (sur_stats recue a, Raised AttributeError).
Proof.
  intros Hd. unfold recevoir_alerte. run.
  destruct data as [|b|z|f|str|l|d]; try reflexivity. by destruct (Hd d).
Qed.

(** [valider_alerte] reads the clock exactly when the first five checks
    pass. *)
Lemma valider_alerte_lu d a :
  (metrics_ok tok d
   ∧ valider_alerte tok clk d a
     = of_res (validator.valider_alerte tok
                 (time_at clk (heat_client.trace (heat a))) d)
              (sur_heat (heat_client.record EvTime) a))
  ∨ (¬ metrics_ok tok d
     ∧ valider_alerte tok clk d a
       = of_res (validator.valider_alerte tok
                   (time_at clk (heat_client.trace (heat a))) d) a).
Proof.
  unfold valider_alerte, validator.valider_alerte.
  destruct (bool_decide (size d = 0%nat)) eqn:Hsz.
  { right. split; [|done]. intros (Hall & _).
    rewrite (validator_facts.present_non_empty d "token") in Hsz; [done|].
    apply Hall. set_solver. }
  destruct (List.find _ _) as [champ|] eqn:Hfind.
  { right. split; [|done]. intros (Hall & _).
    by rewrite (proj2 (validator_facts.required_fields_present d) Hall) in Hfind. }
  assert (Hall := proj1 (validator_facts.required_fields_present d) Hfind).
  unfold getitem.
  destruct (d !! "token") as [token|] eqn:Htok.
  2: { right. split; [|done]. intros (_ & Ht & _). congruence. }
  rewrite bind_run. simpl.
  destruct (validator.differs token tok) eqn:Hdiff.
  { right. split; [|done]. intros (_ & Ht & _).
    rewrite Htok in Ht. injection Ht as ->. simpl in Hdiff.
    by rewrite String.eqb_refl in Hdiff. }
  destruct (d !! "cpu") as [cpu|] eqn:Hcpu.
  2: { right. split; [|done]. intros (_ & _ & (? & ? & ? & _) & _). congruence. }
  rewrite bind_run. simpl.
  destruct (as_num cpu) as [c|] eqn:Hc.
  2: { right. split; [|done]. intros (_ & _ & (? & ? & ? & ? & _) & _). congruence. }
  destruct (le validator.cpu_min c && le c validator.cpu_max) eqn:Hcr; simpl.
  2: { right. split; [|done].
       intros (_ & _ & (cpu' & c' & H1 & H2 & H3 & H4) & _).
       assert (cpu' = cpu) as -> by congruence.
       assert (c' = c) as -> by congruence.
       unfold validator.cpu_min, validator.cpu_max in Hcr.
       by rewrite H3, H4 in Hcr. }
  destruct (d !! "ram") as [ram|] eqn:Hram.
  2: { right. split; [|done]. intros (_ & _ & _ & (? & ? & ? & _)). congruence. }
  rewrite bind_run. simpl.
  destruct (as_num ram) as [r|] eqn:Hr.
  2: { right. split; [|done]. intros (_ & _ & _ & (? & ? & ? & ? & _)). congruence. }
  destruct (le validator.ram_min r && le r validator.ram_max) eqn:Hrr; simpl.
  2: { right. split; [|done].
       intros (_ & _ & _ & (ram' & r' & H1 & H2 & H3 & H4)).
       assert (ram' = ram) as -> by congruence.
       assert (r' = r) as -> by congruence.
       unfold validator.ram_min, validator.ram_max in Hrr.
       by rewrite H3, H4 in Hrr. }
  destruct (d !! "timestamp") as [timestamp|] eqn:Hts.
  2: { right. split; [|done]. intros (Hall' & _).
       assert (Hin : contains d "timestamp" = true) by (apply Hall'; set_solver).
       unfold contains in Hin. by rewrite Hts in Hin. }
  left. split.
  { apply andb_true_iff in Hcr as [? ?], Hrr as [? ?].
    split_and!; [done| |by exists cpu, c|by exists ram, r].
    destruct token; try done. simpl in Hdiff.
    apply negb_false_iff, String.eqb_eq in Hdiff. by subst. }
  rewrite bind_run. simpl. rewrite bind_run. simpl.
  destruct (float_sub _ timestamp) as [age|e]; [|done].
  rewrite bind_run. simpl.
  destruct (gt _ _); [done|]. destruct (lt _ _); [done|].
  destruct (d !! "source") as [source|]; [|done].
  rewrite bind_run. simpl.
  by destruct (validator.unidentified source).
Qed.

Lemma valider_alerte_bind {B} d (k : bool * text → M app B) a :
  ∃ lu, (lu = true ↔ metrics_ok tok d)
    ∧ (valider_alerte tok clk d ≫= k) a
      = match validator.valider_alerte tok
                (time_at clk (heat_client.trace (heat a))) d with
        | inl v => k v (horloge_lue lu a)
        | inr e => (horloge_lue lu a, Raised e)
        end.
Proof.
  destruct (valider_alerte_lu d a) as [[Hm Hrun]|[Hm Hrun]];
    [exists true|exists false]; (split; [by split|]);
    rewrite bind_run, Hrun;
    by destruct (validator.valider_alerte tok _ d).
Qed.

Ltac valider lu Hlu :=
  match goal with
  | |- context [(valider_alerte _ _ ?d ≫= ?k) ?s] =>
      destruct (valider_alerte_bind d k s) as (lu & Hlu & ->)
  end.

Lemma run_leve fuel d a e :
  validator.valider_alerte tok
    (time_at clk (heat_client.trace (heat a))) d
  = inr e →
  recevoir_alerte tok cd vm_nom clk fuel (VDict d) a
  = (sur_heat (heat_client.record EvTime) (sur_stats recue a), Raised e).
Proof.
  intros Hv. unfold recevoir_alerte. rewrite bind_run. simpl.
  valider lu Hlu. simpl. rewrite Hv.
  assert (lu = true) as ->; [|done].
  apply Hlu.
  apply (validator_more.not_rejected_metrics_ok tok
           (time_at clk (heat_client.trace (heat a)))).
  intros reason. by rewrite Hv.
Qed.

Lemma run_rejet fuel d a raison :
  validator.valider_alerte tok
    (time_at clk (heat_client.trace (heat a))) d
  = inl (false, raison) →
  ∃ lu, (lu = true ↔ metrics_ok tok d)
    ∧ recevoir_alerte tok cd vm_nom clk fuel (VDict d) a
      = (apres_rejet clk lu raison a, Val (Rejet raison, None)).
Proof.
  intros Hv. unfold recevoir_alerte. rewrite bind_run. simpl.
  valider lu Hlu. simpl. rewrite Hv. exists lu. split; [done|].
  simpl. run. rewrite ajouter_log_run. by destruct lu.
Qed.

Lemma run_aucune fuel d a raison data_cpu data_ram c r :
  validator.valider_alerte tok
    (time_at clk (heat_client.trace (heat a))) d
  = inl (true, raison) →
  d !! "cpu" = Some data_cpu → as_num data_cpu = Some c →
  d !! "ram" = Some data_ram → as_num data_ram = Some r →
  validator.determiner_action c (policies (st a)) = "none" →
  recevoir_alerte tok cd vm_nom clk fuel (VDict d) a
  = (apres_aucune clk data_cpu data_ram a,
     Val (Accepte "none" (current_flavor (state_vm (st a))), None)).
Proof.
  intros Hv Hcpu Hc Hram Hr Hact. unfold recevoir_alerte.
  rewrite bind_run. simpl. valider lu Hlu. simpl. rewrite Hv.
  assert (lu = true) as ->
    by (apply Hlu; by apply (validator_more.accepted_metrics_ok _ _ _ _ Hv)).
  simpl. run. unfold getitem. rewrite Hcpu, Hram. simpl. run.
  rewrite Hc. simpl. run. rewrite Hact. simpl. run.
  rewrite ajouter_log_run. simpl.
  rewrite bind_run, emettre_metriques_run; [|simpl; split; by eexists].
  reflexivity.
Qed.

Lemma run_resize fuel d a raison data_cpu data_ram c r h o :
  let action := validator.determiner_action c (policies (st a)) in
  let nouveau_flavor :=
    validator.determiner_nouveau_flavor action (current_flavor (state_vm (st a))) in
  validator.valider_alerte tok
    (time_at clk (heat_client.trace (heat a))) d
  = inl (true, raison) →
  d !! "cpu" = Some data_cpu → as_num data_cpu = Some c →
  d !! "ram" = Some data_ram → as_num data_ram = Some r →
  action ≠ "none" →
  heat_client.effectuer_resize cd clk fuel vm_nom nouveau_flavor
    (heat (apres_mesure clk data_cpu data_ram a)) = (h, o) →
  recevoir_alerte tok cd vm_nom clk fuel (VDict d) a
  = fin_resize clk data_cpu data_ram action h o a.
Proof.
  intros action nouveau_flavor Hv Hcpu Hc Hram Hr Hact Hres.
  unfold recevoir_alerte.
  rewrite bind_run. simpl. valider lu Hlu. simpl. rewrite Hv.
  assert (lu = true) as ->
    by (apply Hlu; by apply (validator_more.accepted_metrics_ok _ _ _ _ Hv)).
  simpl. run. unfold getitem. rewrite Hcpu, Hram. simpl. run.
  rewrite Hc. simpl. run. fold action.
  apply String.eqb_neq in Hact. rewrite Hact. simpl.
  rewrite !bind_run. unfold lift at 1. simpl.
  unfold apres_mesure, sur_vm, sur_heat, sur_stats in Hres. simpl in Hres.
  fold action. fold nouveau_flavor. rewrite Hres.
  unfold fin_resize.
  destruct o as [res|e|]; [|reflexivity|reflexivity].
  unfold apres_resize. simpl. fold action. fold nouveau_flavor.
  destruct (heat_client.success res && _) eqn:Hc'.
  - run. rewrite ajouter_log_run. simpl.
    rewrite bind_run, emettre_metriques_run; [|simpl; split; by eexists].
    reflexivity.
  - destruct (String.eqb (heat_client.action res) "cooldown").
    + rewrite bind_run, ajouter_log_run. simpl.
      rewrite bind_run, emettre_metriques_run; [|simpl; split; by eexists].
      reflexivity.
    + rewrite bind_run, ajouter_log_run. simpl.
      rewrite bind_run, emettre_metriques_run; [|simpl; split; by eexists].
      reflexivity.
Qed.

(** The five ways [recevoir_alerte] goes. *)
Lemma recevoir_alerte_cases
    (P : app → outcome (reponse * option heat_client.resultat) → Prop)
    fuel data a :
  ((∀ d, data ≠ VDict d) → P (sur_stats recue a) (Raised AttributeError)) →
  (∀ d e, data = VDict d →
     validator.valider_alerte tok
       (time_at clk (heat_client.trace (heat a))) d
     = inr e →
     P (sur_heat (heat_client.record EvTime) (sur_stats recue a)) (Raised e)) →
  (∀ d raison lu, data = VDict d →
     validator.valider_alerte tok
       (time_at clk (heat_client.trace (heat a))) d
     = inl (false, raison) →
     (lu = true ↔ metrics_ok tok d) →
     P (apres_rejet clk lu raison a) (Val (Rejet raison, None))) →
  (∀ d data_cpu data_ram, data = VDict d →
     in_range data_cpu = true → in_range data_ram = true →
     P (apres_aucune clk data_cpu data_ram a)
       (Val (Accepte "none" (current_flavor (state_vm (st a))), None))) →
  (∀ d data_cpu data_ram action h o, data = VDict d →
     in_range data_cpu = true → in_range data_ram = true →
     action ≠ "none" →
     heat_client.effectuer_resize cd clk fuel vm_nom
       (validator.determiner_nouveau_flavor action
          (current_flavor (state_vm (st a))))
       (heat (apres_mesure clk data_cpu data_ram a)) = (h, o) →
     P (fin_resize clk data_cpu data_ram action h o a).1
       (fin_resize clk data_cpu data_ram action h o a).2) →
  P (recevoir_alerte tok cd vm_nom clk fuel data a).1
    (recevoir_alerte tok cd vm_nom clk fuel data a).2.
Proof.
  intros Hnd Hleve Hrejet Haucune Hresize.
  assert (Hdata : (∀ d, data ≠ VDict d) ∨ ∃ d, data = VDict d).
  { destruct data as [|b|z|f|str|l|d]; first [by left|right; by eexists]. }
  destruct Hdata as [Hno|[d ->]].
  { rewrite run_non_dict by done. by apply Hnd. }
  destruct (validator.valider_alerte tok
              (time_at clk (heat_client.trace (heat a))) d)
    as [[[] raison]|e] eqn:Hv.
  - destruct (validator_facts.valider_alerte_accepte _ _ _ _ Hv)
      as (data_cpu & data_ram & c & r & Hcpu & Hc & Hc0 & Hc1
          & Hram & Hr & Hr0 & Hr1 & _).
    assert (Hic : in_range data_cpu = true).
    { unfold in_range. rewrite Hc. by apply andb_true_iff. }
    assert (Hir : in_range data_ram = true).
    { unfold in_range. rewrite Hr. by apply andb_true_iff. }
    destruct (decide (validator.determiner_action c (policies (st a)) = "none"))
      as [Hact|Hact].
    + rewrite (run_aucune fuel d a raison data_cpu data_ram c r); try done.
      by apply (Haucune d).
    + destruct (heat_client.effectuer_resize cd clk fuel vm_nom
                  (validator.determiner_nouveau_flavor
                     (validator.determiner_action c (policies (st a)))
                     (current_flavor (state_vm (st a))))
                  (heat (apres_mesure clk data_cpu data_ram a)))
        as [h o] eqn:Hres.
      rewrite (run_resize fuel d a raison data_cpu data_ram c r h o); try done.
      by apply (Hresize d).
  - destruct (run_rejet fuel d a raison Hv) as (lu & Hlu & ->).
    by apply (Hrejet d).
  - rewrite (run_leve fuel d a e Hv). by apply (Hleve d).
Qed.

(** ** The paths without a resize *)

(** X18: an alert [valider_alerte] rejects is answered with the reason
    and changes nothing but the counters and the journal: one alert more
    received, one more rejected, a warning entry with the reason at the
    head of the journal.  The loads, the flavor, the policies and the
    state of [heat_client] stay, and Nova is not called.  The clock is
    read for the age of the alert only when the first five checks have
    passed: the history grows by that reading, if it was made, and by the
    reading of the time of the journal entry. *)
Theorem alerte_rejetee fuel d a raison :
  validator.valider_alerte tok
    (time_at clk (heat_client.trace (heat a))) d
  = inl (false, raison) →
  let s := state_stats (st a) in
  let a' := (recevoir_alerte tok cd vm_nom clk fuel (VDict d) a).1 in
  (recevoir_alerte tok cd vm_nom clk fuel (VDict d) a).2
    = Val (Rejet raison, None)
  ∧ state_vm (st a') = state_vm (st a)
  ∧ policies (st a') = policies (st a)
  ∧ heat_client._state (heat a') = heat_client._state (heat a)
  ∧ state_stats (st a')
    = mk_stats (alertes_recues s + 1) (alertes_valides s)
               (alertes_rejetees s + 1) (scalings_up s) (scalings_down s)
  ∧ ∃ h,
      ((metrics_ok tok d ∧ h = EvTime :: heat_client.trace (heat a))
       ∨ (¬ metrics_ok tok d ∧ h = heat_client.trace (heat a)))
      ∧ heat_client.trace (heat a') = EvStrftime "%H:%M" :: h
      ∧ logs (st a')
        = take 50 (mk_log (strftime_at clk h "%H:%M")
                          "warning" (Lit "Alerte rejetée : " :: raison)
                   :: logs (st a)).
Proof.
  intros Hv. destruct (run_rejet fuel d a raison Hv) as (lu & Hlu & ->).
  cbv zeta. destruct lu; simpl; split_and!; try done.
  - exists (EvTime :: heat_client.trace (heat a)). split; [|done].
    left. split; [by apply Hlu|done].
  - exists (heat_client.trace (heat a)). split; [|done].
    right. split; [|done]. intros Hm. by apply Hlu in Hm.
Qed.

(** X19: an accepted alert whose CPU load asks for no scaling stores the
    two loads and the time of the update, counts one alert more received
    and one more valid, enters an info entry in the journal, emits the
    metrics and answers the action none with the flavor, which has not
    changed.  [heat_client] is not called: its state stays and neither
    Nova nor a sleep is in the history. *)
Theorem alerte_sans_action fuel d a raison data_cpu data_ram c :
  validator.valider_alerte tok
    (time_at clk (heat_client.trace (heat a))) d
  = inl (true, raison) →
  d !! "cpu" = Some data_cpu → as_num data_cpu = Some c →
  d !! "ram" = Some data_ram →
  validator.determiner_action c (policies (st a)) = "none" →
  let s := state_stats (st a) in
  let v := state_vm (st a) in
  let a' := (recevoir_alerte tok cd vm_nom clk fuel (VDict d) a).1 in
  (recevoir_alerte tok cd vm_nom clk fuel (VDict d) a).2
    = Val (Accepte "none" (current_flavor v), None)
  ∧ state_vm (st a')
    = mk_vm (name v) (status v) (private_ip v) (public_ip v) (current_flavor v)
        data_cpu data_ram
        (Some (strftime_at clk (EvTime :: heat_client.trace (heat a)) "%H:%M:%S"))
  ∧ policies (st a') = policies (st a)
  ∧ heat_client._state (heat a') = heat_client._state (heat a)
  ∧ heat_client.trace (heat a')
    = EvEmit "metrics_update" :: EvStrftime "%H:%M" :: EvStrftime "%H:%M:%S"
      :: EvTime :: heat_client.trace (heat a)
  ∧ state_stats (st a')
    = mk_stats (alertes_recues s + 1) (alertes_valides s + 1)
               (alertes_rejetees s) (scalings_up s) (scalings_down s)
  ∧ logs (st a')
    = take 50 (mk_log (strftime_at clk
                         (EvStrftime "%H:%M:%S" :: EvTime
                          :: heat_client.trace (heat a)) "%H:%M")
                      "info" (m_aucune data_cpu data_ram)
               :: logs (st a)).
Proof.
  intros Hv Hcpu Hc Hram Hact.
  destruct (validator_facts.valider_alerte_accepte _ _ _ _ Hv)
    as (cpu' & ram' & c' & r & _ & _ & _ & _ & Hram' & Hr & _).
  assert (ram' = data_ram) as -> by congruence.
  by rewrite (run_aucune fuel d a raison data_cpu data_ram c r).
Qed.

(** ** What every alert keeps *)

Lemma effectif_committed r : issue r → effectif r = true ↔ committed r.
Proof.
  intros Hi. split; [by apply success_committed|].
  unfold effectif, committed, issue in *. intros Hc.
  apply andb_true_iff. split.
  - destruct Hi as [[Ha ?]|[[Ha ?]|[[Ha ?]|[[Ha ?]|[Ha ?]]]]]; try done;
      destruct Hc as [Hc|Hc]; congruence.
  - apply negb_true_iff, bool_decide_eq_false. intros Hin.
    apply list_elem_of_In in Hin. simpl in Hin.
    destruct Hc as [Hc|Hc]; rewrite Hc in Hin; intuition discriminate.
Qed.

Lemma resize_issue fuel nouveau w h r :
  heat_client.effectuer_resize cd clk fuel vm_nom nouveau w = (h, Val r) →
  issue r.
Proof. apply heat_client_facts.effectuer_resize_issue. Qed.

(** X20: the counters of [recevoir_alerte].  Every call counts one alert
    more received, even one that ends in an exception.  A call that
    answers counts the alert once more, as rejected when the answer is a
    rejection and as valid otherwise.  A scaling is counted, up or down
    after the action, exactly when the resize came back resized or
    simulated. *)
Theorem compteurs fuel data a :
  let s := state_stats (st a) in
  let a' := (recevoir_alerte tok cd vm_nom clk fuel data a).1 in
  let o := (recevoir_alerte tok cd vm_nom clk fuel data a).2 in
  let s' := state_stats (st a') in
  alertes_recues s' = alertes_recues s + 1
  ∧ (∀ raison res, o = Val (Rejet raison, res) →
       alertes_rejetees s' = alertes_rejetees s + 1
       ∧ alertes_valides s' = alertes_valides s)
  ∧ (∀ action flavor res, o = Val (Accepte action flavor, res) →
       alertes_valides s' = alertes_valides s + 1
       ∧ alertes_rejetees s' = alertes_rejetees s)
  ∧ (∀ action flavor r, o = Val (Accepte action flavor, Some r) →
       committed r →
       (scalings_up s', scalings_down s')
       = if String.eqb action "scale_up"
         then (scalings_up s + 1, scalings_down s)
         else (scalings_up s, scalings_down s + 1))
  ∧ ((∀ action flavor r, o = Val (Accepte action flavor, Some r) →
        ¬ committed r) →
       scalings_up s' = scalings_up s ∧ scalings_down s' = scalings_down s).
Proof.
  cbv zeta.
  apply (recevoir_alerte_cases (fun a' o =>
    alertes_recues (state_stats (st a')) = alertes_recues (state_stats (st a)) + 1
    ∧ (∀ raison res, o = Val (Rejet raison, res) →
         alertes_rejetees (state_stats (st a'))
           = alertes_rejetees (state_stats (st a)) + 1
         ∧ alertes_valides (state_stats (st a'))
           = alertes_valides (state_stats (st a)))
    ∧ (∀ action flavor res, o = Val (Accepte action flavor, res) →
         alertes_valides (state_stats (st a'))
           = alertes_valides (state_stats (st a)) + 1
         ∧ alertes_rejetees (state_stats (st a'))
           = alertes_rejetees (state_stats (st a)))
    ∧ (∀ action flavor r, o = Val (Accepte action flavor, Some r) →
         committed r →
         (scalings_up (state_stats (st a')), scalings_down (state_stats (st a')))
         = if String.eqb action "scale_up"
           then (scalings_up (state_stats (st a)) + 1,
                 scalings_down (state_stats (st a)))
           else (scalings_up (state_stats (st a)),
                 scalings_down (state_stats (st a)) + 1))
    ∧ ((∀ action flavor r, o = Val (Accepte action flavor, Some r) →
          ¬ committed r) →
         scalings_up (state_stats (st a')) = scalings_up (state_stats (st a))
         ∧ scalings_down (state_stats (st a'))
           = scalings_down (state_stats (st a))))).
  - intros _. simpl. split_and!; done.
  - intros d e _ _. simpl. split_and!; done.
  - intros d raison lu _ _ _. simpl. destruct lu; split_and!; done.
  - intros d data_cpu data_ram _ _ _. simpl. split_and!; done.
  - intros d data_cpu data_ram action h o _ _ _ Hact Hres.
    destruct o as [r|e|]; simpl; [|split_and!; done|split_and!; done].
    pose proof (resize_issue _ _ _ _ _ Hres) as Hi.
    pose proof (effectif_committed r Hi) as Heff. unfold effectif in Heff.
    unfold apres_resize. simpl.
    destruct (heat_client.success r && _) eqn:Hc; simpl.
    + unfold scaling, si_up.
      destruct (String.eqb action "scale_up") eqn:Hup; simpl;
        (split_and!; try done;
         [intros action' flavor r' [= <- _ <-] _; by rewrite Hup
         |intros Hnot; destruct (Hnot _ _ _ eq_refl); by apply Heff]).
    + assert (Hn : ¬ committed r).
      { intros Hr. apply Heff in Hr. congruence. }
      destruct (String.eqb (heat_client.action r) "cooldown"); simpl;
        (split_and!; try done; intros action' flavor r' [= _ _ <-] Hr; done).
Qed.

(** X21: the journal of [recevoir_alerte].  A call that answers has
    entered exactly one entry, at the head of a journal cut at 50; a call
    that ends otherwise has entered none.  The entry is a warning for a
    rejection and an info when no scaling was asked; after a resize it is
    an info for the outcome cooldown, an error for the outcomes none and
    error, and for the outcomes resized and simulated a success when
    scaling up and a warning when scaling down. *)
Theorem journal fuel data a :
  let a' := (recevoir_alerte tok cd vm_nom clk fuel data a).1 in
  let o := (recevoir_alerte tok cd vm_nom clk fuel data a).2 in
  (∀ v, o = Val v →
     ∃ entry, logs (st a') = take 50 (entry :: logs (st a))
       ∧ match v with
         | (Rejet raison, _) =>
             type entry = "warning" ∧ message entry = m_rejet raison
         | (Accepte _ _, None) => type entry = "info"
         | (Accepte action _, Some r) =>
             (heat_client.action r = "cooldown" →
                type entry = "info" ∧ message entry = m_cooldown)
             ∧ (heat_client.action r = "none" ∨ heat_client.action r = "error" →
                type entry = "error" ∧ message entry = m_erreur r)
             ∧ (committed r →
                type entry = if String.eqb action "scale_up"
                             then "success" else "warning")
         end)
  ∧ ((∀ v, o ≠ Val v) → logs (st a') = logs (st a)).
Proof.
  cbv zeta.
  apply (recevoir_alerte_cases (fun a' o =>
    (∀ v, o = Val v →
       ∃ entry, logs (st a') = take 50 (entry :: logs (st a))
         ∧ match v with
           | (Rejet raison, _) =>
               type entry = "warning" ∧ message entry = m_rejet raison
           | (Accepte _ _, None) => type entry = "info"
           | (Accepte action _, Some r) =>
               (heat_client.action r = "cooldown" →
                  type entry = "info" ∧ message entry = m_cooldown)
               ∧ (heat_client.action r = "none" ∨ heat_client.action r = "error" →
                  type entry = "error" ∧ message entry = m_erreur r)
               ∧ (committed r →
                  type entry = if String.eqb action "scale_up"
                               then "success" else "warning")
           end)
    ∧ ((∀ v, o ≠ Val v) → logs (st a') = logs (st a)))).
  - intros _. split; [done|]. by intros _.
  - intros d e _ _. split; [done|]. by intros _.
  - intros d raison lu _ _ _. split.
    + intros v [= <-]. destruct lu; by eexists.
    + intros Hno. by destruct (Hno (Rejet raison, None)).
  - intros d data_cpu data_ram _ _ _. split.
    + intros v [= <-]. by eexists.
    + intros Hno. by destruct (Hno (Accepte "none" (current_flavor (state_vm (st a))), None)).
  - intros d data_cpu data_ram action h o _ _ _ Hact Hres.
    destruct o as [r|e|]; simpl; [|split; [done|by intros _]..].
    pose proof (resize_issue _ _ _ _ _ Hres) as Hi.
    pose proof (effectif_committed r Hi) as Heff. unfold effectif in Heff.
    split.
    2: { intros Hno. by edestruct Hno. }
    intros v [= <-]. unfold apres_resize. simpl.
    destruct (heat_client.success r && _) eqn:Hc; simpl.
    + eexists. split; [done|]. simpl.
      assert (Hr : committed r) by (by apply Heff).
      split_and!.
      * intros Ha. destruct Hr as [Hr|Hr]; congruence.
      * intros [Ha|Ha]; destruct Hr as [Hr|Hr]; congruence.
      * done.
    + assert (Hn : ¬ committed r).
      { intros Hr. apply Heff in Hr. congruence. }
      destruct (String.eqb (heat_client.action r) "cooldown") eqn:Hcd; simpl.
      * apply String.eqb_eq in Hcd. eexists. split; [done|]. simpl.
        split_and!; [done| |done]. intros [Ha|Ha]; congruence.
      * apply String.eqb_neq in Hcd. eexists. split; [done|]. simpl.
        split_and!; done.
Qed.

(** X22: if the flavor [state["vm"]] shows is the one [heat_client]
    keeps, it still is after [recevoir_alerte], however the call ends. *)
Theorem flavors_accordes fuel data a :
  accorde a →
  accorde (recevoir_alerte tok cd vm_nom clk fuel data a).1.
Proof.
  intros Hacc.
  apply (recevoir_alerte_cases (fun a' _ => accorde a')); try done.
  { intros d raison lu _ _ _. by destruct lu. }
  intros d data_cpu data_ram action h o _ _ _ Hact Hres.
  set (nouveau := validator.determiner_nouveau_flavor action
                    (current_flavor (state_vm (st a)))) in *.
  set (w := heat (apres_mesure clk data_cpu data_ram a)) in *.
  pose proof (heat_client_facts.effectuer_resize_tier cd clk fuel vm_nom nouveau
                (tier w) w eq_refl) as Ht.
  pose proof (effectuer_resize_written cd clk fuel vm_nom nouveau w I) as Hw.
  rewrite Hres in Ht, Hw. simpl in Ht, Hw.
  assert (Hsame : tier h = tier (heat a) → 
            heat_client.current_flavor (heat_client._state h)
            = current_flavor (state_vm (st a))).
  { intros Heq. apply (f_equal fst) in Heq. simpl in Heq. by rewrite Heq. }
  destruct o as [r|e|]; simpl.
  2,3: destruct Ht as [Ht|(r & [=] & _)]; unfold accorde; simpl; by rewrite Hsame.
  pose proof (resize_issue _ _ _ _ _ Hres) as Hi.
  pose proof (effectif_committed r Hi) as Heff. unfold effectif in Heff.
  unfold apres_resize, accorde. simpl.
  destruct (heat_client.success r && _) eqn:Hc; simpl.
  - destruct (Hw r eq_refl) as [Hf _]; [by apply Heff|]. by rewrite Hf.
  - assert (Hn : ¬ committed r).
    { intros Hr. apply Heff in Hr. congruence. }
    destruct Ht as [Ht|(r' & [= <-] & Hr)]; [|done].
    destruct (String.eqb _ "cooldown"); simpl; by rewrite Hsame.
Qed.

(** X23: if the loads [state["vm"]] shows are numbers of [0, 100] they
    still are after [recevoir_alerte], however the call ends, and they
    are after every accepted alert; [emettre_metriques], which rounds
    them, then does not raise. *)
Theorem charges_gardees fuel data a :
  let a' := (recevoir_alerte tok cd vm_nom clk fuel data a).1 in
  let o := (recevoir_alerte tok cd vm_nom clk fuel data a).2 in
  charges_valides a ∨ (∃ action flavor res, o = Val (Accepte action flavor, res)) →
  charges_valides a'
  ∧ emettre_metriques a'
    = (mk_app (heat_client.record (EvEmit "metrics_update") (heat a')) (st a'),
       Val tt).
Proof.
  cbv zeta. intros H.
  assert (Hcv : charges_valides (recevoir_alerte tok cd vm_nom clk fuel data a).1).
  { revert H.
    apply (recevoir_alerte_cases (fun a' o =>
      charges_valides a ∨ (∃ action flavor res, o = Val (Accepte action flavor, res))
      → charges_valides a')).
    - intros _ [H|(? & ? & ? & [=])]. done.
    - intros d e _ _ [H|(? & ? & ? & [=])]. done.
    - intros d raison lu _ _ _ [H|(? & ? & ? & [=])]. by destruct lu.
    - intros d data_cpu data_ram _ Hc Hr _. done.
    - intros d data_cpu data_ram action h o _ Hc Hr _ _ _.
      destruct o as [r|e|]; simpl; [|done|done].
      unfold apres_resize. simpl.
      destruct (heat_client.success r && _); simpl; [done|].
      by destruct (String.eqb _ "cooldown"). }
  split; [done|]. apply emettre_metriques_run.
  destruct Hcv as [Hc Hr]. unfold in_range in Hc, Hr. unfold numeric.
  destruct (as_num (cpu _)); [|done]. destruct (as_num (ram _)); [|done].
  split; by eexists.
Qed.

(** X24: a scaling that cannot go further is journalled as an error.
    When an accepted alert asks for an action and the progression table
    gives back the flavor the VM is on, as it does for a scale up on the
    last flavor and a scale down on the first, [effectuer_resize] answers
    the outcome none without reading the clock, nothing is counted as a
    scaling, and the entry of the journal is of type error. *)
Theorem scaling_sature fuel d a raison data_cpu c :
  validator.valider_alerte tok
    (time_at clk (heat_client.trace (heat a))) d
  = inl (true, raison) →
  d !! "cpu" = Some data_cpu → as_num data_cpu = Some c →
  validator.determiner_action c (policies (st a)) ≠ "none" →
  validator.determiner_nouveau_flavor
    (validator.determiner_action c (policies (st a)))
    (current_flavor (state_vm (st a)))
  = current_flavor (state_vm (st a)) →
  accorde a →
  let flavor := current_flavor (state_vm (st a)) in
  let a' := (recevoir_alerte tok cd vm_nom clk fuel (VDict d) a).1 in
  (recevoir_alerte tok cd vm_nom clk fuel (VDict d) a).2
    = Val (Accepte (validator.determiner_action c (policies (st a))) flavor,
           Some (r_none flavor))
  ∧ (∃ t, head (logs (st a')) = Some (mk_log t "error" (m_erreur (r_none flavor))))
  ∧ scalings_up (state_stats (st a')) = scalings_up (state_stats (st a))
  ∧ scalings_down (state_stats (st a')) = scalings_down (state_stats (st a))
  ∧ heat_client._state (heat a') = heat_client._state (heat a)
  ∧ heat_client.trace (heat a')
    = EvEmit "metrics_update" :: EvStrftime "%H:%M" :: EvStrftime "%H:%M:%S"
      :: EvTime :: heat_client.trace (heat a).
Proof.
  intros Hv Hcpu Hc Hact Hsat Hacc.
  destruct (validator_facts.valider_alerte_accepte _ _ _ _ Hv)
    as (cpu' & data_ram & c' & r & _ & _ & _ & _ & Hram & Hr & _).
  assert (Hres :
    heat_client.effectuer_resize cd clk fuel vm_nom
      (validator.determiner_nouveau_flavor
         (validator.determiner_action c (policies (st a)))
         (current_flavor (state_vm (st a))))
      (heat (apres_mesure clk data_cpu data_ram a))
    = (heat (apres_mesure clk data_cpu data_ram a),
       Val (r_none (current_flavor (state_vm (st a)))))).
  { rewrite Hsat. unfold heat_client.effectuer_resize. run.
    unfold accorde in Hacc. by rewrite <- Hacc, String.eqb_refl. }
  cbv zeta.
  rewrite (run_resize fuel d a raison data_cpu data_ram c r _ _
             Hv Hcpu Hc Hram Hr Hact Hres).
  simpl. split_and!; try done. by eexists.
Qed.

End Alerts.
End adapter_more.

(* ================================================================== *)
(** * adapter.py: the session and the policies                          *)
(* ================================================================== *)

Module adapter_api_facts.
Import Py Runtime adapter adapter_api Spec Etapes.
Import Logic LogicFacts adapter_facts.

Section Routes.

Variables (utilisateur mot_de_passe : string) (clk : clock).

Lemma verifier_session_user (sess : session) :
  verifier_session sess = None ↔ is_Some (sess !! "user").
Proof.
  unfold verifier_session, contains.
  destruct (sess !! "user"); split; intros H; first [done|by destruct H].
Qed.

Lemma seuils_valides_true scale_down scale_up :
  seuils_valides scale_down scale_up = inl true ↔
  ∃ sd su, as_num scale_down = Some sd ∧ as_num scale_up = Some su
    ∧ lt (PInt 0) sd = true ∧ lt sd su = true ∧ lt su (PInt 100) = true.
Proof.
  unfold seuils_valides. split.
  - destruct (as_num scale_down) as [sd|]; [|done].
    destruct (lt (PInt 0) sd) eqn:H0; simpl; [|done].
    destruct (as_num scale_up) as [su|]; [|done].
    destruct (lt sd su) eqn:H1; simpl; [|done].
    intros [= H2]. by exists sd, su.
  - intros (sd & su & -> & -> & -> & -> & ->). done.
Qed.

(** X25: when [api_update_policies] answers a success, the request came
    with a session and with two numbers such that
    [0 < scale_down < scale_up < 100]; they are the thresholds of
    [state["policies"]] from then on, the other entries of the policies
    stay, the invariant of a policy holds, [determiner_action] decides by
    the new thresholds, and one info entry is in the journal. *)
Theorem api_update_policies_success sess data a a' p :
  api_update_policies clk sess data a = (a', Val (Politiques p)) →
  ∃ d scale_up scale_down su sd,
    is_Some (sess !! "user")
    ∧ data = VDict d
    ∧ d !! "scale_up_threshold" = Some scale_up ∧ as_num scale_up = Some su
    ∧ d !! "scale_down_threshold" = Some scale_down ∧ as_num scale_down = Some sd
    ∧ lt (PInt 0) sd = true ∧ lt sd su = true ∧ lt su (PInt 100) = true
    ∧ p = policies (st a')
    ∧ policies (st a')
      = <["scale_down_threshold" := sd]>
          (<["scale_up_threshold" := su]> (policies (st a)))
    ∧ policy_invariant (policies (st a'))
    ∧ (∀ c, validator.determiner_action c (policies (st a'))
            = if gt c su then "scale_up"
              else if lt c sd then "scale_down" else "none")
    ∧ state_vm (st a') = state_vm (st a)
    ∧ state_stats (st a') = state_stats (st a)
    ∧ heat_client._state (heat a') = heat_client._state (heat a)
    ∧ ∃ entry, type entry = "info"
        ∧ logs (st a') = take 50 (entry :: logs (st a)).
Proof.
  unfold api_update_policies.
  destruct (verifier_session sess) as [erreur|] eqn:Hsess.
  { unfold verifier_session in Hsess. destruct (contains sess "user"); [done|].
    injection Hsess as <-. done. }
  apply verifier_session_user in Hsess. destruct Hsess as [user Huser].
  destruct data as [|b|z|f|str|l|d]; try done.
  unfold dict_get.
  destruct (d !! "scale_up_threshold") as [scale_up|] eqn:Hup; [|done].
  destruct (d !! "scale_down_threshold") as [scale_down|] eqn:Hdown; simpl;
    [|by rewrite orb_true_r].
  destruct (is_none scale_up || is_none scale_down); [done|].
  rewrite bind_run.
  destruct (seuils_valides scale_down scale_up) as [[]|e] eqn:Hok; simpl;
    [|done|done].
  apply seuils_valides_true in Hok as (sd & su & Hsd & Hsu & H0 & H1 & H2).
  rewrite Hsu, Hsd. run. unfold getitem. rewrite Huser. simpl. run.
  rewrite ajouter_log_run. simpl. intros [= <- <-]. simpl.
  exists d, scale_up, scale_down, su, sd.
  assert (Hlu : (<["scale_down_threshold" := sd]>
                   (<["scale_up_threshold" := su]> (policies (st a))))
                !! "scale_up_threshold" = Some su).
  { rewrite lookup_insert_ne by done. by rewrite lookup_insert. }
  assert (Hld : (<["scale_down_threshold" := sd]>
                   (<["scale_up_threshold" := su]> (policies (st a))))
                !! "scale_down_threshold" = Some sd).
  { by rewrite lookup_insert. }
  split_and!; try done.
  - unfold policy_invariant, scale_up_threshold, scale_down_threshold.
    by rewrite Hlu, Hld.
  - intros c. unfold validator.determiner_action. by rewrite Hlu, Hld.
  - by eexists (mk_log _ _ _).
Qed.

(** X26: [api_update_policies] writes nothing unless it answers a
    success: after a refusal for want of a session, for a missing or null
    threshold, or for thresholds out of order, and after an exception,
    the policies, the journal and all the rest are as before.  Without a
    session the answer is the 401 error whatever the request holds; with
    one, two numbers that are not in the order
    [0 < scale_down < scale_up < 100] get the 400 error. *)
Theorem api_update_policies_refuse sess data a :
  (∀ a' o, api_update_policies clk sess data a = (a', o) →
     (∀ p, o ≠ Val (Politiques p)) → a' = a)
  ∧ (sess !! "user" = None →
     api_update_policies clk sess data a = (a, Val NonAutorise))
  ∧ (∀ d scale_up scale_down su sd,
     is_Some (sess !! "user") → data = VDict d →
     d !! "scale_up_threshold" = Some scale_up → as_num scale_up = Some su →
     d !! "scale_down_threshold" = Some scale_down →
     as_num scale_down = Some sd →
     lt (PInt 0) sd && lt sd su && lt su (PInt 100) = false →
     api_update_policies clk sess data a
     = (a, Val (Erreur "Seuils invalides : 0 < scale_down < scale_up < 100"))).
Proof.
  split_and!.
  - intros a' o. unfold api_update_policies.
    destruct (verifier_session sess) as [erreur|] eqn:Hsess;
      [by intros [= <- <-]|].
    apply verifier_session_user in Hsess. destruct Hsess as [user Huser].
    destruct data as [|b|z|f|str|l|d]; try by intros [= <- <-].
    destruct (is_none _ || is_none _); [by intros [= <- <-]|].
    rewrite bind_run.
    destruct (seuils_valides _ _) as [[]|e] eqn:Hok; simpl;
      [|by intros [= <- <-]|by intros [= <- <-]].
    apply seuils_valides_true in Hok as (sd & su & Hsd & Hsu & H0 & H1 & H2).
    rewrite Hsu, Hsd. run. unfold getitem. rewrite Huser. simpl. run.
    rewrite ajouter_log_run. simpl. intros [= <- <-] Hno.
    by edestruct Hno.
  - intros Hnone. unfold api_update_policies, verifier_session, contains.
    by rewrite Hnone.
  - intros d scale_up scale_down su sd Hsess -> Hup Hsu Hdown Hsd Hord.
    apply verifier_session_user in Hsess.
    unfold api_update_policies, dict_get. rewrite Hsess, Hup, Hdown. simpl.
    assert (Hnn : is_none scale_up || is_none scale_down = false).
    { destruct scale_up, scale_down; done. }
    rewrite Hnn, bind_run. unfold seuils_valides. rewrite Hsd, Hsu.
    destruct (lt (PInt 0) sd); simpl; [|done].
    destruct (lt sd su); simpl; [|done].
    simpl in Hord. by rewrite Hord.
Qed.

(** X27: the session.  [login] with the name and the password of the
    dashboard puts the name under ["user"], so that [verifier_session]
    lets the session through, and enters one info entry in the journal;
    with anything else it changes neither the session nor the state.
    After [logout], whatever the session was, [verifier_session] refuses
    it, and [api_update_policies] and [api_deploy] answer the 401 error
    and write nothing. *)
Theorem login_logout form sess a data :
  (form !! "username" = Some utilisateur →
   form !! "password" = Some mot_de_passe →
   ∃ a1 sess1,
     login utilisateur mot_de_passe clk form sess a
       = (a1, Val (sess1, RedirectDashboard))
     ∧ sess1 !! "user" = Some utilisateur
     ∧ verifier_session sess1 = None
     ∧ a1 = journalise clk [Lit "Connexion de l'utilisateur : ";
                            Fmt (VStr utilisateur) ""] "info" a)
  ∧ (form !! "username" ≠ Some utilisateur
     ∨ form !! "password" ≠ Some mot_de_passe →
     login utilisateur mot_de_passe clk form sess a
       = (a, Val (sess, RenderIndex "Identifiants incorrects")))
  ∧ (∃ a2 sess2,
       logout clk sess a = (a2, Val (sess2, RedirectIndex))
       ∧ verifier_session sess2 = Some NonAutorise
       ∧ api_update_policies clk sess2 data a2 = (a2, Val NonAutorise)
       ∧ api_deploy clk sess2 data a2 = (a2, Val NonAutorise)
       ∧ state_vm (st a2) = state_vm (st a)
       ∧ policies (st a2) = policies (st a)
       ∧ state_stats (st a2) = state_stats (st a)).
Proof.
  split_and!.
  - intros Hu Hp. unfold login. rewrite Hu, Hp, !String.eqb_refl. simpl.
    rewrite bind_run, ajouter_log_run. simpl.
    eexists _, _. split; [done|]. rewrite lookup_insert.
    split_and!; try done.
    apply verifier_session_user. by rewrite lookup_insert.
  - intros Hne. unfold login.
    destruct (form !! "username") as [u|]; [|done].
    destruct (form !! "password") as [p|]; [|done].
    destruct (String.eqb u utilisateur) eqn:Heu; [|done].
    destruct (String.eqb p mot_de_passe) eqn:Hep; [|done].
    apply String.eqb_eq in Heu, Hep. subst. by destruct Hne.
  - assert (Hout : verifier_session (delete "user" sess) = Some NonAutorise).
    { unfold verifier_session, contains. by rewrite lookup_delete. }
    unfold logout.
    destruct (sess !! "user") as [user|].
    + destruct (negb (String.eqb user "")); rewrite bind_run.
      * rewrite ajouter_log_run. simpl. eexists _, _. split; [done|].
        unfold api_update_policies, api_deploy. by rewrite Hout.
      * simpl. eexists _, _. split; [done|].
        unfold api_update_policies, api_deploy. by rewrite Hout.
    + eexists _, _. split; [done|].
      unfold api_update_policies, api_deploy. by rewrite Hout.
Qed.

End Routes.
End adapter_api_facts.

(* ================================================================== *)
(** * The further statements at work on concrete situations             *)
(* ================================================================== *)

Module Exemples.
Import Py Runtime Spec Scenario Notions Etapes Situations.

Ltac calcul := vm_compute; first [reflexivity | discriminate | done].

(** Every required field is in [champs], with the right token. *)
Ltac authentique :=
  split; [apply validator_facts.required_fields_present; calcul | calcul].

(** [champs] with the loads [c] and [r] passes the first five checks. *)
Ltac cinq_controles c r :=
  split_and!;
    [ apply validator_facts.required_fields_present; calcul
    | calcul
    | exists (VInt c), (PInt c); split_and!; calcul
    | exists (VInt r), (PInt r); split_and!; calcul ].

(** A CPU load that is a string. *)
Lemma valider_alerte_metric_rejections_witness :
  authentic SECRET_TOKEN (champs (VStr "high") (VInt 40) (VInt 1700000000))
  ∧ validator.valider_alerte SECRET_TOKEN debut
      (champs (VStr "high") (VInt 40) (VInt 1700000000))
    = mret (false, validator.r_cpu_type).
Proof.
  assert (H : authentic SECRET_TOKEN
                (champs (VStr "high") (VInt 40) (VInt 1700000000)))
    by authentique.
  split; [exact H|].
  apply (proj1 (validator_more.valider_alerte_metric_rejections SECRET_TOKEN
                  debut (champs (VStr "high") (VInt 40) (VInt 1700000000))
                  (VStr "high") (VInt 40) H eq_refl eq_refl)).
  reflexivity.
Defined.

(** An alert a hundred seconds old. *)
Lemma valider_alerte_freshness_witness :
  metrics_ok SECRET_TOKEN (champs (VInt 50) (VInt 40) (VInt 1699999900))
  ∧ float_sub debut (VInt 1699999900) = inl (float_of_Z 100)
  ∧ validator.valider_alerte SECRET_TOKEN debut
      (champs (VInt 50) (VInt 40) (VInt 1699999900))
    = mret (false, validator.r_ancienne (float_of_Z 100)).
Proof.
  assert (H : metrics_ok SECRET_TOKEN
                (champs (VInt 50) (VInt 40) (VInt 1699999900)))
    by cinq_controles 50 40.
  split; [exact H|]. split; [calcul|].
  apply (proj1 (validator_more.valider_alerte_freshness SECRET_TOKEN debut
                  (champs (VInt 50) (VInt 40) (VInt 1699999900))
                  (VInt 1699999900) (float_of_Z 100) H eq_refl
                  ltac:(calcul))).
  calcul.
Defined.

(** An alert whose timestamp is a NaN. *)
Lemma valider_alerte_nan_timestamp_witness :
  metrics_ok SECRET_TOKEN (champs (VInt 50) (VInt 40) (VFloat S754_nan))
  ∧ identified (champs (VInt 50) (VInt 40) (VFloat S754_nan))
  ∧ validator.valider_alerte SECRET_TOKEN debut
      (champs (VInt 50) (VInt 40) (VFloat S754_nan))
    = mret (true, validator.r_ok).
Proof.
  assert (H : metrics_ok SECRET_TOKEN
                (champs (VInt 50) (VInt 40) (VFloat S754_nan)))
    by cinq_controles 50 40.
  assert (Hi : identified (champs (VInt 50) (VInt 40) (VFloat S754_nan))).
  { exists "heat-vm-01". split; calcul. }
  split; [exact H|]. split; [exact Hi|].
  exact (validator_more.valider_alerte_nan_timestamp SECRET_TOKEN debut
           (champs (VInt 50) (VInt 40) (VFloat S754_nan)) H eq_refl Hi).
Defined.

(** An alert without its CPU load: the source and the token are there. *)
Lemma valider_alerte_missing_field_witness :
  champs_sans_cpu ≠ ∅
  ∧ validator.valider_alerte SECRET_TOKEN debut champs_sans_cpu
    = mret (false, validator.r_manquant "cpu").
Proof.
  assert (H : champs_sans_cpu ≠ ∅).
  { intros He. apply (f_equal (fun m : gmap string val => m !! "source")) in He.
    vm_compute in He. discriminate. }
  split; [exact H|].
  apply (proj2 (validator_more.valider_alerte_missing_field SECRET_TOKEN debut
                  champs_sans_cpu) ["source"; "token"] "cpu" ["ram"; "timestamp"]
           H eq_refl).
  - intros c Hc. apply list_elem_of_In in Hc. simpl in Hc.
    destruct Hc as [<-|[<-|[]]]; calcul.
  - calcul.
Defined.

(** Loads of 85 and of 90 under the default policy. *)
Lemma determiner_action_monotone_witness :
  le (PInt 85) (PInt 90) = true
  ∧ validator.determiner_action (PInt 85) policies = "scale_up"
  ∧ validator.determiner_action (PInt 90) policies = "scale_up".
Proof.
  split; [calcul|]. split; [calcul|].
  apply (proj1 (validator_more.determiner_action_monotone (PInt 85) (PInt 90)
                  policies ltac:(calcul))).
  calcul.
Defined.

(** The middle tier of the catalog. *)
Lemma determiner_nouveau_flavor_round_trip_witness :
  catalog !! 1%nat = Some "m1.medium"
  ∧ validator.determiner_nouveau_flavor "scale_down"
      (validator.determiner_nouveau_flavor "scale_up" "m1.medium") = "m1.medium".
Proof.
  split; [reflexivity|].
  apply (proj1 (proj2 (validator_more.determiner_nouveau_flavor_round_trip
                         1%nat "m1.medium" eq_refl))).
  simpl. lia.
Defined.

(** Looking for a server Nova does not know. *)
Lemma recuperer_vm_id_cases_witness :
  heat_client.hors_ligne monde_vide = false
  ∧ heat_client.recuperer_vm_id "heat-vm-01" monde_vide
    = (heat_client.record (EvNova (ServersList "heat-vm-01")) monde_vide,
       Val None).
Proof.
  split; [reflexivity|].
  exact (proj2 (heat_client_more.recuperer_vm_id_cases "heat-vm-01" monde_vide)
           nova_vide eq_refl eq_refl).
Defined.

(** A first resize on line: the cooldown timestamp is still [0]. *)
Lemma effectuer_resize_never_raises_witness :
  convertible (PInt 120) = true
  ∧ convertible (heat_client.last_scaling_time
                   (heat_client._state (monde "ACTIVE"))) = true
  ∧ ∀ e, (heat_client.effectuer_resize 120 horloge 30 "heat-vm-01" "m1.medium"
            (monde "ACTIVE")).2 ≠ Raised e.
Proof.
  split; [calcul|]. split; [reflexivity|].
  apply (heat_client_more.effectuer_resize_never_raises 120 horloge 30
           "heat-vm-01" "m1.medium" (monde "ACTIVE")); calcul.
Defined.

(** A simulated resize, an hour after the last one. *)
Lemma effectuer_resize_outcome_witness :
  heat_client.effectuer_resize 120 horloge 0 "heat-vm-01" "m1.medium"
    (monde_simule 3600)
  = (apres_simulation horloge "m1.medium" (monde_simule 3600),
     Val (r_simule "heat-vm-01" "m1.small" "m1.medium"))
  ∧ heat_client.ancien_flavor (r_simule "heat-vm-01" "m1.small" "m1.medium")
    = heat_client.current_flavor (heat_client._state (monde_simule 3600))
  ∧ heat_client.nouveau_flavor (r_simule "heat-vm-01" "m1.small" "m1.medium")
    = "m1.medium"
  ∧ issue (r_simule "heat-vm-01" "m1.small" "m1.medium").
Proof.
  assert (H : heat_client.effectuer_resize 120 horloge 0 "heat-vm-01" "m1.medium"
                (monde_simule 3600)
              = (apres_simulation horloge "m1.medium" (monde_simule 3600),
                 Val (r_simule "heat-vm-01" "m1.small" "m1.medium")))
    by calcul.
  split; [exact H|].
  exact (heat_client_more.effectuer_resize_outcome 120 horloge 0 "heat-vm-01"
           "m1.medium" (monde_simule 3600) _ _ H).
Defined.


(** From [m1.small] to [m1.medium] in simulation, then a request for
    [m1.large] at once. *)
Lemma resize_then_cooldown_witness :
  finite_num (PInt 120) = true
  ∧ heat_client.hors_ligne (monde_simule 3600) = true
  ∧ due 120 horloge "m1.medium" (monde_simule 3600)
  ∧ heat_client.effectuer_resize 120 horloge 0 "heat-vm-01" "m1.large"
      (apres_simulation horloge "m1.medium" (monde_simule 3600))
    = (heat_client.record EvTime
         (apres_simulation horloge "m1.medium" (monde_simule 3600)),
       Val (r_cooldown "m1.medium" "m1.large")).
Proof.
  assert (Hdue : due 120 horloge "m1.medium" (monde_simule 3600)).
  { split; [calcul|]. exists (float_of_Z 3600). split; calcul. }
  assert (Hcd : finite_num (PInt 120) = true) by calcul.
  split; [exact Hcd|]. split; [reflexivity|]. split; [exact Hdue|].
  apply (heat_client_more.resize_then_cooldown 120 horloge 0 "heat-vm-01"
           "m1.medium" "m1.large" (monde_simule 3600) Hcd eq_refl Hdue);
    calcul.
Defined.

(** A clock past the deadline from the third sleep on. *)
Lemma attendre_statut_bounded_witness :
  deadline_after (horloge_seuil 3)
    (time_at (horloge_seuil 3) (heat_client.trace (monde "RESIZE")))
    120 (heat_client.trace (monde "RESIZE")) 3
  ∧ (heat_client._attendre_statut (horloge_seuil 3) 4 "vm-1" "VERIFY_RESIZE" 120
       (monde "RESIZE")).2 ≠ Unfinished.
Proof.
  assert (H : deadline_after (horloge_seuil 3)
                (time_at (horloge_seuil 3) (heat_client.trace (monde "RESIZE")))
                120 (heat_client.trace (monde "RESIZE")) 3).
  { intros h Hh. simpl in Hh. apply Nat.leb_le in Hh.
    unfold horloge_seuil, time_at. rewrite Hh. calcul. }
  split; [exact H|].
  apply (heat_client_more.attendre_statut_bounded (horloge_seuil 3) 3 4 "vm-1"
           "VERIFY_RESIZE" 120 (monde "RESIZE") H).
  lia.
Defined.

(** A server that shows [VERIFY_RESIZE] at the first poll. *)
Lemma attendre_statut_answer_witness :
  heat_client._attendre_statut horloge 30 "vm-1" "VERIFY_RESIZE" 120
    (monde "VERIFY_RESIZE")
  = (heat_client.record (EvNova (ServerRefresh "vm-1"))
       (heat_client.record EvTime
          (heat_client.record EvTime (monde "VERIFY_RESIZE"))),
     Val true)
  ∧ ∃ nv h,
      heat_client._nova_client (monde "VERIFY_RESIZE") = Some nv
      ∧ heat_client.trace
          (heat_client.record (EvNova (ServerRefresh "vm-1"))
             (heat_client.record EvTime
                (heat_client.record EvTime (monde "VERIFY_RESIZE"))))
        = EvNova (ServerRefresh "vm-1") :: h
      ∧ server_refresh nv h "vm-1" = inl "VERIFY_RESIZE".
Proof.
  assert (H : heat_client._attendre_statut horloge 30 "vm-1" "VERIFY_RESIZE" 120
                (monde "VERIFY_RESIZE")
              = (heat_client.record (EvNova (ServerRefresh "vm-1"))
                   (heat_client.record EvTime
                      (heat_client.record EvTime (monde "VERIFY_RESIZE"))),
                 Val true))
    by calcul.
  split; [exact H|].
  exact (heat_client_more.attendre_statut_answer horloge 30 "vm-1"
           "VERIFY_RESIZE" 120 (monde "VERIFY_RESIZE") _ true H).
Defined.

(** A resize on line for a server Nova does not know. *)
Lemma resize_not_found_witness :
  heat_client.hors_ligne monde_vide = false
  ∧ due 120 horloge "m1.medium" monde_vide
  ∧ heat_client.effectuer_resize 120 horloge 30 "heat-vm-01" "m1.medium"
      monde_vide
    = (heat_client.record (EvNova (ServersList "heat-vm-01"))
         (heat_client.record EvTime monde_vide),
       Val (r_vm_introuvable "heat-vm-01" "m1.small" "m1.medium")).
Proof.
  assert (Hdue : due 120 horloge "m1.medium" monde_vide).
  { split; [calcul|]. exists (float_of_Z 1700000000). split; calcul. }
  split; [reflexivity|]. split; [exact Hdue|].
  apply (proj1 (heat_client_more.resize_not_found 120 horloge 30 "heat-vm-01"
                  "m1.medium" monde_vide nova_vide eq_refl eq_refl Hdue));
    [reflexivity|by left].
Defined.

(** The libraries of OpenStack are missing when the module connects. *)
Lemma connecter_then_resize_witness :
  heat_client_info.connecter heat_client_info.ImportError (monde "ACTIVE") None
  = (heat_client_info.set_connected false (monde "ACTIVE"), None, false)
  ∧ heat_client_info.status
      (heat_client_info.get_statut_stack
         (heat_client_info.set_connected false (monde "ACTIVE")) None)
    = "SIMULATED".
Proof.
  split; [reflexivity|].
  apply (proj2 (proj2 (proj2
           (heat_client_more.connecter_then_resize 120 horloge
              heat_client_info.ImportError (monde "ACTIVE") None
              _ _ _ 0 "heat-vm-01" "m1.medium" eq_refl)))).
  reflexivity.
Defined.

(** An alert with a NaN for its CPU load, on the adapter as it starts:
    the clock is read for the journal only. *)
Lemma alerte_rejetee_witness :
  validator.valider_alerte SECRET_TOKEN
    (time_at horloge (heat_client.trace (adapter.heat depart)))
    (champs (VFloat S754_nan) (VInt 40) (VInt 1700000000))
  = inl (false, validator.r_cpu_range (VFloat S754_nan))
  ∧ (adapter.recevoir_alerte SECRET_TOKEN 120 "heat-vm-01" horloge 30
       (VDict (champs (VFloat S754_nan) (VInt 40) (VInt 1700000000))) depart).2
    = Val (adapter.Rejet (validator.r_cpu_range (VFloat S754_nan)), None)
  ∧ heat_client.trace
      (adapter.heat
         (adapter.recevoir_alerte SECRET_TOKEN 120 "heat-vm-01" horloge 30
            (VDict (champs (VFloat S754_nan) (VInt 40) (VInt 1700000000)))
            depart).1)
    = [EvStrftime "%H:%M"].
Proof.
  assert (H : validator.valider_alerte SECRET_TOKEN
                (time_at horloge (heat_client.trace (adapter.heat depart)))
                (champs (VFloat S754_nan) (VInt 40) (VInt 1700000000))
              = inl (false, validator.r_cpu_range (VFloat S754_nan)))
    by calcul.
  split; [exact H|]. split; [|calcul].
  exact (proj1 (adapter_more.alerte_rejetee SECRET_TOKEN 120 "heat-vm-01" horloge
                  30 (champs (VFloat S754_nan) (VInt 40) (VInt 1700000000))
                  depart _ H)).
Defined.

(** A CPU load of 50 under the default policy. *)
Lemma alerte_sans_action_witness :
  validator.valider_alerte SECRET_TOKEN
    (time_at horloge (heat_client.trace (adapter.heat depart)))
    (champs (VInt 50) (VInt 40) (VInt 1700000000))
  = inl (true, validator.r_ok)
  ∧ validator.determiner_action (PInt 50) (adapter.policies (adapter.st depart))
    = "none"
  ∧ (adapter.recevoir_alerte SECRET_TOKEN 120 "heat-vm-01" horloge 30
       (VDict (champs (VInt 50) (VInt 40) (VInt 1700000000))) depart).2
    = Val (adapter.Accepte "none" "m1.small", None).
Proof.
  assert (H : validator.valider_alerte SECRET_TOKEN
                (time_at horloge (heat_client.trace (adapter.heat depart)))
                (champs (VInt 50) (VInt 40) (VInt 1700000000))
              = inl (true, validator.r_ok))
    by calcul.
  assert (Hn : validator.determiner_action (PInt 50)
                 (adapter.policies (adapter.st depart)) = "none")
    by calcul.
  split; [exact H|]. split; [exact Hn|].
  exact (proj1 (adapter_more.alerte_sans_action SECRET_TOKEN 120 "heat-vm-01"
                  horloge 30 (champs (VInt 50) (VInt 40) (VInt 1700000000))
                  depart _ (VInt 50) (VInt 40) (PInt 50) H eq_refl eq_refl
                  eq_refl Hn)).
Defined.

(** A CPU load of 85 on [m1.small], in simulation: both flavors move to
    [m1.medium]. *)
Lemma flavors_accordes_witness :
  accorde depart
  ∧ accorde (adapter.recevoir_alerte SECRET_TOKEN 120 "heat-vm-01" horloge 30
               (alerte 85) depart).1
  ∧ adapter.current_flavor
      (adapter.state_vm
         (adapter.st (adapter.recevoir_alerte SECRET_TOKEN 120 "heat-vm-01"
                        horloge 30 (alerte 85) depart).1))
    = "m1.medium".
Proof.
  assert (H : accorde depart) by reflexivity.
  split; [exact H|]. split; [|calcul].
  exact (adapter_more.flavors_accordes SECRET_TOKEN 120 "heat-vm-01" horloge 30
           (alerte 85) depart H).
Defined.

(** The adapter starts with loads of [0.0]; a request that is not an
    object leaves them. *)
Lemma charges_gardees_witness :
  charges_valides depart
  ∧ charges_valides
      (adapter.recevoir_alerte SECRET_TOKEN 120 "heat-vm-01" horloge 30
         (VList []) depart).1.
Proof.
  assert (H : charges_valides depart) by (split; calcul).
  split; [exact H|].
  exact (proj1 (adapter_more.charges_gardees SECRET_TOKEN 120 "heat-vm-01"
                  horloge 30 (VList []) depart (or_introl H))).
Defined.

(** A CPU load of 85 on [m1.large], the last flavor. *)
Lemma scaling_sature_witness :
  validator.valider_alerte SECRET_TOKEN
    (time_at horloge (heat_client.trace (adapter.heat sature)))
    (champs (VInt 85) (VInt 40) (VInt 1700000000))
  = inl (true, validator.r_ok)
  ∧ validator.determiner_action (PInt 85) (adapter.policies (adapter.st sature))
    = "scale_up"
  ∧ accorde sature
  ∧ (adapter.recevoir_alerte SECRET_TOKEN 120 "heat-vm-01" horloge 30
       (VDict (champs (VInt 85) (VInt 40) (VInt 1700000000))) sature).2
    = Val (adapter.Accepte "scale_up" "m1.large", Some (r_none "m1.large")).
Proof.
  assert (H : validator.valider_alerte SECRET_TOKEN
                (time_at horloge (heat_client.trace (adapter.heat sature)))
                (champs (VInt 85) (VInt 40) (VInt 1700000000))
              = inl (true, validator.r_ok))
    by calcul.
  assert (Ha : validator.determiner_action (PInt 85)
                 (adapter.policies (adapter.st sature)) = "scale_up")
    by calcul.
  assert (Hacc : accorde sature) by reflexivity.
  split; [exact H|]. split; [exact Ha|]. split; [exact Hacc|].
  rewrite <- Ha at 1.
  apply (adapter_more.scaling_sature SECRET_TOKEN 120 "heat-vm-01" horloge 30
           (champs (VInt 85) (VInt 40) (VInt 1700000000)) sature _
           (VInt 85) (PInt 85) H eq_refl eq_refl);
    [calcul|calcul|exact Hacc].
Defined.

(** The user [admin] sets the thresholds to 70 and 30. *)
Lemma api_update_policies_success_witness :
  let run := adapter_api.api_update_policies horloge session_admin
               (VDict (seuils 70 30)) depart in
  run = (run.1, Val (adapter_api.Politiques (adapter.policies (adapter.st run.1))))
  ∧ policy_invariant (adapter.policies (adapter.st run.1))
  ∧ validator.determiner_action (PInt 75) (adapter.policies (adapter.st run.1))
    = "scale_up".
Proof.
  intros run.
  assert (H : run = (run.1, Val (adapter_api.Politiques
                                   (adapter.policies (adapter.st run.1)))))
    by calcul.
  split; [exact H|].
  destruct (adapter_api_facts.api_update_policies_success horloge session_admin
              (VDict (seuils 70 30)) depart _ _ H)
    as (d & scale_up & scale_down & su & sd & _ & _ & _ & _ & _ & _ & _ & _ & _
        & _ & _ & Hinv & _).
  split; [exact Hinv|calcul].
Defined.

(** The user [admin] asks for thresholds in the wrong order. *)
Lemma api_update_policies_refuse_witness :
  adapter_api.api_update_policies horloge session_admin (VDict (seuils 30 70)) depart
  = (depart,
     Val (adapter_api.Erreur "Seuils invalides : 0 < scale_down < scale_up < 100")).
Proof.
  apply (proj2 (proj2 (adapter_api_facts.api_update_policies_refuse horloge
                         session_admin (VDict (seuils 30 70)) depart))
           (seuils 30 70) (VInt 30) (VInt 70) (PInt 30) (PInt 70));
    first [by eexists | reflexivity | calcul].
Defined.

(** The user [admin] logs in with the password of the dashboard. *)
Lemma login_logout_witness :
  ∃ a1 sess1,
    adapter_api.login "admin" "admin123" horloge
      (formulaire "admin" "admin123") ∅ depart
    = (a1, Val (sess1, adapter_api.RedirectDashboard))
    ∧ sess1 !! "user" = Some "admin"
    ∧ adapter_api.verifier_session sess1 = None
    ∧ a1 = journalise horloge [Lit "Connexion de l'utilisateur : ";
                               Fmt (VStr "admin") ""] "info" depart.
Proof.
  apply (proj1 (adapter_api_facts.login_logout "admin" "admin123" horloge
                  (formulaire "admin" "admin123") ∅ depart VNone));
    reflexivity.
Defined.

End Exemples.
